(** * Text-metrics engine of the readability analyzer ([app.py])

    A shallow embedding of [get_reading_ease_descriptor],
    [get_readability_descriptor] and [calculate_text_metrics], together
    with the Python built-ins they rely on, and the properties of the
    engine stated in the specification.

    Modelling conventions.
    - A Python [str] is a list of Unicode code points ([pystr]).
    - A Python [int] is a [Z]; a Python [float] is the rational it denotes
      ([Q]).  Arithmetic on floats is carried out exactly; the binary
      rounding error of [/] and [*] is not part of the model.
    - A Python exception is a value of [exn]; code that may raise returns
      a [result].
    - A [dict] is an association list in insertion order, which is the
      iteration order of [dict.items()]; a [set] is a [gset].
    - [textstat] and the non-ASCII part of the Unicode character database
      are external to the repository: they are the fields of the classes
      [Textstat] and [UnicodeDB]. *)

From Stdlib Require Import ZArith QArith Lia Lqa String Ascii.
From Stdlib Require Import Sorting.Sorted Sorting.Permutation.
From stdpp Require Import base list gmap.

Local Open Scope Z_scope.

(* ===================================================================== *)
(** * Python strings *)
(* ===================================================================== *)

Module PyStr.

(** A code point. *)
Definition char := N.

(** [str]: a sequence of code points. *)
Definition pystr := list char.

(** A string literal of the source file.  Every literal used below is
    pure ASCII, so a byte is a code point. *)
Fixpoint lit (s : string) : pystr :=
  match s with
  | EmptyString => []
  | String a t => N_of_ascii a :: lit t
  end.

Definition in_range (lo hi c : N) : bool := ((lo <=? c) && (c <=? hi))%N.

(** [str.isspace] on one character, the table [_PyUnicode_IsWhitespace]
    of CPython: U+0009..U+000D, U+001C..U+0020, U+0085, U+00A0, U+1680,
    U+2000..U+200A, U+2028, U+2029, U+202F, U+205F, U+3000. *)
Definition isspace (c : char) : bool :=
  in_range 9 13 c || in_range 28 32 c || (c =? 133)%N || (c =? 160)%N
  || (c =? 5760)%N || in_range 8192 8202 c || (c =? 8232)%N
  || (c =? 8233)%N || (c =? 8239)%N || (c =? 8287)%N || (c =? 12288)%N.

Definition is_ascii (c : char) : bool := (c <? 128)%N.

Definition ascii_isupper (c : char) : bool := in_range 65 90 c.
Definition ascii_islower (c : char) : bool := in_range 97 122 c.
Definition ascii_isalpha (c : char) : bool :=
  ascii_isupper c || ascii_islower c.
Definition ascii_lower (c : char) : char :=
  if ascii_isupper c then (c + 32)%N else c.

Definition char_eqb (a b : char) : bool := (a =? b)%N.

Fixpoint eqb (s t : pystr) : bool :=
  match s, t with
  | [], [] => true
  | a :: s', b :: t' => char_eqb a b && eqb s' t'
  | _, _ => false
  end.

(** Truth value of a string: non-empty. *)
Definition truthy (s : pystr) : bool :=
  match s with [] => false | _ :: _ => true end.

(** [s.lstrip()], [s.rstrip()] and [s.strip()] without argument. *)
Fixpoint lstrip (s : pystr) : pystr :=
  match s with
  | [] => []
  | c :: t => if isspace c then lstrip t else s
  end.

Definition rstrip (s : pystr) : pystr := rev (lstrip (rev s)).

Definition strip (s : pystr) : pystr := rstrip (lstrip s).

(** [s.split()] without argument: the maximal runs of non-whitespace
    characters, left to right.  [cur] is the run being read, reversed. *)
Fixpoint split_ws_go (cur : pystr) (s : pystr) : list pystr :=
  match s with
  | [] => if truthy cur then [rev cur] else []
  | c :: t =>
      if isspace c
      then (if truthy cur then rev cur :: split_ws_go [] t
            else split_ws_go [] t)
      else split_ws_go (c :: cur) t
  end.

Definition split_ws (s : pystr) : list pystr := split_ws_go [] s.

(** [sep] is a prefix of [s]. *)
Fixpoint starts_with (sep s : pystr) : bool :=
  match sep, s with
  | [], _ => true
  | a :: sep', b :: s' => char_eqb a b && starts_with sep' s'
  | _ :: _, [] => false
  end.

(** [s.split(sep)] for a non-empty separator: cut at every occurrence of
    [sep], scanning left to right without overlap; empty pieces are
    kept.  [skip] counts the characters of a matched separator that are
    still to be passed over, [cur] is the piece being read, reversed. *)
Fixpoint split_go (sep : pystr) (skip : nat) (cur : pystr) (s : pystr)
  : list pystr :=
  match s with
  | [] => [rev cur]
  | c :: t =>
      match skip with
      | S k => split_go sep k cur t
      | O =>
          if starts_with sep s
          then rev cur :: split_go sep (pred (length sep)) [] t
          else split_go sep O (c :: cur) t
      end
  end.

Definition split (sep s : pystr) : list pystr := split_go sep O [] s.

(** [sep.join(pieces)]. *)
Fixpoint join (sep : pystr) (pieces : list pystr) : pystr :=
  match pieces with
  | [] => []
  | [p] => p
  | p :: ps => p ++ sep ++ join sep ps
  end.

End PyStr.

Import PyStr.

(* ===================================================================== *)
(** * The descriptor classifier *)
(* ===================================================================== *)

(** [a >= b] on floats. *)
Definition Qge_bool (a b : Q) : bool := Qle_bool b a.

Definition RE_VERY_EASY : string :=
  "Very Easy (Easily understood by an 11-year-old, simple language)".
Definition RE_EASY : string :=
  "Easy (Conversational English, good for younger audiences)".
Definition RE_FAIRLY_EASY : string :=
  "Fairly Easy (Standard reading level, easily understood by teenagers)".
Definition RE_STANDARD : string :=
  "Standard (Plain English, suitable for most readers)".
Definition RE_FAIRLY_DIFFICULT : string :=
  "Fairly Difficult (Somewhat challenging, college-level text)".
Definition RE_DIFFICULT : string :=
  "Difficult (Best for academics and professionals, complex text)".
Definition RE_VERY_DIFFICULT : string :=
  "Very Difficult (Extremely complex, suitable for specialists)".

Definition get_reading_ease_descriptor (reading_ease : Q) : string :=
  if Qge_bool reading_ease 90 then RE_VERY_EASY
  else if Qge_bool reading_ease 80 then RE_EASY
  else if Qge_bool reading_ease 70 then RE_FAIRLY_EASY
  else if Qge_bool reading_ease 60 then RE_STANDARD
  else if Qge_bool reading_ease 50 then RE_FAIRLY_DIFFICULT
  else if Qge_bool reading_ease 30 then RE_DIFFICULT
  else RE_VERY_DIFFICULT.

Definition FK_VERY_EASY : string :=
  "Very Easy (5th grade or below, easily understood by an 11-year-old)".
Definition FK_EASY : string :=
  "Easy (6th-8th grade, fairly easy to read)".
Definition FK_STANDARD : string :=
  "Standard (9th-10th grade, moderately challenging)".
Definition FK_FAIRLY_DIFFICULT : string :=
  "Fairly Difficult (11th-12th grade, college level)".
Definition FK_DIFFICULT : string :=
  "Difficult (College level, requires advanced reading skills)".
Definition FK_VERY_DIFFICULT : string :=
  "Very Difficult (Postgraduate level, highly academic)".

Definition get_readability_descriptor (fk_grade : Q) : string :=
  if Qle_bool fk_grade 5 then FK_VERY_EASY
  else if Qle_bool fk_grade 8 then FK_EASY
  else if Qle_bool fk_grade 10 then FK_STANDARD
  else if Qle_bool fk_grade 12 then FK_FAIRLY_DIFFICULT
  else if Qle_bool fk_grade 15 then FK_DIFFICULT
  else FK_VERY_DIFFICULT.

(** The seven reading-ease bands and the six grade bands. *)
Definition reading_ease_labels : list string :=
  [RE_VERY_EASY; RE_EASY; RE_FAIRLY_EASY; RE_STANDARD;
   RE_FAIRLY_DIFFICULT; RE_DIFFICULT; RE_VERY_DIFFICULT].

Definition grade_labels : list string :=
  [FK_VERY_EASY; FK_EASY; FK_STANDARD; FK_FAIRLY_DIFFICULT;
   FK_DIFFICULT; FK_VERY_DIFFICULT].

(* ===================================================================== *)
(** * Python built-ins used by the engine *)
(* ===================================================================== *)

Module Py.

(** The exceptions the built-ins below can raise. *)
Inductive exn : Set :=
| ZeroDivisionError
| ValueError.

Inductive result (A : Type) : Type :=
| Ok (a : A)
| Raise (e : exn).
Arguments Ok {A} a.
Arguments Raise {A} e.

Definition ret {A} (a : A) : result A := Ok a.

Definition bind {A B} (m : result A) (k : A -> result B) : result B :=
  match m with
  | Ok a => k a
  | Raise e => Raise e
  end.

(** [a / b] on two ints: true division. *)
Definition truediv (a b : Z) : result Q :=
  if b =? 0 then Raise ZeroDivisionError
  else Ok (inject_Z a / inject_Z b)%Q.

(** [len(l)]. *)
Definition len {A} (l : list A) : Z := Z.of_nat (length l).

(** [sum(l)] on ints; [True] counts as 1. *)
Definition sum (l : list Z) : Z := fold_left Z.add l 0.

(** [round(x, ndigits)] on a float: the nearest multiple of
    [10^-ndigits], a tie going to the even multiple. *)
Definition round_half_even (n : Z) (d : positive) : Z :=
  let f := n / Zpos d in
  let r := n mod Zpos d in
  match (2 * r ?= Zpos d) with
  | Lt => f
  | Gt => f + 1
  | Eq => if Z.even f then f else f + 1
  end.

Fixpoint pow10 (n : nat) : positive :=
  match n with
  | O => 1
  | S k => 10 * pow10 k
  end.

Definition round (x : Q) (ndigits : nat) : Q :=
  let s := pow10 ndigits in
  Qred (round_half_even (Qnum x * Zpos s) (Qden x) # s).

(** [max(l, key=key)]: the first element whose key is maximal;
    [ValueError] on an empty sequence. *)
Fixpoint max_go {A} (key : A -> Z) (best : A) (l : list A) : A :=
  match l with
  | [] => best
  | x :: t => if key x >? key best then max_go key x t
              else max_go key best t
  end.

Definition max {A} (l : list A) (key : A -> Z) : result A :=
  match l with
  | [] => Raise ValueError
  | x :: t => Ok (max_go key x t)
  end.

(** [sorted(l, key=key, reverse=reverse)].  The sort is stable; with
    [reverse=True] the list is reversed, sorted in ascending order and
    reversed again, so that elements with equal keys still keep their
    original order. *)
Fixpoint insert_by {A} (key : A -> Z) (x : A) (l : list A) : list A :=
  match l with
  | [] => [x]
  | y :: t => if key x <=? key y then x :: l
              else y :: insert_by key x t
  end.

Fixpoint sort_by {A} (key : A -> Z) (l : list A) : list A :=
  match l with
  | [] => []
  | x :: t => insert_by key x (sort_by key t)
  end.

Definition sorted {A} (l : list A) (key : A -> Z) (reverse : bool)
  : list A :=
  if reverse then rev (sort_by key (rev l)) else sort_by key l.

(** A [dict] with string keys, in insertion order. *)
Definition dict (V : Type) := list (pystr * V).

(** [d.get(k, default)]. *)
Fixpoint dict_get {V} (d : dict V) (k : pystr) (default : V) : V :=
  match d with
  | [] => default
  | (k', v) :: t => if PyStr.eqb k' k then v else dict_get t k default
  end.

(** [d[k] = v]: an existing key keeps its position, a new key goes to
    the end. *)
Fixpoint dict_set {V} (d : dict V) (k : pystr) (v : V) : dict V :=
  match d with
  | [] => [(k, v)]
  | (k', v') :: t => if PyStr.eqb k' k then (k', v) :: t
                     else (k', v') :: dict_set t k v
  end.

(** [d.items()]. *)
Definition items {V} (d : dict V) : list (pystr * V) := d.

End Py.

Import Py.

Declare Scope py_scope.
Delimit Scope py_scope with py.
Notation "'let*' x ':=' m 'in' k" := (bind m (fun x => k))
  (at level 10, x name, m at level 100, k at level 200) : py_scope.

(* ===================================================================== *)
(** * External collaborators *)
(* ===================================================================== *)

(** The part of the Unicode character database outside ASCII:
    [str.isalpha] on a non-ASCII character and [str.lower] on a string
    that has a non-ASCII character. *)
Class UnicodeDB := {
  uni_isalpha : char -> bool;
  uni_lower : pystr -> pystr
}.

(** The three functions imported from [textstat]. *)
Class Textstat := {
  syllable_count : pystr -> Z;
  flesch_kincaid_grade : pystr -> Q;
  flesch_reading_ease : pystr -> Q
}.

(** [c.isalpha()]. *)
Definition isalpha `{UnicodeDB} (c : char) : bool :=
  if is_ascii c then ascii_isalpha c else uni_isalpha c.

(** [s.lower()]. *)
Definition lower `{UnicodeDB} (s : pystr) : pystr :=
  if forallb is_ascii s then map ascii_lower s else uni_lower s.

(* ===================================================================== *)
(** * The metrics engine *)
(* ===================================================================== *)

(** The record returned by [calculate_text_metrics]; a field has the name
    of its key in the returned [dict]. *)
Record metrics := {
  letterCount : Z;
  sentenceCount : Z;
  wordCount : Z;
  uniqueWordCount : Z;
  totalSyllables : Z;
  avgSyllablesPerWord : Q;
  wordsThreeSyllables : Z;
  percWordsThreeSyllables : Q;
  longestSentence : pystr;
  paragraphCount : Z;
  avgSpeakingTime : Q;
  avgReadingTime : Q;
  avgWritingTime : Q;
  avgWordsPerSentence : Q;
  avgWordsPerParagraph : Q;
  avgSentencesPerParagraph : Q;
  avgCharactersPerWord : Q;
  wordsMoreThan4Syllables : Z;
  percWordsMoreThan4Syllables : Q;
  wordsMoreThan12Letters : Z;
  percWordsMoreThan12Letters : Q;
  topWords : list (pystr * Z);
  fleschKincaid : Q;
  readabilityDescriptor : string;
  readingEase : Q;
  readingEaseDescriptor : string;
  readingTime : Q;
  averageWordLength : Q
}.

Definition DOT : pystr := lit ".".
Definition BLANK_LINE : pystr := [10%N; 10%N].

Section Engine.

Context `{UnicodeDB} `{Textstat}.

Local Open Scope py_scope.

(** [text.strip().split()] *)
Definition words_of (text : pystr) : list pystr :=
  split_ws (strip text).

(** [[s.strip() for s in text.split('.') if s.strip()]] *)
Definition sentences_of (text : pystr) : list pystr :=
  map strip (List.filter (fun s => truthy (strip s)) (split DOT text)).

(** [[p for p in text.split("\n\n") if p.strip()]] *)
Definition paragraphs_of (text : pystr) : list pystr :=
  List.filter (fun p => truthy (strip p)) (split BLANK_LINE text).

(** [len(l) if l else 1] *)
Definition len_or_1 {A} (l : list A) : Z :=
  match l with [] => 1 | _ :: _ => len l end.

(** [round(a / b, ndigits) if b > 0 else 0] *)
Definition ratio (a b : Z) (ndigits : nat) : result Q :=
  if b >? 0 then
    let* q := truediv a b in
    ret (round q ndigits)
  else ret 0%Q.

(** [round(word_count / rate, 1) if word_count > 0 else 0] *)
Definition per_minute (word_count rate : Z) : result Q :=
  if word_count >? 0 then
    let* q := truediv word_count rate in
    ret (round q 1)
  else ret 0%Q.

(** [round((a / b) * 100, 1) if b > 0 else 0] *)
Definition percentage (a b : Z) : result Q :=
  if b >? 0 then
    let* q := truediv a b in
    ret (round (q * 100)%Q 1)
  else ret 0%Q.

(** The loop that fills [word_frequency]. *)
Definition count_word (d : dict Z) (w : pystr) : dict Z :=
  let wl := lower w in
  dict_set d wl (dict_get d wl 0 + 1).

Definition word_frequency_of (words : list pystr) : dict Z :=
  fold_left count_word words [].

Definition calculate_text_metrics (text : pystr) : result metrics :=
  let words := words_of text in
  let sentences := sentences_of text in
  let letter_count := sum (map (fun c => Z.b2z (isalpha c)) text) in
  let word_count := len words in
  let sentence_count := len_or_1 sentences in
  let* avg_word_length := ratio letter_count word_count 1 in
  let unique_word_count :=
    Z.of_nat (size (list_to_set (map lower words) : gset pystr)) in
  let total_syllables := syllable_count text in
  let* avg_syllables_per_word := ratio total_syllables word_count 1 in
  let words_three_syllables :=
    sum (map (fun _ => 1)
           (List.filter (fun w => syllable_count w =? 3) words)) in
  let* perc_words_three_syllables :=
    percentage words_three_syllables word_count in
  let* longest_sentence :=
    match sentences with
    | [] => ret []
    | _ :: _ => max sentences (fun s => len (split_ws s))
    end in
  let paragraphs := paragraphs_of text in
  let paragraph_count := len_or_1 paragraphs in
  let* avg_speaking_time := per_minute word_count 150 in
  let* avg_reading_time := per_minute word_count 200 in
  let* avg_writing_time := per_minute word_count 40 in
  let* avg_words_per_sentence := ratio word_count sentence_count 1 in
  let* avg_words_per_paragraph := ratio word_count paragraph_count 1 in
  let* avg_sentences_per_paragraph :=
    ratio sentence_count paragraph_count 1 in
  let* avg_characters_per_word := ratio letter_count word_count 1 in
  let words_more_than_4_syllables :=
    sum (map (fun _ => 1)
           (List.filter (fun w => syllable_count w >? 4) words)) in
  let* perc_words_more_than_4_syllables :=
    percentage words_more_than_4_syllables word_count in
  let words_more_than_12_letters :=
    sum (map (fun _ => 1)
           (List.filter (fun w => len w >? 12) words)) in
  let* perc_words_more_than_12_letters :=
    percentage words_more_than_12_letters word_count in
  let word_frequency := word_frequency_of words in
  let top_words :=
    firstn 5 (sorted (items word_frequency) snd true) in
  let flesch_kincaid := flesch_kincaid_grade text in
  let reading_ease := flesch_reading_ease text in
  let* q := truediv word_count 200 in
  let reading_time_minutes := round q 2 in
  ret {|
    letterCount := letter_count;
    sentenceCount := sentence_count;
    wordCount := word_count;
    uniqueWordCount := unique_word_count;
    totalSyllables := total_syllables;
    avgSyllablesPerWord := avg_syllables_per_word;
    wordsThreeSyllables := words_three_syllables;
    percWordsThreeSyllables := perc_words_three_syllables;
    longestSentence := longest_sentence;
    paragraphCount := paragraph_count;
    avgSpeakingTime := avg_speaking_time;
    avgReadingTime := avg_reading_time;
    avgWritingTime := avg_writing_time;
    avgWordsPerSentence := avg_words_per_sentence;
    avgWordsPerParagraph := avg_words_per_paragraph;
    avgSentencesPerParagraph := avg_sentences_per_paragraph;
    avgCharactersPerWord := avg_characters_per_word;
    wordsMoreThan4Syllables := words_more_than_4_syllables;
    percWordsMoreThan4Syllables := perc_words_more_than_4_syllables;
    wordsMoreThan12Letters := words_more_than_12_letters;
    percWordsMoreThan12Letters := perc_words_more_than_12_letters;
    topWords := top_words;
    fleschKincaid := flesch_kincaid;
    readabilityDescriptor := get_readability_descriptor flesch_kincaid;
    readingEase := reading_ease;
    readingEaseDescriptor := get_reading_ease_descriptor reading_ease;
    readingTime := reading_time_minutes;
    averageWordLength := avg_word_length
  |}.

End Engine.

(** A concrete instance of the collaborators, to run the engine on ASCII
    texts: no letters and no case outside ASCII, one syllable per maximal
    group of vowels, both formulas constant. *)
Module Demo.

Definition is_vowel (c : char) : bool :=
  existsb (char_eqb (ascii_lower c)) (lit "aeiouy").

Fixpoint vowel_groups (inside : bool) (s : pystr) : Z :=
  match s with
  | [] => 0
  | c :: t =>
      if is_vowel c
      then (if inside then 0 else 1) + vowel_groups true t
      else vowel_groups false t
  end.

#[export] Instance unicode : UnicodeDB :=
  {| uni_isalpha := fun _ => false; uni_lower := fun s => s |}.

#[export] Instance textstat : Textstat :=
  {| syllable_count := vowel_groups false;
     flesch_kincaid_grade := fun _ => 0%Q;
     flesch_reading_ease := fun _ => 100%Q |}.

End Demo.

(* ===================================================================== *)
(** * The values the engine computes *)
(* ===================================================================== *)

(** The value of [round(a / b, ndigits) if b > 0 else 0]. *)
Definition ratio_value (a b : Z) (ndigits : nat) : Q :=
  if b >? 0 then round (inject_Z a / inject_Z b)%Q ndigits else 0%Q.

(** The value of [round((a / b) * 100, 1) if b > 0 else 0]. *)
Definition percentage_value (a b : Z) : Q :=
  if b >? 0 then round (inject_Z a / inject_Z b * 100)%Q 1 else 0%Q.

(** The value of [round(word_count / rate, 1) if word_count > 0 else 0]. *)
Definition per_minute_value (word_count rate : Z) : Q :=
  if word_count >? 0
  then round (inject_Z word_count / inject_Z rate)%Q 1 else 0%Q.

(** The number of whitespace-delimited tokens of a sentence, the key of
    [max] in the engine. *)
Definition token_count (s : pystr) : Z := len (split_ws s).

(** The value of [max(sentences, key=...) if sentences else ""]. *)
Definition longest_of (sentences : list pystr) : pystr :=
  match sentences with
  | [] => []
  | s :: rest => max_go token_count s rest
  end.

(** [sum(1 for w in words if p(w))] *)
Definition count_if {A} (p : A -> bool) (l : list A) : Z :=
  sum (map (fun _ => 1) (List.filter p l)).

(** [text] has no character other than whitespace (the empty string
    included). *)
Definition whitespace_only (text : pystr) : Prop :=
  Forall (fun c => isspace c = true) text.

(** The distinct elements of a list, each at the place of its first
    occurrence. *)
Fixpoint first_occurrences (l : list pystr) : list pystr :=
  match l with
  | [] => []
  | x :: t =>
      x :: List.filter (fun y => negb (PyStr.eqb x y)) (first_occurrences t)
  end.

(** The number of occurrences of [x] in [l]. *)
Fixpoint occurrences (x : pystr) (l : list pystr) : Z :=
  match l with
  | [] => 0
  | y :: t => (if PyStr.eqb y x then 1 else 0) + occurrences x t
  end.

(** The frequency table the specification describes: every distinct
    case-folded word with its number of occurrences, in the order in which
    the words first occur. *)
Definition frequency_table `{UnicodeDB} (words : list pystr)
  : list (pystr * Z) :=
  let folded := map lower words in
  map (fun w => (w, occurrences w folded)) (first_occurrences folded).

(** [k in l] for a list of strings. *)
Definition mem (k : pystr) (l : list pystr) : bool :=
  existsb (PyStr.eqb k) l.

(** The keys and the total of the values of a dict. *)
Definition keys {V} (d : dict V) : list pystr := map fst d.
Definition total (d : dict Z) : Z := sum (map snd d).

(** One pass of the loop on a word that is already case-folded. *)
Definition count_key (d : dict Z) (k : pystr) : dict Z :=
  dict_set d k (dict_get d k 0 + 1).

(** The entries of a table that have the count [c], in table order. *)
Definition with_count (c : Z) (table : list (pystr * Z))
  : list (pystr * Z) :=
  List.filter (fun e => snd e =? c) table.

(** Counts do not increase along a ranking. *)
Definition descending (ranking : list (pystr * Z)) : Prop :=
  Sorted (fun a b => snd b <= snd a) ranking.

(** [best] is the first element of [l] whose key is maximal: the keys
    before it are smaller, the keys after it are not larger. *)
Definition first_maximal {A} (key : A -> Z) (best : A) (l : list A)
  : Prop :=
  exists pre post,
    l = pre ++ best :: post
    /\ Forall (fun x => key x < key best) pre
    /\ Forall (fun x => key x <= key best) post.

(** The character [.] and the texts made of whitespace and [.] only. *)
Definition PERIOD : char := 46%N.

Definition blank_or_period (text : pystr) : Prop :=
  Forall (fun c => isspace c = true \/ c = PERIOD) text.

(** Keys do not decrease, respectively do not increase, from an element to
    a later one. *)
Definition key_le {A} (key : A -> Z) (a b : A) : Prop := key a <= key b.
Definition key_ge {A} (key : A -> Z) (a b : A) : Prop := key b <= key a.

(** The elements of key [c], in the order of the list. *)
Definition of_key {A} (key : A -> Z) (c : Z) (l : list A) : list A :=
  List.filter (fun e => key e =? c) l.

(** The two example texts of the specification. *)
Definition the_cat_sat : pystr := lit "The cat sat. The dog ran.".
Definition five_pairs : pystr := lit "a a b b c c d d e e f".

(** The count fields of a record. *)
Definition all_counts_zero (m : metrics) : Prop :=
  letterCount m = 0 /\ sentenceCount m = 0 /\ wordCount m = 0
  /\ uniqueWordCount m = 0 /\ totalSyllables m = 0
  /\ wordsThreeSyllables m = 0 /\ paragraphCount m = 0
  /\ wordsMoreThan4Syllables m = 0 /\ wordsMoreThan12Letters m = 0.

(** The averages taken per word, per sentence and per paragraph. *)
Definition per_unit_averages_zero (m : metrics) : Prop :=
  (avgSyllablesPerWord m == 0 /\ avgCharactersPerWord m == 0
   /\ avgWordsPerSentence m == 0 /\ avgWordsPerParagraph m == 0
   /\ avgSentencesPerParagraph m == 0)%Q.

(** Every field named [avg...] or [average...]. *)
Definition all_averages_zero (m : metrics) : Prop :=
  per_unit_averages_zero m
  /\ (avgSpeakingTime m == 0 /\ avgReadingTime m == 0
      /\ avgWritingTime m == 0 /\ averageWordLength m == 0)%Q.

(** The three percentage fields. *)
Definition percentages_zero (m : metrics) : Prop :=
  (percWordsThreeSyllables m == 0 /\ percWordsMoreThan4Syllables m == 0
   /\ percWordsMoreThan12Letters m == 0)%Q.

(** Every numeric field other than the two readability scores is
    non-negative. *)
Definition nonnegative_fields (m : metrics) : Prop :=
  (0 <= letterCount m /\ 0 <= sentenceCount m /\ 0 <= wordCount m
   /\ 0 <= uniqueWordCount m /\ 0 <= totalSyllables m
   /\ 0 <= wordsThreeSyllables m /\ 0 <= paragraphCount m
   /\ 0 <= wordsMoreThan4Syllables m /\ 0 <= wordsMoreThan12Letters m)
  /\ (0 <= avgSyllablesPerWord m /\ 0 <= percWordsThreeSyllables m
      /\ 0 <= avgSpeakingTime m /\ 0 <= avgReadingTime m
      /\ 0 <= avgWritingTime m /\ 0 <= avgWordsPerSentence m
      /\ 0 <= avgWordsPerParagraph m /\ 0 <= avgSentencesPerParagraph m
      /\ 0 <= avgCharactersPerWord m /\ 0 <= percWordsMoreThan4Syllables m
      /\ 0 <= percWordsMoreThan12Letters m /\ 0 <= readingTime m
      /\ 0 <= averageWordLength m)%Q
  /\ Forall (fun e : pystr * Z => 0 <= snd e) (topWords m).

(** A percentage. *)
Definition in_0_100 (q : Q) : Prop := (0 <= q /\ q <= 100)%Q.

(* ===================================================================== *)
(** * The built-ins on small inputs *)
(* ===================================================================== *)

Example strip_example : strip (lit "  a b  ") = lit "a b".
Proof. reflexivity. Qed.

Example split_ws_example :
  split_ws (lit " The  cat sat. ") = [lit "The"; lit "cat"; lit "sat."].
Proof. reflexivity. Qed.

Example split_period_example :
  split DOT (lit "a.b..c.") = [lit "a"; lit "b"; lit ""; lit "c"; lit ""].
Proof. reflexivity. Qed.

Example split_without_separator_example :
  split DOT (lit "abc") = [lit "abc"].
Proof. reflexivity. Qed.

(** Three line feeds: the first two are the separator. *)
Example split_blank_line_example :
  split BLANK_LINE [97; 10; 10; 10; 98]%N = [[97]; [10; 98]]%N.
Proof. reflexivity. Qed.

Example round_example_1 : round (7 # 200) 1 = 0%Q.
Proof. reflexivity. Qed.

Example round_example_2 : round (7 # 200) 2 = (1 # 25)%Q.
Proof. reflexivity. Qed.

Example round_tie_example : round (5 # 2) 0 = 2%Q /\ round (7 # 2) 0 = 4%Q.
Proof. split; reflexivity. Qed.

Example max_example :
  max [lit "a b"; lit "c d e"; lit "f"; lit "g h i"]
    (fun s => len (split_ws s)) = Ok (lit "c d e").
Proof. reflexivity. Qed.

Example max_empty_example :
  max (@nil pystr) (fun s => len (split_ws s)) = Raise ValueError.
Proof. reflexivity. Qed.

Example truediv_example : truediv 1 0 = Raise ZeroDivisionError.
Proof. reflexivity. Qed.

Example sorted_example :
  sorted [(lit "x", 1); (lit "y", 2); (lit "z", 1); (lit "w", 2)] snd true
  = [(lit "y", 2); (lit "w", 2); (lit "x", 1); (lit "z", 1)].
Proof. reflexivity. Qed.

Example word_frequency_example :
  @word_frequency_of Demo.unicode [lit "The"; lit "cat"; lit "the"]
  = [(lit "the", 2); (lit "cat", 1)].
Proof. reflexivity. Qed.

(* ===================================================================== *)
(** * Properties of the descriptor classifier *)
(* ===================================================================== *)

Section Descriptors.

Local Open Scope Q_scope.

Lemma Qge_bool_true a b : Qge_bool a b = true <-> b <= a.
Proof. unfold Qge_bool. apply Qle_bool_iff. Qed.

Lemma Qle_bool_false a b : Qle_bool a b = false <-> b < a.
Proof.
  split; intros E.
  - apply Qnot_le_lt. intros L. apply Qle_bool_iff in L. congruence.
  - destruct (Qle_bool a b) eqn:L; [|reflexivity].
    apply Qle_bool_iff in L. exfalso. apply (Qlt_not_le _ _ E L).
Qed.

Lemma Qge_bool_false a b : Qge_bool a b = false <-> a < b.
Proof. unfold Qge_bool. apply Qle_bool_false. Qed.

(** The band of a reading-ease score. *)
Lemma reading_ease_bands (q : Q) :
  (90 <= q -> get_reading_ease_descriptor q = RE_VERY_EASY)
  /\ (80 <= q < 90 -> get_reading_ease_descriptor q = RE_EASY)
  /\ (70 <= q < 80 -> get_reading_ease_descriptor q = RE_FAIRLY_EASY)
  /\ (60 <= q < 70 -> get_reading_ease_descriptor q = RE_STANDARD)
  /\ (50 <= q < 60 -> get_reading_ease_descriptor q = RE_FAIRLY_DIFFICULT)
  /\ (30 <= q < 50 -> get_reading_ease_descriptor q = RE_DIFFICULT)
  /\ (q < 30 -> get_reading_ease_descriptor q = RE_VERY_DIFFICULT).
Proof.
  unfold get_reading_ease_descriptor.
  repeat match goal with
         | |- context [Qge_bool ?a ?b] =>
             let E := fresh "E" in
             destruct (Qge_bool a b) eqn:E;
             [apply Qge_bool_true in E | apply Qge_bool_false in E]
         end;
    repeat split; intros; try reflexivity; exfalso; lra.
Qed.

(** The band of a grade level. *)
Lemma grade_bands (q : Q) :
  (q <= 5 -> get_readability_descriptor q = FK_VERY_EASY)
  /\ (5 < q <= 8 -> get_readability_descriptor q = FK_EASY)
  /\ (8 < q <= 10 -> get_readability_descriptor q = FK_STANDARD)
  /\ (10 < q <= 12 -> get_readability_descriptor q = FK_FAIRLY_DIFFICULT)
  /\ (12 < q <= 15 -> get_readability_descriptor q = FK_DIFFICULT)
  /\ (15 < q -> get_readability_descriptor q = FK_VERY_DIFFICULT).
Proof.
  unfold get_readability_descriptor.
  repeat match goal with
         | |- context [Qle_bool ?a ?b] =>
             let E := fresh "E" in
             destruct (Qle_bool a b) eqn:E;
             [apply Qle_bool_iff in E | apply Qle_bool_false in E]
         end;
    repeat split; intros; try reflexivity; exfalso; lra.
Qed.

Lemma reading_ease_label_in (q : Q) :
  In (get_reading_ease_descriptor q) reading_ease_labels.
Proof.
  unfold get_reading_ease_descriptor, reading_ease_labels.
  repeat match goal with
         | |- context [Qge_bool ?a ?b] => destruct (Qge_bool a b)
         end; simpl; tauto.
Qed.

Lemma grade_label_in (q : Q) :
  In (get_readability_descriptor q) grade_labels.
Proof.
  unfold get_readability_descriptor, grade_labels.
  repeat match goal with
         | |- context [Qle_bool ?a ?b] => destruct (Qle_bool a b)
         end; simpl; tauto.
Qed.

Lemma reading_ease_labels_distinct : List.NoDup reading_ease_labels.
Proof.
  unfold reading_ease_labels.
  repeat (apply List.NoDup_cons; [simpl; intuition discriminate|]).
  apply List.NoDup_nil.
Qed.

Lemma grade_labels_distinct : List.NoDup grade_labels.
Proof.
  unfold grade_labels.
  repeat (apply List.NoDup_cons; [simpl; intuition discriminate|]).
  apply List.NoDup_nil.
Qed.

(** C1.  Each classifier is total and returns one label of its table,
    whose labels are pairwise distinct: the reading-ease label is fixed
    by the first of the inclusive lower bounds 90, 80, 70, 60, 50, 30
    that the score reaches (else Very Difficult), the grade label by
    the first of the inclusive upper bounds 5, 8, 10, 12, 15 that the
    grade stays under (else Very Difficult).  At the boundaries:
    90 is Very Easy and 89.9 is Easy; 5 is Very Easy and 5.1 is Easy. *)
Theorem C1_descriptor_bands :
  (forall q : Q,
      In (get_reading_ease_descriptor q) reading_ease_labels
      /\ (90 <= q -> get_reading_ease_descriptor q = RE_VERY_EASY)
      /\ (80 <= q < 90 -> get_reading_ease_descriptor q = RE_EASY)
      /\ (70 <= q < 80 -> get_reading_ease_descriptor q = RE_FAIRLY_EASY)
      /\ (60 <= q < 70 -> get_reading_ease_descriptor q = RE_STANDARD)
      /\ (50 <= q < 60 ->
          get_reading_ease_descriptor q = RE_FAIRLY_DIFFICULT)
      /\ (30 <= q < 50 -> get_reading_ease_descriptor q = RE_DIFFICULT)
      /\ (q < 30 -> get_reading_ease_descriptor q = RE_VERY_DIFFICULT))
  /\ (forall q : Q,
      In (get_readability_descriptor q) grade_labels
      /\ (q <= 5 -> get_readability_descriptor q = FK_VERY_EASY)
      /\ (5 < q <= 8 -> get_readability_descriptor q = FK_EASY)
      /\ (8 < q <= 10 -> get_readability_descriptor q = FK_STANDARD)
      /\ (10 < q <= 12 ->
          get_readability_descriptor q = FK_FAIRLY_DIFFICULT)
      /\ (12 < q <= 15 -> get_readability_descriptor q = FK_DIFFICULT)
      /\ (15 < q -> get_readability_descriptor q = FK_VERY_DIFFICULT))
  /\ List.NoDup reading_ease_labels /\ length reading_ease_labels = 7%nat
  /\ List.NoDup grade_labels /\ length grade_labels = 6%nat
  /\ get_reading_ease_descriptor 90 = RE_VERY_EASY
  /\ get_reading_ease_descriptor (899 # 10) = RE_EASY
  /\ get_readability_descriptor 5 = FK_VERY_EASY
  /\ get_readability_descriptor (51 # 10) = FK_EASY.
Proof.
  split; [|split].
  - intros q. split; [apply reading_ease_label_in|].
    apply reading_ease_bands.
  - intros q. split; [apply grade_label_in|]. apply grade_bands.
  - repeat split; try reflexivity.
    + apply reading_ease_labels_distinct.
    + apply grade_labels_distinct.
Qed.

End Descriptors.

(* ===================================================================== *)
(** * Arithmetic of the built-ins *)
(* ===================================================================== *)

Section Numbers.

Lemma round_half_even_nonneg (n : Z) (d : positive) :
  0 <= n -> 0 <= round_half_even n d.
Proof.
  intros Hn. unfold round_half_even.
  assert (0 <= n / Z.pos d) by (apply Z.div_pos; lia).
  destruct (2 * (n mod Z.pos d) ?= Z.pos d);
    [destruct (Z.even _)|..]; lia.
Qed.

(** Rounding does not cross an integer bound. *)
Lemma round_half_even_le (n : Z) (d : positive) (k : Z) :
  n <= k * Z.pos d -> round_half_even n d <= k.
Proof.
  intros Hn. unfold round_half_even.
  pose proof (Z.div_mod n (Z.pos d) ltac:(lia)) as Hdm.
  pose proof (Z.mod_pos_bound n (Z.pos d) ltac:(lia)) as Hr.
  destruct (Z.eq_dec (n mod Z.pos d) 0) as [R0|R0].
  - rewrite R0. simpl. assert (n / Z.pos d <= k) by nia. lia.
  - assert (n / Z.pos d < k) by nia.
    destruct (2 * (n mod Z.pos d) ?= Z.pos d);
      [destruct (Z.even _)|..]; lia.
Qed.

Lemma round_nonneg (x : Q) (nd : nat) : (0 <= x)%Q -> (0 <= round x nd)%Q.
Proof.
  intros Hx. unfold round. rewrite Qred_correct.
  unfold Qle in *. simpl in *.
  assert (0 <= round_half_even (Qnum x * Z.pos (pow10 nd)) (Qden x))
    by (apply round_half_even_nonneg; nia).
  lia.
Qed.

Lemma round_le (x : Q) (nd : nat) (k : Z) :
  (x <= inject_Z k)%Q -> (round x nd <= inject_Z k)%Q.
Proof.
  intros Hx. unfold round. rewrite Qred_correct.
  unfold Qle in *. simpl in *.
  assert (round_half_even (Qnum x * Z.pos (pow10 nd)) (Qden x)
          <= k * Z.pos (pow10 nd))
    by (apply round_half_even_le; nia).
  lia.
Qed.

Lemma round_zero (x : Q) (nd : nat) : (x == 0)%Q -> round x nd = 0%Q.
Proof.
  intros Hx. unfold round.
  assert (Qnum x = 0) as -> by (unfold Qeq in Hx; simpl in Hx; lia).
  unfold round_half_even. rewrite Z.mul_0_l, Zdiv_0_l, Zmod_0_l.
  simpl. reflexivity.
Qed.

Lemma sum_from (l : list Z) (a : Z) : fold_left Z.add l a = a + sum l.
Proof.
  unfold sum. revert a.
  induction l as [|x l IH]; intros a; cbn [fold_left]; [lia|].
  rewrite (IH (a + x)), (IH (0 + x)). lia.
Qed.

Lemma sum_cons (x : Z) (l : list Z) : sum (x :: l) = x + sum l.
Proof. unfold sum at 1. simpl. apply sum_from. Qed.

(** [sum(1 for x in l)] is [len(l)]. *)
Lemma sum_ones {A} (l : list A) : sum (map (fun _ => 1) l) = len l.
Proof.
  unfold len. induction l as [|x l IH]; [reflexivity|].
  simpl map. rewrite sum_cons, IH. simpl length. lia.
Qed.

Lemma sum_nonneg (l : list Z) : Forall (fun x => 0 <= x) l -> 0 <= sum l.
Proof.
  induction 1 as [|x l Hx _ IH]; [unfold sum; simpl; lia|].
  rewrite sum_cons. lia.
Qed.

Lemma len_nonneg {A} (l : list A) : 0 <= len l.
Proof. unfold len. lia. Qed.

Lemma len_filter_le {A} (p : A -> bool) (l : list A) :
  len (List.filter p l) <= len l.
Proof. unfold len. pose proof (List.filter_length_le p l). lia. Qed.

End Numbers.

(* ===================================================================== *)
(** * Running the engine *)
(* ===================================================================== *)

Section Run.

Context `{UnicodeDB} `{Textstat}.

Lemma ratio_ok (a b : Z) (nd : nat) : ratio a b nd = Ok (ratio_value a b nd).
Proof.
  unfold ratio, ratio_value, truediv.
  destruct (b >? 0) eqn:Hb; [|reflexivity].
  destruct (b =? 0) eqn:Hz; [lia|reflexivity].
Qed.

Lemma percentage_ok (a b : Z) : percentage a b = Ok (percentage_value a b).
Proof.
  unfold percentage, percentage_value, truediv.
  destruct (b >? 0) eqn:Hb; [|reflexivity].
  destruct (b =? 0) eqn:Hz; [lia|reflexivity].
Qed.

Lemma per_minute_ok (word_count rate : Z) :
  rate <> 0 ->
  per_minute word_count rate = Ok (per_minute_value word_count rate).
Proof.
  intros Hr. unfold per_minute, per_minute_value, truediv.
  destruct (word_count >? 0); [|reflexivity].
  destruct (rate =? 0) eqn:Hz; [lia|reflexivity].
Qed.

Lemma max_nonempty {A} (x : A) (t : list A) (key : A -> Z) :
  max (x :: t) key = Ok (max_go key x t).
Proof. reflexivity. Qed.

(** What every field of the returned record is, as a function of the
    text. *)
Record run (text : pystr) (m : metrics) : Prop := {
  run_letterCount :
    letterCount m = sum (map (fun c => Z.b2z (isalpha c)) text);
  run_sentenceCount : sentenceCount m = len_or_1 (sentences_of text);
  run_wordCount : wordCount m = len (words_of text);
  run_uniqueWordCount :
    uniqueWordCount m =
    Z.of_nat (size (list_to_set (map lower (words_of text)) : gset pystr));
  run_totalSyllables : totalSyllables m = syllable_count text;
  run_avgSyllablesPerWord :
    avgSyllablesPerWord m =
    ratio_value (syllable_count text) (len (words_of text)) 1;
  run_wordsThreeSyllables :
    wordsThreeSyllables m =
    count_if (fun w => syllable_count w =? 3) (words_of text);
  run_percWordsThreeSyllables :
    percWordsThreeSyllables m =
    percentage_value
      (count_if (fun w => syllable_count w =? 3) (words_of text))
      (len (words_of text));
  run_longestSentence : longestSentence m = longest_of (sentences_of text);
  run_paragraphCount : paragraphCount m = len_or_1 (paragraphs_of text);
  run_avgSpeakingTime :
    avgSpeakingTime m = per_minute_value (len (words_of text)) 150;
  run_avgReadingTime :
    avgReadingTime m = per_minute_value (len (words_of text)) 200;
  run_avgWritingTime :
    avgWritingTime m = per_minute_value (len (words_of text)) 40;
  run_avgWordsPerSentence :
    avgWordsPerSentence m =
    ratio_value (len (words_of text)) (len_or_1 (sentences_of text)) 1;
  run_avgWordsPerParagraph :
    avgWordsPerParagraph m =
    ratio_value (len (words_of text)) (len_or_1 (paragraphs_of text)) 1;
  run_avgSentencesPerParagraph :
    avgSentencesPerParagraph m =
    ratio_value (len_or_1 (sentences_of text))
      (len_or_1 (paragraphs_of text)) 1;
  run_avgCharactersPerWord :
    avgCharactersPerWord m =
    ratio_value (sum (map (fun c => Z.b2z (isalpha c)) text))
      (len (words_of text)) 1;
  run_wordsMoreThan4Syllables :
    wordsMoreThan4Syllables m =
    count_if (fun w => syllable_count w >? 4) (words_of text);
  run_percWordsMoreThan4Syllables :
    percWordsMoreThan4Syllables m =
    percentage_value
      (count_if (fun w => syllable_count w >? 4) (words_of text))
      (len (words_of text));
  run_wordsMoreThan12Letters :
    wordsMoreThan12Letters m =
    count_if (fun w => len w >? 12) (words_of text);
  run_percWordsMoreThan12Letters :
    percWordsMoreThan12Letters m =
    percentage_value (count_if (fun w => len w >? 12) (words_of text))
      (len (words_of text));
  run_topWords :
    topWords m =
    firstn 5 (sorted (items (word_frequency_of (words_of text))) snd true);
  run_fleschKincaid : fleschKincaid m = flesch_kincaid_grade text;
  run_readabilityDescriptor :
    readabilityDescriptor m =
    get_readability_descriptor (flesch_kincaid_grade text);
  run_readingEase : readingEase m = flesch_reading_ease text;
  run_readingEaseDescriptor :
    readingEaseDescriptor m =
    get_reading_ease_descriptor (flesch_reading_ease text);
  run_readingTime :
    readingTime m =
    round (inject_Z (len (words_of text)) / inject_Z 200)%Q 2;
  run_averageWordLength :
    averageWordLength m =
    ratio_value (sum (map (fun c => Z.b2z (isalpha c)) text))
      (len (words_of text)) 1
}.

(** The engine raises nothing: every division has a non-zero divisor and
    [max] is only applied to a non-empty list. *)
Lemma calculate_text_metrics_run (text : pystr) :
  exists m, calculate_text_metrics text = Ok m /\ run text m.
Proof.
  unfold calculate_text_metrics.
  rewrite !ratio_ok, !percentage_ok, !per_minute_ok by discriminate.
  cbn [bind].
  assert (exists s0,
             match sentences_of text with
             | [] => ret []
             | _ :: _ => max (sentences_of text) (fun s => len (split_ws s))
             end = Ok s0 /\ s0 = longest_of (sentences_of text))
    as (s0 & -> & Hs0).
  { destruct (sentences_of text) as [|s rest]; eexists; split; reflexivity. }
  cbn [bind]. unfold truediv. cbn [Z.eqb bind ret].
  eexists. split; [reflexivity|].
  split; cbn; try reflexivity; exact Hs0.
Qed.

End Run.

(* ===================================================================== *)
(** * Properties of the string built-ins *)
(* ===================================================================== *)

Section Strings.

Lemma char_eqb_eq (a b : char) : char_eqb a b = true <-> a = b.
Proof. unfold char_eqb. apply N.eqb_eq. Qed.

Lemma eqb_eq (s t : pystr) : PyStr.eqb s t = true <-> s = t.
Proof.
  revert t. induction s as [|a s IH]; intros [|b t]; simpl;
    try (split; [discriminate|congruence]); [tauto|].
  rewrite Bool.andb_true_iff, char_eqb_eq, IH.
  split; [intros [-> ->]; reflexivity|intros [= -> ->]; tauto].
Qed.

Lemma eqb_refl (s : pystr) : PyStr.eqb s s = true.
Proof. apply eqb_eq. reflexivity. Qed.

Lemma eqb_neq (s t : pystr) : PyStr.eqb s t = false <-> s <> t.
Proof.
  destruct (PyStr.eqb s t) eqn:E.
  - apply eqb_eq in E. split; [discriminate|contradiction].
  - split; [|reflexivity]. intros _ Hst. apply eqb_eq in Hst. congruence.
Qed.

Lemma eqb_sym (s t : pystr) : PyStr.eqb s t = PyStr.eqb t s.
Proof.
  destruct (PyStr.eqb t s) eqn:E.
  - apply eqb_eq in E. subst. apply eqb_refl.
  - apply eqb_neq in E. apply eqb_neq. congruence.
Qed.

(** ** [strip] *)

Lemma lstrip_whitespace (s : pystr) : whitespace_only s -> lstrip s = [].
Proof.
  induction 1 as [|c s Hc _ IH]; [reflexivity|].
  simpl. rewrite Hc. exact IH.
Qed.

(** [lstrip] removes a prefix of whitespace. *)
Lemma lstrip_prefix (s : pystr) :
  exists l, s = l ++ lstrip s /\ whitespace_only l.
Proof.
  induction s as [|c s (l & E & Hl)].
  - exists []. split; [reflexivity|constructor].
  - simpl. destruct (isspace c) eqn:Hc.
    + exists (c :: l). split; [simpl; congruence|].
      constructor; assumption.
    + exists []. split; [reflexivity|constructor].
Qed.

Lemma lstrip_head (s : pystr) (c : char) (r : pystr) :
  lstrip s = c :: r -> isspace c = false.
Proof.
  induction s as [|a s IH]; [discriminate|].
  simpl. destruct (isspace a) eqn:Ha; [exact IH|].
  intros [= <- _]. exact Ha.
Qed.

Lemma lstrip_snoc (s : pystr) (c : char) :
  isspace c = false -> lstrip (s ++ [c]) = lstrip s ++ [c].
Proof.
  intros Hc. induction s as [|a s IH]; simpl.
  - rewrite Hc. reflexivity.
  - destruct (isspace a); [exact IH|reflexivity].
Qed.

Lemma whitespace_only_rev (s : pystr) :
  whitespace_only s -> whitespace_only (rev s).
Proof.
  unfold whitespace_only. rewrite !List.Forall_forall.
  intros Hs c Hc. apply Hs. apply List.in_rev. exact Hc.
Qed.

Lemma whitespace_only_app (s t : pystr) :
  whitespace_only (s ++ t) <-> whitespace_only s /\ whitespace_only t.
Proof. apply List.Forall_app. Qed.

(** [strip] removes a prefix and a suffix of whitespace. *)
Lemma strip_middle (s : pystr) :
  exists l r,
    s = l ++ strip s ++ r /\ whitespace_only l /\ whitespace_only r.
Proof.
  unfold strip, rstrip.
  destruct (lstrip_prefix s) as (l & El & Hl).
  destruct (lstrip_prefix (rev (lstrip s))) as (r & Er & Hr).
  exists l, (rev r). split; [|split].
  - rewrite El at 1. f_equal.
    rewrite <- (rev_involutive (lstrip s)), Er at 1.
    rewrite rev_app_distr. reflexivity.
  - exact Hl.
  - apply whitespace_only_rev. exact Hr.
Qed.

(** What [strip] leaves neither starts nor ends with whitespace. *)
Lemma strip_first (s : pystr) (c : char) (r : pystr) :
  strip s = c :: r -> isspace c = false.
Proof.
  unfold strip, rstrip.
  destruct (lstrip s) as [|c0 r0] eqn:E; [discriminate|].
  pose proof (lstrip_head _ _ _ E) as Hc0.
  simpl rev. rewrite lstrip_snoc by exact Hc0.
  rewrite rev_app_distr. simpl. intros [= <- _]. exact Hc0.
Qed.

Lemma strip_last (s : pystr) (c : char) (r : pystr) :
  strip s = r ++ [c] -> isspace c = false.
Proof.
  unfold strip, rstrip. intros E.
  apply (f_equal (@rev char)) in E.
  rewrite rev_involutive, rev_app_distr in E. simpl in E.
  exact (lstrip_head _ _ _ E).
Qed.

(** [strip] leaves nothing exactly when there is nothing but whitespace. *)
Lemma strip_empty_iff (s : pystr) : strip s = [] <-> whitespace_only s.
Proof.
  split.
  - intros E. destruct (strip_middle s) as (l & r & Es & Hl & Hr).
    rewrite E in Es. rewrite Es. simpl.
    apply whitespace_only_app. tauto.
  - intros Hs. unfold strip, rstrip.
    rewrite (lstrip_whitespace s Hs). reflexivity.
Qed.

Lemma truthy_false_iff (s : pystr) : truthy s = false <-> s = [].
Proof. destruct s; simpl; split; congruence. Qed.

Lemma truthy_strip_false_iff (s : pystr) :
  truthy (strip s) = false <-> whitespace_only s.
Proof. rewrite truthy_false_iff. apply strip_empty_iff. Qed.

(** ** [split] on a separator *)

Lemma split_go_nonempty (sep : pystr) (k : nat) (cur s : pystr) :
  split_go sep k cur s <> [].
Proof.
  revert k cur. induction s as [|c s IH]; intros k cur; simpl;
    [discriminate|].
  destruct k; [|apply IH].
  destruct (starts_with sep (c :: s)); [discriminate|apply IH].
Qed.

Lemma join_cons (sep p : pystr) (ps : list pystr) :
  ps <> [] -> join sep (p :: ps) = p ++ sep ++ join sep ps.
Proof. destruct ps; [congruence|reflexivity]. Qed.

Lemma starts_with_cut (sep s : pystr) :
  starts_with sep s = true -> s = sep ++ skipn (length sep) s.
Proof.
  revert s. induction sep as [|a sep IH]; intros s; [reflexivity|].
  destruct s as [|b s]; simpl; [discriminate|].
  rewrite Bool.andb_true_iff, char_eqb_eq. intros [-> Hs].
  f_equal. apply IH. exact Hs.
Qed.

Lemma join_split_go (sep : pystr) (k : nat) (cur s : pystr) :
  sep <> [] -> join sep (split_go sep k cur s) = rev cur ++ skipn k s.
Proof.
  intros Hsep. revert k cur.
  induction s as [|c s IH]; intros k cur.
  - cbn [split_go join]. rewrite List.skipn_nil, List.app_nil_r.
    reflexivity.
  - destruct k as [|k]; [|simpl; apply IH].
    cbn [split_go]. destruct (starts_with sep (c :: s)) eqn:Hp.
    + rewrite join_cons by apply split_go_nonempty.
      rewrite IH. simpl rev at 2. cbn [List.app]. f_equal.
      destruct sep as [|a sep]; [congruence|].
      apply starts_with_cut in Hp. simpl in Hp.
      injection Hp as -> Hs. simpl. f_equal. symmetry. exact Hs.
    + rewrite IH. simpl. rewrite <- List.app_assoc. reflexivity.
Qed.

(** Joining the pieces of a split with the separator gives the string
    back. *)
Lemma join_split (sep s : pystr) : sep <> [] -> join sep (split sep s) = s.
Proof.
  intros Hsep. unfold split. rewrite join_split_go by exact Hsep.
  reflexivity.
Qed.

(** The pieces are made of characters of the string. *)
Lemma split_go_chars (P : char -> Prop) (sep : pystr) (k : nat)
  (cur s : pystr) :
  Forall P cur -> Forall P s -> Forall (Forall P) (split_go sep k cur s).
Proof.
  revert k cur. induction s as [|c s IH]; intros k cur Hcur Hs; simpl.
  - constructor; [|constructor].
    apply List.Forall_rev. exact Hcur.
  - apply List.Forall_cons_iff in Hs as [Hc Hs].
    destruct k; [|apply IH; assumption].
    destruct (starts_with sep (c :: s)).
    + constructor; [apply List.Forall_rev; exact Hcur|].
      apply IH; [constructor|exact Hs].
    + apply IH; [constructor; assumption|exact Hs].
Qed.

Lemma split_chars (P : char -> Prop) (sep s : pystr) :
  Forall P s -> Forall (Forall P) (split sep s).
Proof. apply split_go_chars. constructor. Qed.

(** No piece of a split on one character has that character. *)
Lemma split_go_free (d : char) (cur s : pystr) :
  ~ In d cur -> Forall (fun p => ~ In d p) (split_go [d] O cur s).
Proof.
  revert cur. induction s as [|c s IH]; intros cur Hcur.
  - simpl. constructor; [|constructor].
    rewrite <- List.in_rev. exact Hcur.
  - cbn [split_go starts_with]. rewrite Bool.andb_true_r.
    destruct (char_eqb d c) eqn:Hdc.
    + constructor; [rewrite <- List.in_rev; exact Hcur|].
      apply IH. simpl. tauto.
    + apply IH. simpl. intros [->|Hin]; [|contradiction].
      assert (char_eqb d d = true) by (apply char_eqb_eq; reflexivity).
      congruence.
Qed.

Lemma split_free (d : char) (s : pystr) :
  Forall (fun p => ~ In d p) (split [d] s).
Proof. apply split_go_free. simpl. tauto. Qed.

(** ** [split] on whitespace *)

Lemma split_ws_go_whitespace (s : pystr) :
  whitespace_only s -> split_ws_go [] s = [].
Proof.
  induction 1 as [|c s Hc _ IH]; [reflexivity|].
  simpl. rewrite Hc. exact IH.
Qed.

Lemma rev_cons_nonempty (a : char) (cur : pystr) : rev (a :: cur) <> [].
Proof.
  intros E. apply (f_equal (@length char)) in E.
  rewrite List.length_rev in E. discriminate.
Qed.

(** Every token is non-empty and free of whitespace. *)
Lemma split_ws_go_tokens (cur s : pystr) :
  Forall (fun c => isspace c = false) cur ->
  Forall (fun w => w <> [] /\ Forall (fun c => isspace c = false) w)
    (split_ws_go cur s).
Proof.
  revert cur. induction s as [|c s IH]; intros cur Hcur; cbn [split_ws_go].
  - destruct cur as [|a cur]; cbn [truthy]; constructor; [|constructor].
    split; [apply rev_cons_nonempty|apply List.Forall_rev; exact Hcur].
  - destruct (isspace c) eqn:Hc.
    + destruct cur as [|a cur]; cbn [truthy].
      * apply IH. constructor.
      * constructor; [|apply IH; constructor].
        split; [apply rev_cons_nonempty|apply List.Forall_rev; exact Hcur].
    + apply IH. constructor; assumption.
Qed.

Lemma split_ws_tokens (s : pystr) :
  Forall (fun w => w <> [] /\ Forall (fun c => isspace c = false) w)
    (split_ws s).
Proof. apply split_ws_go_tokens. constructor. Qed.

End Strings.

(* ===================================================================== *)
(** * The engine on degenerate texts *)
(* ===================================================================== *)

Section Degenerate.

Context `{UnicodeDB} `{Textstat}.

Lemma words_of_whitespace (text : pystr) :
  whitespace_only text -> words_of text = [].
Proof.
  intros Hw. unfold words_of, split_ws.
  apply strip_empty_iff in Hw. rewrite Hw. reflexivity.
Qed.

Lemma filter_truthy_strip_whitespace (pieces : list pystr) :
  Forall whitespace_only pieces ->
  List.filter (fun p => truthy (strip p)) pieces = [].
Proof.
  induction 1 as [|p ps Hp _ IH]; [reflexivity|].
  simpl. apply truthy_strip_false_iff in Hp. rewrite Hp. exact IH.
Qed.

Lemma sentences_of_whitespace (text : pystr) :
  whitespace_only text -> sentences_of text = [].
Proof.
  intros Hw. unfold sentences_of.
  rewrite filter_truthy_strip_whitespace; [reflexivity|].
  apply split_chars. exact Hw.
Qed.

Lemma paragraphs_of_whitespace (text : pystr) :
  whitespace_only text -> paragraphs_of text = [].
Proof.
  intros Hw. unfold paragraphs_of.
  apply filter_truthy_strip_whitespace. apply split_chars. exact Hw.
Qed.

(** An ASCII whitespace character is not an ASCII letter. *)
Lemma ascii_space_not_alpha (c : char) :
  isspace c = true -> is_ascii c = true -> ascii_isalpha c = false.
Proof.
  unfold isspace, is_ascii, ascii_isalpha, ascii_isupper, ascii_islower,
    in_range.
  intros Hs Ha. apply N.ltb_lt in Ha.
  repeat match type of Hs with
         | (_ || _)%bool = true => apply Bool.orb_true_iff in Hs as [Hs|Hs]
         end;
    repeat match type of Hs with
           | (_ && _)%bool = true => apply Bool.andb_true_iff in Hs as [? Hs]
           end;
    repeat match goal with
           | E : (_ <=? _)%N = true |- _ => apply N.leb_le in E
           | E : (_ =? _)%N = true |- _ => apply N.eqb_eq in E
           end;
    apply Bool.orb_false_iff; split; apply Bool.andb_false_iff;
    rewrite !N.leb_gt; lia.
Qed.

Lemma letters_of_whitespace (text : pystr) :
  (forall c, isspace c = true -> uni_isalpha c = false) ->
  whitespace_only text ->
  sum (map (fun c => Z.b2z (isalpha c)) text) = 0.
Proof.
  intros Hdb. induction 1 as [|c s Hc _ IH]; [reflexivity|].
  simpl map. rewrite sum_cons, IH.
  unfold isalpha. destruct (is_ascii c) eqn:Ha.
  - rewrite ascii_space_not_alpha by assumption. reflexivity.
  - rewrite Hdb by assumption. reflexivity.
Qed.

End Degenerate.

(* ===================================================================== *)
(** * The empty text *)
(* ===================================================================== *)

(** The record returned for the empty text, whatever the collaborators
    are: the only field that depends on them is [totalSyllables]. *)
Lemma empty_text_fields (U : UnicodeDB) (T : Textstat) :
  exists m,
    calculate_text_metrics [] = Ok m
    /\ wordCount m = 0 /\ sentenceCount m = 1 /\ paragraphCount m = 1
    /\ avgSyllablesPerWord m = 0%Q /\ avgCharactersPerWord m = 0%Q
    /\ avgWordsPerSentence m = 0%Q /\ avgWordsPerParagraph m = 0%Q
    /\ avgSentencesPerParagraph m = 1%Q
    /\ percWordsThreeSyllables m = 0%Q
    /\ percWordsMoreThan4Syllables m = 0%Q
    /\ percWordsMoreThan12Letters m = 0%Q.
Proof.
  destruct (calculate_text_metrics_run []) as (m & E & R).
  exists m. split; [exact E|].
  rewrite (run_wordCount _ _ R), (run_sentenceCount _ _ R),
    (run_paragraphCount _ _ R), (run_avgSyllablesPerWord _ _ R),
    (run_avgCharactersPerWord _ _ R), (run_avgWordsPerSentence _ _ R),
    (run_avgWordsPerParagraph _ _ R), (run_avgSentencesPerParagraph _ _ R),
    (run_percWordsThreeSyllables _ _ R),
    (run_percWordsMoreThan4Syllables _ _ R),
    (run_percWordsMoreThan12Letters _ _ R).
  repeat split; reflexivity.
Qed.

(** C2, as amended.  For the empty text the engine returns a record (no
    division by zero is performed) with [wordCount = 0],
    [sentenceCount = 1] and [paragraphCount = 1]; the averages per word,
    the average of words per sentence, the average of words per paragraph
    and the three percentages are 0; [avgSentencesPerParagraph] is 1, the
    quotient of the two counts that default to 1. *)
Theorem C2_empty_text (U : UnicodeDB) (T : Textstat) :
  exists m,
    calculate_text_metrics [] = Ok m
    /\ wordCount m = 0 /\ sentenceCount m = 1 /\ paragraphCount m = 1
    /\ (avgSyllablesPerWord m == 0 /\ avgCharactersPerWord m == 0
        /\ avgWordsPerSentence m == 0 /\ avgWordsPerParagraph m == 0
        /\ avgSentencesPerParagraph m == 1)%Q
    /\ percentages_zero m.
Proof.
  destruct (empty_text_fields U T)
    as (m & E & Hw & Hs & Hp & A1 & A2 & A3 & A4 & A5 & P1 & P2 & P3).
  exists m. unfold percentages_zero.
  rewrite A1, A2, A3, A4, A5, P1, P2, P3.
  repeat split; try assumption; reflexivity.
Qed.

(** C2, as stated, fails: no choice of the collaborators makes every
    per-paragraph average of the empty text 0. *)
Lemma C2_empty_text_not_all_zero :
  ~ exists (U : UnicodeDB) (T : Textstat) (m : metrics),
      calculate_text_metrics [] = Ok m
      /\ wordCount m = 0 /\ sentenceCount m = 1 /\ paragraphCount m = 1
      /\ per_unit_averages_zero m /\ percentages_zero m.
Proof.
  intros (U & T & m & E & _ & _ & _ & (_ & _ & _ & _ & Hz) & _).
  destruct (empty_text_fields U T)
    as (m' & E' & _ & _ & _ & _ & _ & _ & _ & A5 & _).
  rewrite E in E'. injection E' as <-.
  rewrite A5 in Hz. discriminate Hz.
Qed.

(* ===================================================================== *)
(** * Texts of whitespace *)
(* ===================================================================== *)

(** C7, as amended.  For a text that is empty or has only whitespace the
    engine returns a record, raising nothing, in which every count is 0
    (the letter count, the word count, the unique word count, the total of
    syllables and the three counts of word classes) except [sentenceCount]
    and [paragraphCount], which are 1, [topWords] and [longestSentence] are
    empty, and every average and percentage is 0 except
    [avgSentencesPerParagraph], which is 1.  The letter count relies on
    the character database classifying no whitespace character as
    alphabetic, the total of syllables on the syllable primitive counting
    no syllable in the text, as textstat does in a text without words. *)
Theorem C7_whitespace_text (U : UnicodeDB) (T : Textstat) (text : pystr) :
  whitespace_only text ->
  (forall c, isspace c = true -> uni_isalpha c = false) ->
  syllable_count text = 0 ->
  exists m,
    calculate_text_metrics text = Ok m
    /\ (letterCount m = 0 /\ wordCount m = 0 /\ uniqueWordCount m = 0
        /\ totalSyllables m = 0
        /\ wordsThreeSyllables m = 0 /\ wordsMoreThan4Syllables m = 0
        /\ wordsMoreThan12Letters m = 0)
    /\ topWords m = [] /\ longestSentence m = []
    /\ sentenceCount m = 1 /\ paragraphCount m = 1
    /\ (avgSyllablesPerWord m == 0 /\ avgCharactersPerWord m == 0
        /\ avgWordsPerSentence m == 0 /\ avgWordsPerParagraph m == 0
        /\ avgSpeakingTime m == 0 /\ avgReadingTime m == 0
        /\ avgWritingTime m == 0 /\ averageWordLength m == 0
        /\ readingTime m == 0)%Q
    /\ (avgSentencesPerParagraph m == 1)%Q
    /\ percentages_zero m.
Proof.
  intros Hw Hdb Hsyl.
  destruct (calculate_text_metrics_run text) as (m & E & R).
  exists m. split; [exact E|].
  destruct R. unfold percentages_zero.
  repeat match goal with
         | Hf : ?f m = _ |- _ => rewrite Hf; clear Hf
         end.
  rewrite (words_of_whitespace text Hw), (sentences_of_whitespace text Hw),
    (paragraphs_of_whitespace text Hw), (letters_of_whitespace text Hdb Hw),
    Hsyl.
  repeat split; reflexivity.
Qed.

(** The witness of C7: three whitespace characters, with the collaborators
    of [Demo]. *)
Lemma C7_whitespace_text_witness :
  exists m,
    @calculate_text_metrics Demo.unicode Demo.textstat [32; 10; 9]%N = Ok m
    /\ (letterCount m = 0 /\ wordCount m = 0 /\ uniqueWordCount m = 0
        /\ totalSyllables m = 0
        /\ wordsThreeSyllables m = 0 /\ wordsMoreThan4Syllables m = 0
        /\ wordsMoreThan12Letters m = 0)
    /\ topWords m = [] /\ longestSentence m = []
    /\ sentenceCount m = 1 /\ paragraphCount m = 1
    /\ (avgSyllablesPerWord m == 0 /\ avgCharactersPerWord m == 0
        /\ avgWordsPerSentence m == 0 /\ avgWordsPerParagraph m == 0
        /\ avgSpeakingTime m == 0 /\ avgReadingTime m == 0
        /\ avgWritingTime m == 0 /\ averageWordLength m == 0
        /\ readingTime m == 0)%Q
    /\ (avgSentencesPerParagraph m == 1)%Q
    /\ percentages_zero m.
Proof.
  apply (C7_whitespace_text Demo.unicode Demo.textstat [32; 10; 9]%N).
  - repeat constructor.
  - reflexivity.
  - reflexivity.
Defined.

(** C7, as stated, fails on a single space: whatever the collaborators
    are, the counts [sentenceCount] and [paragraphCount] are 1 and the
    average [avgSentencesPerParagraph] is 1. *)
Lemma C7_whitespace_text_not_all_zero :
  ~ exists (U : UnicodeDB) (T : Textstat) (m : metrics),
      calculate_text_metrics [32%N] = Ok m
      /\ all_counts_zero m /\ all_averages_zero m.
Proof.
  intros (U & T & m & E & (_ & Hs & _) & _).
  destruct (calculate_text_metrics_run [32%N]) as (m' & E' & R).
  rewrite E in E'. injection E' as <-.
  rewrite (run_sentenceCount _ _ R) in Hs. discriminate Hs.
Qed.

(* ===================================================================== *)
(** * The worked example *)
(* ===================================================================== *)

(** The fields of the worked example that do not depend on the
    collaborators. *)
Lemma the_cat_sat_fields (U : UnicodeDB) (T : Textstat) :
  exists m,
    calculate_text_metrics the_cat_sat = Ok m
    /\ wordCount m = 6 /\ sentenceCount m = 2 /\ letterCount m = 18
    /\ uniqueWordCount m = 5 /\ longestSentence m = lit "The cat sat".
Proof.
  destruct (calculate_text_metrics_run the_cat_sat) as (m & E & R).
  exists m. split; [exact E|].
  rewrite (run_wordCount _ _ R), (run_sentenceCount _ _ R),
    (run_letterCount _ _ R), (run_uniqueWordCount _ _ R),
    (run_longestSentence _ _ R).
  repeat split; vm_compute; reflexivity.
Qed.

(** C4, as amended.  For the text "The cat sat. The dog ran." the engine
    returns [wordCount = 6], [sentenceCount = 2], [letterCount = 18] (the
    text has eighteen letters), [uniqueWordCount = 5] and
    [longestSentence = "The cat sat"], the first of the two sentences of
    three words. *)
Theorem C4_worked_example (U : UnicodeDB) (T : Textstat) :
  exists m,
    calculate_text_metrics the_cat_sat = Ok m
    /\ wordCount m = 6 /\ sentenceCount m = 2 /\ letterCount m = 18
    /\ uniqueWordCount m = 5 /\ longestSentence m = lit "The cat sat".
Proof. apply the_cat_sat_fields. Qed.

(** C4, as stated, fails: the letter count of the example is not 17,
    whatever the collaborators are. *)
Lemma C4_letter_count_not_17 :
  ~ exists (U : UnicodeDB) (T : Textstat) (m : metrics),
      calculate_text_metrics the_cat_sat = Ok m
      /\ wordCount m = 6 /\ sentenceCount m = 2 /\ letterCount m = 17
      /\ uniqueWordCount m = 5 /\ longestSentence m = lit "The cat sat".
Proof.
  intros (U & T & m & E & _ & _ & Hl & _).
  destruct (the_cat_sat_fields U T) as (m' & E' & _ & _ & Hl' & _).
  rewrite E in E'. injection E' as <-.
  rewrite Hl' in Hl. discriminate Hl.
Qed.

(* ===================================================================== *)
(** * Bounds on the ratios *)
(* ===================================================================== *)

Section Bounds.

Lemma quotient_nonneg (a b : Z) :
  0 <= a -> 0 < b -> (0 <= inject_Z a / inject_Z b)%Q.
Proof.
  intros Ha Hb. apply Qle_shift_div_l.
  - change 0%Q with (inject_Z 0). rewrite <- Zlt_Qlt. exact Hb.
  - rewrite Qmult_0_l. change 0%Q with (inject_Z 0).
    rewrite <- Zle_Qle. exact Ha.
Qed.

Lemma quotient_le_1 (a b : Z) :
  a <= b -> 0 < b -> (inject_Z a / inject_Z b <= 1)%Q.
Proof.
  intros Hab Hb. apply Qle_shift_div_r.
  - change 0%Q with (inject_Z 0). rewrite <- Zlt_Qlt. exact Hb.
  - rewrite Qmult_1_l. rewrite <- Zle_Qle. exact Hab.
Qed.

Lemma ratio_value_nonneg (a b : Z) (nd : nat) :
  0 <= a -> (0 <= ratio_value a b nd)%Q.
Proof.
  intros Ha. unfold ratio_value.
  destruct (b >? 0) eqn:Hb; [|apply Qle_refl].
  apply round_nonneg, quotient_nonneg; lia.
Qed.

Lemma per_minute_value_nonneg (word_count rate : Z) :
  0 < rate -> (0 <= per_minute_value word_count rate)%Q.
Proof.
  intros Hr. unfold per_minute_value.
  destruct (word_count >? 0) eqn:Hw; [|apply Qle_refl].
  apply round_nonneg, quotient_nonneg; lia.
Qed.

(** [ratio_value] is 0 as soon as the divisor is: no division is made. *)
Lemma ratio_value_zero_divisor (a : Z) (nd : nat) : ratio_value a 0 nd = 0%Q.
Proof. reflexivity. Qed.

Lemma percentage_value_zero_divisor (a : Z) : percentage_value a 0 = 0%Q.
Proof. reflexivity. Qed.

Lemma percentage_value_bounds (a b : Z) :
  0 <= a <= b -> in_0_100 (percentage_value a b).
Proof.
  intros [Ha Hab]. unfold in_0_100, percentage_value.
  destruct (b >? 0) eqn:Hb; [|split; [apply Qle_refl|discriminate]].
  assert (0 < b) as Hb' by lia.
  pose proof (quotient_nonneg a b Ha Hb') as H0.
  pose proof (quotient_le_1 a b Hab Hb') as H1.
  split.
  - apply round_nonneg. apply Qmult_le_0_compat; [exact H0|discriminate].
  - change 100%Q with (inject_Z 100). apply round_le.
    change (inject_Z 100) with (1 * 100)%Q.
    apply Qmult_le_compat_r; [exact H1|discriminate].
Qed.

Lemma count_if_len {A} (p : A -> bool) (l : list A) :
  count_if p l = len (List.filter p l).
Proof. apply sum_ones. Qed.

Lemma count_if_bounds {A} (p : A -> bool) (l : list A) :
  0 <= count_if p l <= len l.
Proof.
  rewrite count_if_len. split; [apply len_nonneg|apply len_filter_le].
Qed.

Lemma len_or_1_pos {A} (l : list A) : 1 <= len_or_1 l.
Proof. destruct l; unfold len_or_1, len; simpl length; lia. Qed.

Lemma letters_nonneg `{UnicodeDB} (text : pystr) :
  0 <= sum (map (fun c => Z.b2z (isalpha c)) text).
Proof.
  apply sum_nonneg. apply List.Forall_map, List.Forall_forall.
  intros c _. destruct (isalpha c); simpl; lia.
Qed.

End Bounds.

(** C9.  Each of the three percentage fields lies between 0 and 100,
    because the words it counts are among the words of the text. *)
Theorem C9_percentages_in_range (U : UnicodeDB) (T : Textstat)
  (text : pystr) :
  exists m,
    calculate_text_metrics text = Ok m
    /\ in_0_100 (percWordsThreeSyllables m)
    /\ in_0_100 (percWordsMoreThan4Syllables m)
    /\ in_0_100 (percWordsMoreThan12Letters m).
Proof.
  destruct (calculate_text_metrics_run text) as (m & E & R).
  exists m. split; [exact E|].
  rewrite (run_percWordsThreeSyllables _ _ R),
    (run_percWordsMoreThan4Syllables _ _ R),
    (run_percWordsMoreThan12Letters _ _ R).
  repeat split; apply percentage_value_bounds, count_if_bounds.
Qed.

(* ===================================================================== *)
(** * The word-frequency dict *)
(* ===================================================================== *)

Section Frequency.

Lemma mem_In (k : pystr) (l : list pystr) : mem k l = true <-> In k l.
Proof.
  unfold mem. rewrite List.existsb_exists. split.
  - intros (y & Hy & E). apply eqb_eq in E. subst. exact Hy.
  - intros Hk. exists k. split; [exact Hk|apply eqb_refl].
Qed.

Lemma mem_not_In (k : pystr) (l : list pystr) : mem k l = false <-> ~ In k l.
Proof.
  rewrite <- mem_In. destruct (mem k l); split; congruence.
Qed.

Lemma mem_snoc (y k : pystr) (l : list pystr) :
  mem y (l ++ [k]) = (mem y l || PyStr.eqb k y)%bool.
Proof.
  unfold mem. rewrite List.existsb_app. simpl.
  rewrite Bool.orb_false_r, (eqb_sym y k). reflexivity.
Qed.

Lemma filter_filter {A} (f g : A -> bool) (l : list A) :
  List.filter f (List.filter g l) = List.filter (fun x => (g x && f x)%bool) l.
Proof.
  induction l as [|x l IH]; [reflexivity|].
  simpl. destruct (g x); simpl; [destruct (f x)|]; rewrite IH; reflexivity.
Qed.

(** ** Reading and writing a dict *)

Lemma dict_get_set_same {V} (d : dict V) (k : pystr) (v def : V) :
  dict_get (dict_set d k v) k def = v.
Proof.
  induction d as [|[k' v'] d IH]; simpl.
  - rewrite eqb_refl. reflexivity.
  - destruct (PyStr.eqb k' k) eqn:E; simpl; rewrite E; [reflexivity|exact IH].
Qed.

Lemma dict_get_set_other {V} (d : dict V) (k k0 : pystr) (v def : V) :
  k <> k0 -> dict_get (dict_set d k v) k0 def = dict_get d k0 def.
Proof.
  intros Hk. induction d as [|[k' v'] d IH]; simpl.
  - apply eqb_neq in Hk. rewrite Hk. reflexivity.
  - destruct (PyStr.eqb k' k) eqn:E; simpl.
    + apply eqb_eq in E. subst k'.
      apply eqb_neq in Hk. rewrite Hk. reflexivity.
    + rewrite IH. reflexivity.
Qed.

Lemma keys_dict_set {V} (d : dict V) (k : pystr) (v : V) :
  keys (dict_set d k v) = if mem k (keys d) then keys d else keys d ++ [k].
Proof.
  induction d as [|[k' v'] d IH]; [reflexivity|].
  unfold keys, mem in *. simpl. rewrite (eqb_sym k k').
  destruct (PyStr.eqb k' k) eqn:E; simpl; [reflexivity|].
  rewrite IH. destruct (existsb _ _); reflexivity.
Qed.

Lemma total_dict_set (d : dict Z) (k : pystr) :
  total (count_key d k) = total d + 1.
Proof.
  unfold count_key, total.
  induction d as [|[k' v'] d IH]; [reflexivity|].
  simpl. destruct (PyStr.eqb k' k) eqn:E; simpl map; rewrite !sum_cons.
  - simpl. lia.
  - simpl snd. rewrite IH. lia.
Qed.

(** A dict with distinct keys is its keys with their values. *)
Lemma dict_as_keys (d : dict Z) :
  List.NoDup (keys d) -> d = map (fun k => (k, dict_get d k 0)) (keys d).
Proof.
  induction d as [|[k v] d IH]; [reflexivity|].
  unfold keys in *. simpl. intros Hnd.
  apply List.NoDup_cons_iff in Hnd as [Hk Hnd].
  rewrite eqb_refl. f_equal.
  rewrite (IH Hnd) at 1. apply List.map_ext_in.
  intros k' Hk'. destruct (PyStr.eqb k k') eqn:E; [|reflexivity].
  apply eqb_eq in E. subst. contradiction.
Qed.

(** ** The loop *)

Lemma count_word_key `{UnicodeDB} (d : dict Z) (w : pystr) :
  count_word d w = count_key d (lower w).
Proof. reflexivity. Qed.

Lemma word_frequency_of_fold `{UnicodeDB} (words : list pystr) :
  word_frequency_of words = fold_left count_key (map lower words) [].
Proof.
  unfold word_frequency_of. generalize (@nil (pystr * Z)).
  induction words as [|w ws IH]; intros d; [reflexivity|].
  simpl. apply IH.
Qed.

Lemma total_fold (ks : list pystr) (d : dict Z) :
  total (fold_left count_key ks d) = total d + len ks.
Proof.
  revert d. induction ks as [|k ks IH]; intros d.
  - unfold len. simpl. lia.
  - simpl fold_left. rewrite IH, total_dict_set.
    unfold len. simpl length. lia.
Qed.

Lemma get_count_key (d : dict Z) (k k0 : pystr) :
  dict_get (count_key d k) k0 0 =
  dict_get d k0 0 + (if PyStr.eqb k k0 then 1 else 0).
Proof.
  unfold count_key. destruct (PyStr.eqb k k0) eqn:E.
  - apply eqb_eq in E. subst. apply dict_get_set_same.
  - apply eqb_neq in E. rewrite dict_get_set_other by exact E. lia.
Qed.

Lemma get_fold (ks : list pystr) (d : dict Z) (k0 : pystr) :
  dict_get (fold_left count_key ks d) k0 0 =
  dict_get d k0 0 + occurrences k0 ks.
Proof.
  revert d. induction ks as [|k ks IH]; intros d; simpl; [lia|].
  rewrite IH, get_count_key. lia.
Qed.

Lemma keys_fold (ks : list pystr) (d : dict Z) :
  keys (fold_left count_key ks d) =
  keys d
  ++ List.filter (fun k => negb (mem k (keys d))) (first_occurrences ks).
Proof.
  revert d. induction ks as [|k ks IH]; intros d.
  - simpl. rewrite List.app_nil_r. reflexivity.
  - simpl fold_left. rewrite IH. unfold count_key at 1 2.
    rewrite keys_dict_set. cbn [first_occurrences List.filter].
    destruct (mem k (keys d)) eqn:Hk; cbn [negb].
    + f_equal. rewrite filter_filter. apply List.filter_ext.
      intros y. destruct (PyStr.eqb k y) eqn:E; cbn [negb].
      * apply eqb_eq in E. subst. rewrite Hk. reflexivity.
      * rewrite Bool.andb_true_l. reflexivity.
    + rewrite <- List.app_assoc. cbn [List.app]. do 2 f_equal.
      rewrite filter_filter. apply List.filter_ext.
      intros y. rewrite mem_snoc, Bool.negb_orb, Bool.andb_comm.
      reflexivity.
Qed.

(** ** The table of the specification *)

Lemma first_occurrences_In (x : pystr) (l : list pystr) :
  In x (first_occurrences l) <-> In x l.
Proof.
  induction l as [|y l IH]; [reflexivity|].
  simpl. rewrite List.filter_In, IH, Bool.negb_true_iff, eqb_neq.
  destruct (PyStr.eqb y x) eqn:E.
  - apply eqb_eq in E. tauto.
  - apply eqb_neq in E. tauto.
Qed.

Lemma first_occurrences_NoDup (l : list pystr) :
  List.NoDup (first_occurrences l).
Proof.
  induction l as [|y l IH]; simpl; constructor.
  - rewrite List.filter_In, eqb_refl. simpl. intros [_ [=]].
  - apply List.NoDup_filter. exact IH.
Qed.

Lemma keys_word_frequency (ks : list pystr) :
  keys (fold_left count_key ks []) = first_occurrences ks.
Proof.
  rewrite keys_fold. simpl.
  induction (first_occurrences ks) as [|k l IH]; [reflexivity|].
  simpl. rewrite IH. reflexivity.
Qed.

(** The dict built by the loop is the frequency table. *)
Lemma word_frequency_table `{UnicodeDB} (words : list pystr) :
  items (word_frequency_of words) = frequency_table words.
Proof.
  unfold items, frequency_table. rewrite word_frequency_of_fold.
  set (ks := map lower words).
  rewrite (dict_as_keys (fold_left count_key ks [])) at 1.
  - rewrite keys_word_frequency. apply List.map_ext.
    intros k. rewrite get_fold. reflexivity.
  - rewrite keys_word_frequency. apply first_occurrences_NoDup.
Qed.

Lemma occurrences_pos (x : pystr) (l : list pystr) :
  In x l -> 1 <= occurrences x l.
Proof.
  assert (forall l, 0 <= occurrences x l) as Hnn.
  { clear. induction l as [|y l IH]; simpl; [lia|].
    destruct (PyStr.eqb y x); lia. }
  induction l as [|y l IH]; simpl; [tauto|].
  intros [->|Hx].
  - rewrite eqb_refl. specialize (Hnn l). lia.
  - specialize (IH Hx). destruct (PyStr.eqb y x); lia.
Qed.

(** Every entry of the table is a case-folded word of the text with a
    positive count. *)
Lemma frequency_table_entries `{UnicodeDB} (words : list pystr) :
  Forall (fun e => 1 <= snd e /\ exists w, In w words /\ fst e = lower w)
    (frequency_table words).
Proof.
  unfold frequency_table. apply List.Forall_map, List.Forall_forall.
  intros k Hk. rewrite first_occurrences_In in Hk. simpl. split.
  - apply occurrences_pos. exact Hk.
  - apply List.in_map_iff in Hk as (w & <- & Hw). exists w. tauto.
Qed.

Lemma frequency_table_total `{UnicodeDB} (words : list pystr) :
  sum (map snd (frequency_table words)) = len words.
Proof.
  rewrite <- word_frequency_table. unfold items.
  rewrite word_frequency_of_fold.
  change (total (fold_left count_key (map lower words) []) = len words).
  rewrite total_fold. unfold total, len.
  rewrite List.length_map. reflexivity.
Qed.

(** [len(set(...))] counts the first occurrences. *)
Lemma size_set_first_occurrences (l : list pystr) :
  size (list_to_set l : gset pystr) = length (first_occurrences l).
Proof.
  rewrite <- (size_list_to_set (C := gset pystr) (first_occurrences l)).
  - f_equal. apply set_eq. intros x.
    rewrite !elem_of_list_to_set, !list_elem_of_In.
    symmetry. apply first_occurrences_In.
  - apply NoDup_ListNoDup, first_occurrences_NoDup.
Qed.

End Frequency.

(* ===================================================================== *)
(** * [sorted] *)
(* ===================================================================== *)

Section Sorting.

Context {A : Type} (key : A -> Z).

Lemma insert_by_perm (x : A) (l : list A) :
  Permutation (insert_by key x l) (x :: l).
Proof.
  induction l as [|y l IH]; simpl; [reflexivity|].
  destruct (key x <=? key y); [reflexivity|].
  rewrite IH. apply perm_swap.
Qed.

Lemma sort_by_perm (l : list A) : Permutation (sort_by key l) l.
Proof.
  induction l as [|x l IH]; simpl; [reflexivity|].
  rewrite insert_by_perm, IH. reflexivity.
Qed.

Lemma insert_by_hd (a x : A) (l : list A) :
  HdRel (key_le key) a l -> key_le key a x ->
  HdRel (key_le key) a (insert_by key x l).
Proof.
  intros Hl Hx. destruct l as [|y l]; simpl; [constructor; exact Hx|].
  destruct (key x <=? key y); constructor; [exact Hx|].
  inversion Hl; assumption.
Qed.

Lemma insert_by_sorted (x : A) (l : list A) :
  Sorted (key_le key) l -> Sorted (key_le key) (insert_by key x l).
Proof.
  induction 1 as [|y l Hl IH Hy]; simpl; [repeat constructor|].
  destruct (key x <=? key y) eqn:E.
  - constructor; [constructor; assumption|].
    constructor. unfold key_le. lia.
  - constructor; [exact IH|].
    apply insert_by_hd; [exact Hy|]. unfold key_le. lia.
Qed.

Lemma sort_by_sorted (l : list A) : Sorted (key_le key) (sort_by key l).
Proof.
  induction l as [|x l IH]; simpl; [constructor|].
  apply insert_by_sorted. exact IH.
Qed.

(** An insertion does not pass an element of the same key. *)
Lemma insert_by_stable (c : Z) (x : A) (l : list A) :
  of_key key c (insert_by key x l) = of_key key c (x :: l).
Proof.
  unfold of_key. induction l as [|y l IH]; [reflexivity|].
  cbn [insert_by]. destruct (key x <=? key y) eqn:E; [reflexivity|].
  cbn [List.filter] in *. rewrite IH.
  destruct (key x =? c) eqn:Ex, (key y =? c) eqn:Ey; try reflexivity.
  lia.
Qed.

Lemma sort_by_stable (c : Z) (l : list A) :
  of_key key c (sort_by key l) = of_key key c l.
Proof.
  induction l as [|x l IH]; [reflexivity|].
  cbn [sort_by]. rewrite insert_by_stable.
  unfold of_key in *. cbn [List.filter]. rewrite IH. reflexivity.
Qed.

Lemma of_key_rev (c : Z) (l : list A) :
  of_key key c (rev l) = rev (of_key key c l).
Proof.
  unfold of_key. induction l as [|x l IH]; [reflexivity|].
  simpl. rewrite List.filter_app, IH. simpl.
  destruct (key x =? c); simpl; [reflexivity|].
  rewrite List.app_nil_r. reflexivity.
Qed.

Lemma strongly_sorted_snoc (R : A -> A -> Prop) (l : list A) (x : A) :
  StronglySorted R l -> Forall (fun y => R y x) l ->
  StronglySorted R (l ++ [x]).
Proof.
  induction 1 as [|y l Hl IH Hy]; intros Hx; simpl.
  - repeat constructor.
  - apply List.Forall_cons_iff in Hx as [Hyx Hx].
    constructor; [apply IH; exact Hx|].
    apply List.Forall_app. split; [exact Hy|].
    constructor; [exact Hyx|constructor].
Qed.

Lemma strongly_sorted_rev (l : list A) :
  StronglySorted (key_le key) l -> StronglySorted (key_ge key) (rev l).
Proof.
  induction 1 as [|x l Hl IH Hx]; simpl; [constructor|].
  apply strongly_sorted_snoc; [exact IH|].
  apply List.Forall_rev. exact Hx.
Qed.

Lemma key_le_transitive : Relations_1.Transitive (key_le key).
Proof. intros a b c. unfold key_le. lia. Qed.

(** [sorted(l, key=key, reverse=True)] is a rearrangement of [l] in which
    keys do not increase and elements of equal keys keep the order they
    have in [l]. *)
Lemma sorted_reverse_perm (l : list A) : Permutation (sorted l key true) l.
Proof.
  unfold sorted. rewrite <- Permutation_rev, sort_by_perm.
  symmetry. apply Permutation_rev.
Qed.

Lemma sorted_reverse_sorted (l : list A) :
  Sorted (key_ge key) (sorted l key true).
Proof.
  unfold sorted. apply StronglySorted_Sorted, strongly_sorted_rev.
  apply Sorted_StronglySorted; [exact key_le_transitive|].
  apply sort_by_sorted.
Qed.

Lemma sorted_reverse_stable (c : Z) (l : list A) :
  of_key key c (sorted l key true) = of_key key c l.
Proof.
  unfold sorted. rewrite of_key_rev, sort_by_stable, of_key_rev.
  apply rev_involutive.
Qed.

End Sorting.

(* ===================================================================== *)
(** * The most frequent words *)
(* ===================================================================== *)

Section TopWords.

Lemma sum_app (l1 l2 : list Z) : sum (l1 ++ l2) = sum l1 + sum l2.
Proof.
  induction l1 as [|x l1 IH]; [unfold sum at 2; simpl; lia|].
  simpl List.app. rewrite !sum_cons, IH. lia.
Qed.

Lemma sum_perm (l1 l2 : list Z) : Permutation l1 l2 -> sum l1 = sum l2.
Proof.
  induction 1; rewrite ?sum_cons in *; lia.
Qed.

Lemma Forall_firstn {A} (P : A -> Prop) (n : nat) (l : list A) :
  Forall P l -> Forall P (firstn n l).
Proof.
  intros Hl. rewrite <- (List.firstn_skipn n l) in Hl.
  apply List.Forall_app in Hl. tauto.
Qed.

Lemma Sorted_firstn {A} (R : A -> A -> Prop) (n : nat) (l : list A) :
  Sorted R l -> Sorted R (firstn n l).
Proof.
  intros Hl. revert n.
  induction Hl as [|x l Hl IH Hx]; intros [|n]; simpl; try constructor.
  - apply IH.
  - destruct Hx as [|y l Hxy]; [destruct n; constructor|].
    destruct n; simpl; constructor. exact Hxy.
Qed.

(** The sum of a prefix of non-negative numbers. *)
Lemma sum_firstn_le (n : nat) (l : list Z) :
  Forall (fun x => 0 <= x) l -> sum (firstn n l) <= sum l.
Proof.
  intros Hl. rewrite <- (List.firstn_skipn n l) at 2.
  rewrite sum_app.
  assert (0 <= sum (skipn n l)); [|lia].
  apply sum_nonneg. rewrite <- (List.firstn_skipn n l) in Hl.
  apply List.Forall_app in Hl. tauto.
Qed.

Context `{UnicodeDB} `{Textstat}.

(** [topWords] is the head of the stable descending sort of the
    frequency table. *)
Lemma top_words_of_table (text : pystr) (m : metrics) :
  run text m ->
  topWords m =
  firstn 5 (sorted (frequency_table (words_of text)) snd true).
Proof.
  intros R. rewrite (run_topWords _ _ R), word_frequency_table.
  reflexivity.
Qed.

Lemma unique_word_count_table (text : pystr) (m : metrics) :
  run text m ->
  uniqueWordCount m = len (frequency_table (words_of text)).
Proof.
  intros R. rewrite (run_uniqueWordCount _ _ R).
  rewrite size_set_first_occurrences.
  unfold len, frequency_table. rewrite List.length_map. reflexivity.
Qed.

Lemma top_words_entries (text : pystr) (m : metrics) :
  run text m ->
  Forall (fun e => 1 <= snd e
                   /\ exists w, In w (words_of text) /\ fst e = lower w)
    (topWords m).
Proof.
  intros R. rewrite (top_words_of_table text m R).
  apply Forall_firstn.
  eapply Permutation_Forall;
    [symmetry; apply sorted_reverse_perm|apply frequency_table_entries].
Qed.

End TopWords.

Section Ranking.

Lemma descending_strongly (r : list (pystr * Z)) :
  descending r -> StronglySorted (key_ge snd) r.
Proof.
  apply Sorted_StronglySorted. intros a b c. unfold key_ge. lia.
Qed.

Lemma with_count_head (x : pystr * Z) (r : list (pystr * Z)) :
  with_count (snd x) (x :: r) = x :: with_count (snd x) r.
Proof. unfold with_count. simpl. rewrite Z.eqb_refl. reflexivity. Qed.

Lemma with_count_other (c : Z) (x : pystr * Z) (r : list (pystr * Z)) :
  snd x <> c -> with_count c (x :: r) = with_count c r.
Proof.
  intros Hc. unfold with_count. simpl.
  destruct (snd x =? c) eqn:E; [lia|reflexivity].
Qed.

Lemma with_count_In (x : pystr * Z) (r : list (pystr * Z)) :
  In x r <-> In x (with_count (snd x) r).
Proof.
  unfold with_count. rewrite List.filter_In, Z.eqb_refl. tauto.
Qed.

Lemma descending_head_max (x y : pystr * Z) (r : list (pystr * Z)) :
  descending (x :: r) -> In y (x :: r) -> snd y <= snd x.
Proof.
  intros Hd Hy. apply descending_strongly in Hd.
  apply StronglySorted_inv in Hd as [_ Hx].
  destruct Hy as [->|Hy]; [lia|].
  rewrite List.Forall_forall in Hx. apply (Hx y Hy).
Qed.

(** A ranking is determined by being descending and by the order of the
    entries of each count. *)
Lemma ranking_unique (r1 r2 : list (pystr * Z)) :
  descending r1 -> descending r2 ->
  (forall c, with_count c r1 = with_count c r2) -> r1 = r2.
Proof.
  revert r2. induction r1 as [|x r1 IH]; intros r2 H1 H2 Hc.
  - destruct r2 as [|y r2]; [reflexivity|].
    specialize (Hc (snd y)). rewrite with_count_head in Hc. discriminate Hc.
  - destruct r2 as [|y r2].
    { specialize (Hc (snd x)). rewrite with_count_head in Hc.
      discriminate Hc. }
    assert (snd y <= snd x) as Hyx.
    { apply (descending_head_max x y r1 H1).
      apply with_count_In. rewrite Hc, with_count_head. left. reflexivity. }
    assert (snd x <= snd y) as Hxy.
    { apply (descending_head_max y x r2 H2).
      apply with_count_In. rewrite <- Hc, with_count_head. left.
      reflexivity. }
    assert (snd x = snd y) as Exy by lia.
    pose proof (Hc (snd x)) as Hcx.
    rewrite with_count_head, Exy, with_count_head in Hcx.
    injection Hcx as -> Htl. f_equal.
    apply IH.
    + inversion H1; assumption.
    + inversion H2; assumption.
    + intros c. destruct (Z.eq_dec (snd y) c) as [<-|Hne]; [exact Htl|].
      specialize (Hc c). rewrite !with_count_other in Hc by exact Hne.
      exact Hc.
Qed.

End Ranking.

(** C5.  [topWords] is the first five entries of a ranking of the
    case-folded frequency table: the ranking rearranges the table, its
    counts do not increase, and entries of the same count stand in it in
    the order of the table, which is the order of first occurrence of the
    words in the text; there is one such ranking only.  For
    "a a b b c c d d e e f" this gives the five entries a, b, c, d, e in
    that order, each of count 2, and not f. *)
Theorem C5_top_words_ranking :
  (forall (U : UnicodeDB) (T : Textstat) (text : pystr),
      exists m ranking,
        calculate_text_metrics text = Ok m
        /\ topWords m = firstn 5 ranking
        /\ Permutation ranking (frequency_table (words_of text))
        /\ descending ranking
        /\ (forall c,
               with_count c ranking
               = with_count c (frequency_table (words_of text)))
        /\ (forall other,
               descending other ->
               (forall c,
                   with_count c other
                   = with_count c (frequency_table (words_of text))) ->
               other = ranking))
  /\ (forall (U : UnicodeDB) (T : Textstat),
         exists m,
           calculate_text_metrics five_pairs = Ok m
           /\ topWords m =
              [(lit "a", 2); (lit "b", 2); (lit "c", 2); (lit "d", 2);
               (lit "e", 2)]
           /\ length (topWords m) = 5%nat
           /\ Forall (fun e => snd e = 2) (topWords m)
           /\ ~ In (lit "f") (map fst (topWords m))).
Proof.
  split.
  - intros U T text.
    destruct (calculate_text_metrics_run text) as (m & E & R).
    exists m, (sorted (frequency_table (words_of text)) snd true).
    split; [exact E|]. split; [apply top_words_of_table; exact R|].
    split; [apply sorted_reverse_perm|].
    split; [apply (sorted_reverse_sorted snd)|].
    split; [intros c; apply (sorted_reverse_stable snd)|].
    intros other Hd Hc. apply ranking_unique.
    + exact Hd.
    + apply (sorted_reverse_sorted snd).
    + intros c. rewrite Hc. symmetry. apply (sorted_reverse_stable snd).
  - intros U T.
    destruct (calculate_text_metrics_run five_pairs) as (m & E & R).
    exists m. split; [exact E|].
    assert (topWords m =
            [(lit "a", 2); (lit "b", 2); (lit "c", 2); (lit "d", 2);
             (lit "e", 2)]) as ->.
    { rewrite (run_topWords _ _ R). vm_compute. reflexivity. }
    split; [reflexivity|]. split; [reflexivity|].
    split; [repeat constructor|].
    simpl. intros Hf.
    repeat (destruct Hf as [Hf|Hf]; [discriminate Hf|]). exact Hf.
Qed.

(** C10.  [topWords] has [min(5, uniqueWordCount)] entries; every count
    in it is at least 1 and no count is larger than the one before it;
    every word in it is the case-folded form of a word of the text; the
    counts add up to at most [wordCount]. *)
Theorem C10_top_words_invariants (U : UnicodeDB) (T : Textstat)
  (text : pystr) :
  exists m,
    calculate_text_metrics text = Ok m
    /\ len (topWords m) = Z.min 5 (uniqueWordCount m)
    /\ Forall (fun e => 1 <= snd e) (topWords m)
    /\ descending (topWords m)
    /\ Forall (fun e => exists w, In w (words_of text) /\ fst e = lower w)
         (topWords m)
    /\ sum (map snd (topWords m)) <= wordCount m.
Proof.
  destruct (calculate_text_metrics_run text) as (m & E & R).
  exists m. split; [exact E|].
  pose proof (top_words_entries text m R) as Hent.
  pose proof (top_words_of_table text m R) as Htop.
  set (table := frequency_table (words_of text)) in *.
  pose proof (sorted_reverse_perm snd table) as Hperm.
  split; [|split; [|split; [|split]]].
  - rewrite (unique_word_count_table text m R), Htop. fold table.
    unfold len. rewrite List.length_firstn, (Permutation_length Hperm).
    lia.
  - eapply List.Forall_impl; [|exact Hent]. simpl. tauto.
  - rewrite Htop. apply Sorted_firstn. apply (sorted_reverse_sorted snd).
  - eapply List.Forall_impl; [|exact Hent]. simpl. tauto.
  - rewrite Htop, (run_wordCount _ _ R).
    rewrite <- (frequency_table_total (words_of text)). fold table.
    rewrite <- (sum_perm _ _ (Permutation_map snd Hperm)).
    rewrite <- List.firstn_map. apply sum_firstn_le.
    apply List.Forall_map.
    eapply Permutation_Forall; [symmetry; exact Hperm|].
    eapply List.Forall_impl; [|apply frequency_table_entries].
    simpl. intros e [He _]. lia.
Qed.

(* ===================================================================== *)
(** * Totality *)
(* ===================================================================== *)

Lemma vowel_groups_nonneg (inside : bool) (s : pystr) :
  0 <= Demo.vowel_groups inside s.
Proof.
  revert inside. induction s as [|c s IH]; intros inside; simpl; [lia|].
  destruct (Demo.is_vowel c); [|apply IH].
  specialize (IH true). destruct inside; lia.
Qed.

(** C3.  For every text the engine returns a record and raises nothing,
    and every numeric field of the record other than [fleschKincaid] and
    [readingEase] is non-negative (a rational, hence finite), provided the
    syllable primitive never returns a negative number. *)
Theorem C3_total_and_nonnegative (U : UnicodeDB) (T : Textstat)
  (text : pystr) :
  (forall s, 0 <= syllable_count s) ->
  exists m, calculate_text_metrics text = Ok m /\ nonnegative_fields m.
Proof.
  intros Hsyl.
  destruct (calculate_text_metrics_run text) as (m & E & R).
  exists m. split; [exact E|].
  pose proof (top_words_entries text m R) as Hent.
  pose proof (unique_word_count_table text m R) as Huniq.
  pose proof (letters_nonneg text) as Hlet.
  pose proof (len_or_1_pos (sentences_of text)) as Hsen.
  pose proof (len_or_1_pos (paragraphs_of text)) as Hpar.
  pose proof (len_nonneg (words_of text)) as Hwords.
  destruct R. unfold nonnegative_fields.
  repeat match goal with
         | Hf : ?f m = _ |- _ =>
             lazymatch f with
             | topWords => fail
             | uniqueWordCount => fail
             | _ => rewrite Hf; clear Hf
             end
         end.
  rewrite Huniq.
  split; [|split].
  - repeat split; try lia; try apply len_nonneg; try apply count_if_bounds.
    apply Hsyl.
  - repeat split;
      try (apply ratio_value_nonneg; first [lia | apply Hsyl]);
      try (apply per_minute_value_nonneg; lia);
      try (apply percentage_value_bounds, count_if_bounds).
    apply round_nonneg, quotient_nonneg; lia.
  - eapply List.Forall_impl; [|exact Hent]. simpl. intros e [He _]. lia.
Qed.

(** The witness of C3: a text with punctuation, with the collaborators of
    [Demo]. *)
Lemma C3_total_and_nonnegative_witness :
  exists m,
    @calculate_text_metrics Demo.unicode Demo.textstat
      (lit "Hello, world. No?") = Ok m
    /\ nonnegative_fields m.
Proof.
  apply (C3_total_and_nonnegative Demo.unicode Demo.textstat).
  intros s. apply vowel_groups_nonneg.
Defined.

(* ===================================================================== *)
(** * Sentences *)
(* ===================================================================== *)

Section Sentences.

(** [max] returns the first element of maximal key. *)
Lemma max_go_first_maximal {A} (key : A -> Z) (best : A) (l : list A) :
  first_maximal key (max_go key best l) (best :: l).
Proof.
  revert best. induction l as [|x l IH]; intros best; cbn [max_go].
  - exists [], []. repeat split; constructor.
  - destruct (key x >? key best) eqn:E.
    + destruct (IH x) as (pre & post & Ex & Hpre & Hpost).
      revert Ex Hpre Hpost. generalize (max_go key x l).
      intros r Ex Hpre Hpost.
      exists (best :: pre), post. rewrite Ex. split; [reflexivity|].
      split; [|exact Hpost]. constructor; [|exact Hpre].
      destruct pre as [|y pre]; simpl in Ex; injection Ex as Ey _.
      * subst r. lia.
      * subst y. apply List.Forall_cons_iff in Hpre as [Hx _]. lia.
    + destruct (IH best) as (pre & post & Ex & Hpre & Hpost).
      revert Ex Hpre Hpost. generalize (max_go key best l).
      intros r Ex Hpre Hpost.
      destruct pre as [|y pre]; simpl in Ex; injection Ex as Ey El.
      * subst r l. exists [], (x :: post).
        split; [reflexivity|]. split; [constructor|].
        constructor; [lia|exact Hpost].
      * subst y l. exists (best :: x :: pre), post.
        split; [reflexivity|]. split; [|exact Hpost].
        apply List.Forall_cons_iff in Hpre as [Hb Hpre].
        repeat constructor; [exact Hb|lia|exact Hpre].
Qed.

Lemma longest_of_first_maximal (sentences : list pystr) :
  sentences <> [] ->
  first_maximal token_count (longest_of sentences) sentences.
Proof.
  destruct sentences as [|s rest]; [congruence|].
  intros _. apply max_go_first_maximal.
Qed.

Lemma filter_nil_iff {A} (f : A -> bool) (l : list A) :
  List.filter f l = [] <-> Forall (fun x => f x = false) l.
Proof.
  induction l as [|x l IH]; simpl.
  - split; [constructor|reflexivity].
  - rewrite List.Forall_cons_iff, <- IH.
    destruct (f x); split; try discriminate; try tauto.
    intros [[=] _].
Qed.

Lemma join_chars (P : char -> Prop) (sep : pystr) (pieces : list pystr) :
  Forall P sep -> Forall (Forall P) pieces -> Forall P (join sep pieces).
Proof.
  intros Hsep. induction 1 as [|p ps Hp Hps IH]; [constructor|].
  destruct ps as [|q ps]; [exact Hp|].
  cbn [join]. rewrite !List.Forall_app. tauto.
Qed.

(** There is no sentence exactly when the text has nothing but whitespace
    and periods. *)
Lemma sentences_of_empty_iff (text : pystr) :
  sentences_of text = [] <-> blank_or_period text.
Proof.
  unfold sentences_of, blank_or_period.
  split.
  - intros E. apply List.map_eq_nil in E. apply filter_nil_iff in E.
    rewrite <- (join_split DOT text) by discriminate.
    apply join_chars.
    + constructor; [right; reflexivity|constructor].
    + eapply List.Forall_impl; [|exact E].
      intros p Hp. apply truthy_strip_false_iff in Hp.
      eapply List.Forall_impl; [|exact Hp]. simpl. tauto.
  - intros Ht.
    assert (List.filter (fun s => truthy (strip s)) (split DOT text) = [])
      as ->; [|reflexivity].
    apply filter_nil_iff.
    pose proof (split_chars _ DOT text Ht) as Hch.
    pose proof (split_free PERIOD text) as Hfree.
    change [PERIOD] with DOT in Hfree.
    revert Hch Hfree. generalize (split DOT text).
    induction l as [|p ps IH]; intros Hch Hfree; [constructor|].
    apply List.Forall_cons_iff in Hch as [Hp Hch].
    apply List.Forall_cons_iff in Hfree as [Hf Hfree].
    constructor; [|apply IH; assumption].
    apply truthy_strip_false_iff. unfold whitespace_only.
    rewrite List.Forall_forall in *. intros c Hc.
    destruct (Hp c Hc) as [Hs | ->]; [exact Hs|contradiction].
Qed.

End Sentences.

(** C6, as amended.  The sentences are the non-empty trimmed pieces of the
    split of the text at every period (the pieces joined by periods give
    the text back, and no piece has a period).  When there is a sentence,
    [sentenceCount] is their number and [longestSentence] is the first
    sentence with the largest number of whitespace-delimited tokens.  When
    there is none, [sentenceCount] is 1 and [longestSentence] is empty;
    this happens exactly when the text has no character other than
    whitespace and periods. *)
Theorem C6_sentences (U : UnicodeDB) (T : Textstat) (text : pystr) :
  exists m,
    calculate_text_metrics text = Ok m
    /\ (sentences_of text =
        map strip
          (List.filter (fun p => truthy (strip p)) (split [PERIOD] text))
        /\ join [PERIOD] (split [PERIOD] text) = text
        /\ Forall (fun p => ~ In PERIOD p) (split [PERIOD] text))
    /\ (sentences_of text <> [] ->
        sentenceCount m = len (sentences_of text)
        /\ first_maximal token_count (longestSentence m) (sentences_of text))
    /\ (sentences_of text = [] ->
        sentenceCount m = 1 /\ longestSentence m = [])
    /\ (sentences_of text = [] <-> blank_or_period text).
Proof.
  destruct (calculate_text_metrics_run text) as (m & E & R).
  exists m. split; [exact E|].
  rewrite (run_sentenceCount _ _ R), (run_longestSentence _ _ R).
  split; [|split; [|split]].
  - split; [reflexivity|]. split; [apply join_split; discriminate|].
    apply split_free.
  - intros Hne. split; [|apply longest_of_first_maximal; exact Hne].
    destruct (sentences_of text); [congruence|reflexivity].
  - intros ->. split; reflexivity.
  - apply sentences_of_empty_iff.
Qed.

(** A text without period that is not blank is one sentence. *)
Lemma hello_fields (U : UnicodeDB) (T : Textstat) :
  exists m,
    calculate_text_metrics (lit "hello") = Ok m
    /\ sentences_of (lit "hello") = [lit "hello"]
    /\ sentenceCount m = 1 /\ longestSentence m = lit "hello".
Proof.
  destruct (calculate_text_metrics_run (lit "hello")) as (m & E & R).
  exists m. split; [exact E|].
  rewrite (run_sentenceCount _ _ R), (run_longestSentence _ _ R).
  repeat split; vm_compute; reflexivity.
Qed.

(** C6, as stated, fails on its example: "hello" is not empty and has no
    period, yet it is a sentence, and it is the longest one. *)
Lemma C6_text_without_period :
  ~ (forall (U : UnicodeDB) (T : Textstat) (text : pystr),
        text <> [] -> ~ In PERIOD text ->
        exists m,
          calculate_text_metrics text = Ok m
          /\ sentences_of text = []
          /\ sentenceCount m = 1 /\ longestSentence m = []).
Proof.
  intros Hall.
  destruct (Hall Demo.unicode Demo.textstat (lit "hello"))
    as (m & _ & Hs & _).
  - discriminate.
  - vm_compute. intuition discriminate.
  - vm_compute in Hs. discriminate Hs.
Qed.

(* ===================================================================== *)
(** * Syllables *)
(* ===================================================================== *)

(** [totalSyllables] is the result of one call of the syllable primitive
    on the whole text.  It is the sum of the calls on the words exactly
    when the primitive is additive over the whitespace-delimited tokens of
    the text, which is a property of [textstat] and not of the engine. *)
Lemma total_syllables_of_text (U : UnicodeDB) (T : Textstat)
  (text : pystr) :
  exists m,
    calculate_text_metrics text = Ok m
    /\ totalSyllables m = syllable_count text
    /\ (totalSyllables m = sum (map syllable_count (words_of text))
        <-> syllable_count text
            = sum (map syllable_count (words_of text))).
Proof.
  destruct (calculate_text_metrics_run text) as (m & E & R).
  exists m. split; [exact E|].
  rewrite (run_totalSyllables _ _ R). split; [reflexivity|tauto].
Qed.

(* ===================================================================== *)
(** * Further invariants of the engine *)
(* ===================================================================== *)

(** The position of a label in a table of labels (the length of the
    table when it is not there). *)
Fixpoint position (s : string) (table : list string) : nat :=
  match table with
  | [] => O
  | t :: rest => if String.eqb s t then O else S (position s rest)
  end.

Section EngineInvariants.

Lemma split_ws_go_nil (cur s : pystr) :
  split_ws_go cur s = [] -> cur = [] /\ whitespace_only s.
Proof.
  revert cur. induction s as [|c s IH]; intros cur; cbn [split_ws_go].
  - destruct cur; cbn [truthy]; [split; [reflexivity|constructor]|].
    discriminate.
  - destruct (isspace c) eqn:Hc.
    + destruct cur; cbn [truthy]; [|discriminate].
      intros E. destruct (IH [] E) as [_ Hs].
      split; [reflexivity|constructor; assumption].
    + intros E. destruct (IH (c :: cur) E) as [[=] _].
Qed.

(** There is no word exactly when the text is blank. *)
Lemma words_of_nil_iff (text : pystr) :
  words_of text = [] <-> whitespace_only text.
Proof.
  split; [|apply words_of_whitespace].
  unfold words_of, split_ws. intros E.
  apply split_ws_go_nil in E as [_ Hs].
  apply strip_empty_iff.
  destruct (strip text) as [|c r] eqn:Es; [reflexivity|].
  apply strip_first in Es. apply List.Forall_cons_iff in Hs as [Hc _].
  congruence.
Qed.

Lemma first_occurrences_length (l : list pystr) :
  (length (first_occurrences l) <= length l)%nat.
Proof.
  induction l as [|x l IH]; simpl; [lia|].
  pose proof (List.filter_length_le
                (fun y => negb (PyStr.eqb x y)) (first_occurrences l)).
  lia.
Qed.

Lemma first_occurrences_nil (l : list pystr) :
  first_occurrences l = [] -> l = [].
Proof. destruct l; [reflexivity|discriminate]. Qed.

(** Two classes of words that exclude each other. *)
Lemma count_if_disjoint {A} (p q : A -> bool) (l : list A) :
  (forall x, p x = true -> q x = false) ->
  count_if p l + count_if q l <= len l.
Proof.
  intros Hpq. rewrite !count_if_len. unfold len.
  induction l as [|x l IH]; simpl; [lia|].
  destruct (p x) eqn:Hp; [rewrite (Hpq x Hp)|destruct (q x)];
    simpl length; lia.
Qed.

Lemma letters_le_len `{UnicodeDB} (text : pystr) :
  sum (map (fun c => Z.b2z (isalpha c)) text) <= len text.
Proof.
  unfold len. induction text as [|c s IH]; [reflexivity|].
  simpl map. rewrite sum_cons. simpl length.
  destruct (isalpha c); simpl Z.b2z; lia.
Qed.

End EngineInvariants.

(** The text has no word exactly when it is blank (empty or whitespace
    only); then, and only then, [wordCount] is 0, [uniqueWordCount] is 0
    and [topWords] is empty. *)
Theorem blank_text_iff_no_words (U : UnicodeDB) (T : Textstat)
  (text : pystr) :
  exists m,
    calculate_text_metrics text = Ok m
    /\ (wordCount m = 0 <-> whitespace_only text)
    /\ (uniqueWordCount m = 0 <-> whitespace_only text)
    /\ (topWords m = [] <-> whitespace_only text).
Proof.
  destruct (calculate_text_metrics_run text) as (m & E & R).
  exists m. split; [exact E|].
  rewrite <- !words_of_nil_iff.
  rewrite (run_wordCount _ _ R), (unique_word_count_table text m R),
    (top_words_of_table text m R).
  assert (frequency_table (words_of text) = [] <-> words_of text = [])
    as Htable.
  { unfold frequency_table. split.
    - intros Em. apply List.map_eq_nil, first_occurrences_nil in Em.
      apply List.map_eq_nil in Em. exact Em.
    - intros ->. reflexivity. }
  split; [|split].
  - unfold len. destruct (words_of text); simpl; split;
      try reflexivity; try discriminate; lia.
  - rewrite <- Htable. unfold len.
    destruct (frequency_table (words_of text)); simpl; split;
      try reflexivity; try discriminate; lia.
  - rewrite <- Htable.
    pose proof (Permutation_length
                  (sorted_reverse_perm snd (frequency_table (words_of text))))
      as Hlen.
    destruct (frequency_table (words_of text)) as [|e t];
      [split; reflexivity|].
    destruct (sorted (e :: t) snd true); [discriminate Hlen|].
    split; discriminate.
Qed.

(** The counts of the record are tied to one another: there are at most
    as many distinct words as words, the words of three syllables and the
    words of more than four syllables together are at most the words, the
    long words are at most the words, the letters are at most the
    characters, and there is at least one sentence and one paragraph. *)
Theorem count_relations (U : UnicodeDB) (T : Textstat) (text : pystr) :
  exists m,
    calculate_text_metrics text = Ok m
    /\ uniqueWordCount m <= wordCount m
    /\ wordsThreeSyllables m + wordsMoreThan4Syllables m <= wordCount m
    /\ wordsMoreThan12Letters m <= wordCount m
    /\ letterCount m <= len text
    /\ 1 <= sentenceCount m /\ 1 <= paragraphCount m.
Proof.
  destruct (calculate_text_metrics_run text) as (m & E & R).
  exists m. split; [exact E|].
  rewrite (unique_word_count_table text m R).
  rewrite (run_wordCount _ _ R), (run_wordsThreeSyllables _ _ R),
    (run_wordsMoreThan4Syllables _ _ R), (run_wordsMoreThan12Letters _ _ R),
    (run_letterCount _ _ R), (run_sentenceCount _ _ R),
    (run_paragraphCount _ _ R).
  repeat split.
  - unfold len, frequency_table. rewrite List.length_map.
    pose proof (first_occurrences_length (map lower (words_of text))) as Hl.
    rewrite List.length_map in Hl. lia.
  - apply count_if_disjoint. intros w Hw. lia.
  - apply count_if_bounds.
  - apply letters_le_len.
  - apply len_or_1_pos.
  - apply len_or_1_pos.
Qed.

(** Both classifiers are monotone: a higher reading-ease score never gets
    a harder band, a higher grade never gets an easier band (the tables
    list the bands from the easiest to the hardest). *)
Theorem descriptors_monotone (q1 q2 : Q) :
  (q1 <= q2)%Q ->
  (position (get_reading_ease_descriptor q2) reading_ease_labels
   <= position (get_reading_ease_descriptor q1) reading_ease_labels)%nat
  /\ (position (get_readability_descriptor q1) grade_labels
      <= position (get_readability_descriptor q2) grade_labels)%nat.
Proof.
  intros Hq. split.
  - unfold get_reading_ease_descriptor.
    repeat match goal with
           | |- context [Qge_bool ?a ?b] =>
               let E := fresh "E" in
               destruct (Qge_bool a b) eqn:E;
               [apply Qge_bool_true in E | apply Qge_bool_false in E]
           end;
      try (vm_compute; lia); exfalso; lra.
  - unfold get_readability_descriptor.
    repeat match goal with
           | |- context [Qle_bool ?a ?b] =>
               let E := fresh "E" in
               destruct (Qle_bool a b) eqn:E;
               [apply Qle_bool_iff in E | apply Qle_bool_false in E]
           end;
      try (vm_compute; lia); exfalso; lra.
Qed.

Lemma descriptors_monotone_witness :
  (position (get_reading_ease_descriptor 95) reading_ease_labels
   <= position (get_reading_ease_descriptor 42) reading_ease_labels)%nat
  /\ (position (get_readability_descriptor 42) grade_labels
      <= position (get_readability_descriptor 95) grade_labels)%nat.
Proof. apply (descriptors_monotone 42 95). discriminate. Defined.

(** A string that neither starts nor ends with whitespace. *)
Definition trimmed (s : pystr) : Prop :=
  (forall c r, s = c :: r -> isspace c = false)
  /\ (forall r c, s = r ++ [c] -> isspace c = false).

Lemma strip_In (c : char) (s : pystr) : In c (strip s) -> In c s.
Proof.
  intros Hc. destruct (strip_middle s) as (l & r & E & _).
  rewrite E. apply List.in_or_app. right.
  apply List.in_or_app. left. exact Hc.
Qed.

Lemma strip_trimmed (s : pystr) : trimmed (strip s).
Proof.
  split; [intros c r E; exact (strip_first s c r E)|].
  intros r c E. exact (strip_last s c r E).
Qed.

(** Every sentence is non-empty, trimmed and free of periods. *)
Lemma sentences_of_clean (text : pystr) :
  Forall (fun s => s <> [] /\ trimmed s /\ ~ In PERIOD s)
    (sentences_of text).
Proof.
  unfold sentences_of. apply List.Forall_map, List.Forall_forall.
  intros p Hp. apply List.filter_In in Hp as [Hp Ht].
  split; [|split].
  - destruct (strip p); [discriminate Ht|discriminate].
  - apply strip_trimmed.
  - intros Hc. apply strip_In in Hc.
    pose proof (split_free PERIOD text) as Hfree.
    rewrite List.Forall_forall in Hfree. exact (Hfree p Hp Hc).
Qed.

(** [longestSentence] is empty exactly when the text has no sentence;
    otherwise it is one of the sentences.  It never has a period and it
    neither starts nor ends with whitespace. *)
Theorem longest_sentence_clean (U : UnicodeDB) (T : Textstat)
  (text : pystr) :
  exists m,
    calculate_text_metrics text = Ok m
    /\ (longestSentence m = [] <-> sentences_of text = [])
    /\ (sentences_of text <> [] ->
        In (longestSentence m) (sentences_of text))
    /\ ~ In PERIOD (longestSentence m)
    /\ trimmed (longestSentence m).
Proof.
  destruct (calculate_text_metrics_run text) as (m & E & R).
  exists m. split; [exact E|].
  rewrite (run_longestSentence _ _ R).
  pose proof (sentences_of_clean text) as Hclean.
  destruct (sentences_of text) as [|s rest] eqn:Es.
  - cbn [longest_of]. split; [tauto|]. split; [congruence|].
    split; [simpl; tauto|]. split.
    + intros c r [=].
    + intros [|a r] c [=].
  - assert (In (longest_of (s :: rest)) (s :: rest)) as Hin.
    { destruct (longest_of_first_maximal (s :: rest)) as (pre & post & Ep & _);
        [discriminate|].
      rewrite Ep at 2. apply List.in_or_app. right. left. reflexivity. }
    rewrite List.Forall_forall in Hclean.
    destruct (Hclean _ Hin) as (Hne & Htr & Hper).
    split; [split; [contradiction|discriminate]|].
    split; [intros _; exact Hin|]. split; assumption.
Qed.

Section Padding.

Lemma split_ws_go_trailing (cur r : pystr) :
  whitespace_only r ->
  split_ws_go cur r = if truthy cur then [rev cur] else [].
Proof.
  intros Hr. destruct Hr as [|c r Hc Hr]; [reflexivity|].
  cbn [split_ws_go]. rewrite Hc.
  rewrite (split_ws_go_whitespace r Hr). reflexivity.
Qed.

Lemma split_ws_go_app_trailing (cur t r : pystr) :
  whitespace_only r -> split_ws_go cur (t ++ r) = split_ws_go cur t.
Proof.
  intros Hr. revert cur. induction t as [|c t IH]; intros cur.
  - simpl List.app. rewrite split_ws_go_trailing by exact Hr. reflexivity.
  - simpl List.app. cbn [split_ws_go]. rewrite !IH. reflexivity.
Qed.

Lemma split_ws_go_app_leading (l t : pystr) :
  whitespace_only l -> split_ws_go [] (l ++ t) = split_ws_go [] t.
Proof.
  induction 1 as [|c l Hc _ IH]; [reflexivity|].
  simpl List.app. cbn [split_ws_go truthy]. rewrite Hc. exact IH.
Qed.

(** Whitespace around a text does not change its tokens. *)
Lemma split_ws_padded (l t r : pystr) :
  whitespace_only l -> whitespace_only r ->
  split_ws (l ++ t ++ r) = split_ws t.
Proof.
  intros Hl Hr. unfold split_ws.
  rewrite split_ws_go_app_leading by exact Hl.
  apply split_ws_go_app_trailing. exact Hr.
Qed.

(** [text.strip().split()] is [text.split()]. *)
Lemma words_of_split_ws (text : pystr) : words_of text = split_ws text.
Proof.
  unfold words_of.
  destruct (strip_middle text) as (l & r & E & Hl & Hr).
  rewrite E at 2. symmetry. apply split_ws_padded; assumption.
Qed.

Lemma words_of_padded (l t r : pystr) :
  whitespace_only l -> whitespace_only r ->
  words_of (l ++ t ++ r) = words_of t.
Proof.
  intros Hl Hr. rewrite !words_of_split_ws.
  apply split_ws_padded; assumption.
Qed.

End Padding.

(** Whitespace before and after a text changes no field that is computed
    from the words: the word counts, the word classes, the times and
    [topWords] are those of the text itself. *)
Theorem padding_keeps_words (U : UnicodeDB) (T : Textstat)
  (l text r : pystr) :
  whitespace_only l -> whitespace_only r ->
  exists m m',
    calculate_text_metrics text = Ok m
    /\ calculate_text_metrics (l ++ text ++ r) = Ok m'
    /\ wordCount m' = wordCount m
    /\ uniqueWordCount m' = uniqueWordCount m
    /\ wordsThreeSyllables m' = wordsThreeSyllables m
    /\ wordsMoreThan4Syllables m' = wordsMoreThan4Syllables m
    /\ wordsMoreThan12Letters m' = wordsMoreThan12Letters m
    /\ percWordsThreeSyllables m' = percWordsThreeSyllables m
    /\ percWordsMoreThan4Syllables m' = percWordsMoreThan4Syllables m
    /\ percWordsMoreThan12Letters m' = percWordsMoreThan12Letters m
    /\ avgSpeakingTime m' = avgSpeakingTime m
    /\ avgReadingTime m' = avgReadingTime m
    /\ avgWritingTime m' = avgWritingTime m
    /\ readingTime m' = readingTime m
    /\ topWords m' = topWords m.
Proof.
  intros Hl Hr.
  destruct (calculate_text_metrics_run text) as (m & E & R).
  destruct (calculate_text_metrics_run (l ++ text ++ r)) as (m' & E' & R').
  exists m, m'. split; [exact E|]. split; [exact E'|].
  destruct R, R'.
  repeat match goal with
         | Hf : ?f m = _ |- _ => rewrite Hf; clear Hf
         | Hf : ?f m' = _ |- _ => rewrite Hf; clear Hf
         end.
  rewrite (words_of_padded l text r Hl Hr).
  repeat split; reflexivity.
Qed.

Lemma padding_keeps_words_witness :
  exists m m',
    @calculate_text_metrics Demo.unicode Demo.textstat (lit "So it goes.")
    = Ok m
    /\ @calculate_text_metrics Demo.unicode Demo.textstat
         ([32; 10]%N ++ lit "So it goes." ++ [9; 32]%N) = Ok m'
    /\ wordCount m' = wordCount m
    /\ uniqueWordCount m' = uniqueWordCount m
    /\ wordsThreeSyllables m' = wordsThreeSyllables m
    /\ wordsMoreThan4Syllables m' = wordsMoreThan4Syllables m
    /\ wordsMoreThan12Letters m' = wordsMoreThan12Letters m
    /\ percWordsThreeSyllables m' = percWordsThreeSyllables m
    /\ percWordsMoreThan4Syllables m' = percWordsMoreThan4Syllables m
    /\ percWordsMoreThan12Letters m' = percWordsMoreThan12Letters m
    /\ avgSpeakingTime m' = avgSpeakingTime m
    /\ avgReadingTime m' = avgReadingTime m
    /\ avgWritingTime m' = avgWritingTime m
    /\ readingTime m' = readingTime m
    /\ topWords m' = topWords m.
Proof.
  apply (padding_keeps_words Demo.unicode Demo.textstat
           [32; 10]%N (lit "So it goes.") [9; 32]%N);
    repeat constructor.
Defined.

(* ===================================================================== *)
(** * The CSV stores ([csv_logger.py]) *)
(* ===================================================================== *)

(** Modelling conventions, besides those of the engine.
    - A CSV file is the list of the records that [csv.writer] has written
      to it, each on a line of its own that ends with a line break:
      [Lines records].  [csv.reader] reads the records back as they were
      written.  A path that does not exist is [Missing].  A file with any
      other content (a last line without a line break, bytes that are not
      UTF-8) is [Unparsed]: the model does not say what the functions do
      with it, their outcome is [Unknown].
    - Reading fails on a field of more than 131072 characters, the field
      size limit of the [csv] module: the reader raises [_csv.Error] when
      it gets to the record that has the field, not before.
    - Writing fails on a string with a surrogate code point, which has no
      encoding in UTF-8: [writerow] raises [UnicodeEncodeError] and writes
      nothing of the record; the header of a new file has been written by
      then, and stays.
    - Opening a file does not fail.
    - The clock and the salt of the password hash are inputs. *)

Module CsvLogger.

(** The exceptions the stores and the routes can let escape; [CsvError]
    is [_csv.Error], [Uncaught] an exception of the built-in classes the
    engine uses. *)
Inductive error : Type :=
| AttributeError
| TypeError
| UnicodeEncodeError
| CsvError
| Uncaught (e : exn).

(** What a call does: it returns, it raises, or the model does not say. *)
Inductive outcome (A : Type) : Type :=
| Done (a : A)
| Fail (e : error)
| Unknown.
Arguments Done {A} a.
Arguments Fail {A} e.
Arguments Unknown {A}.

Definition record := list pystr.

Inductive csv_file : Type :=
| Missing
| Lines (records : list record)
| Unparsed.

Definition USERS_HEADERS : record :=
  [lit "Timestamp"; lit "Email"; lit "Password"].

Definition PROJECT_HEADERS : record :=
  [lit "Timestamp"; lit "Project Name"; lit "User Email"].

Definition EMAIL : pystr := lit "Email".
Definition PASSWORD : pystr := lit "Password".
Definition USER_EMAIL : pystr := lit "User Email".
Definition PROJECT_NAME : pystr := lit "Project Name".
Definition DEFAULT_PROJECT : pystr := lit "Default Project".

(** [csv.field_size_limit()] *)
Definition FIELD_LIMIT : Z := 131072.

(** The reader accepts the record: no field is longer than the limit. *)
Definition readable (r : record) : bool :=
  forallb (fun field => len field <=? FIELD_LIMIT) r.

(** The string has an encoding in UTF-8: no code point is a surrogate. *)
Definition encodable (s : pystr) : bool :=
  forallb (fun c => negb (in_range 55296 57343 c)) s.

Definition writable (r : record) : bool := forallb encodable r.

(** The file once it has been opened for appending and the header has
    been written if the path did not exist. *)
Definition opened (headers : record) (file : csv_file) : csv_file :=
  match file with
  | Missing => Lines [headers]
  | _ => file
  end.

(** The pattern shared by the three writers:
    [file_exists = os.path.exists(path)], then, with the file opened for
    appending, [writer.writerow(headers)] unless [file_exists], and
    [writer.writerow(row)].  The headers are ASCII literals.  The result
    is the file afterwards and what the call did. *)
Definition append_row (headers : record) (file : csv_file) (row : record)
  : csv_file * outcome unit :=
  match opened headers file with
  | Lines records =>
      if writable row then (Lines (records ++ [row]), Done tt)
      else (Lines records, Fail UnicodeEncodeError)
  | other => (other, Unknown)
  end.

(** A value of a row of [csv.DictReader]: a string, or [None] for a field
    the record is too short to have. *)
Definition cell := option pystr.

(** [dict(zip(fieldnames, row))], then [d[key] = None] for the field names
    beyond the record.  A record longer than the field names also gets the
    key [None], which no lookup below can name. *)
Definition to_dict (fieldnames row : record) : dict cell :=
  let zipped :=
    fold_left (fun d kv => dict_set d (fst kv) (Some (snd kv)))
      (combine fieldnames row) [] in
  fold_left (fun d key => dict_set d key None)
    (skipn (length row) fieldnames) zipped.

Definition is_blank_record (r : record) : bool :=
  match r with [] => true | _ :: _ => false end.

(** The steps of the iteration over [csv.DictReader] after the field
    names: a row for each record, an empty record being skipped; a record
    that cannot be read ends the iteration with [_csv.Error]. *)
Fixpoint read_rows (fieldnames : record) (records : list record)
  : list (outcome (dict cell)) :=
  match records with
  | [] => []
  | r :: rest =>
      if negb (readable r) then [Fail CsvError]
      else if is_blank_record r then read_rows fieldnames rest
      else Done (to_dict fieldnames r) :: read_rows fieldnames rest
  end.

(** The iteration over [csv.DictReader]: the first record is the field
    names, read when the loop asks for the first row. *)
Definition dict_reader (records : list record)
  : list (outcome (dict cell)) :=
  match records with
  | [] => []
  | fieldnames :: rest =>
      if readable fieldnames then read_rows fieldnames rest
      else [Fail CsvError]
  end.

(** The iteration over the rows of a file that may not exist. *)
Definition rows_of (file : csv_file) : list (outcome (dict cell)) :=
  match file with
  | Missing => []
  | Lines records => dict_reader records
  | Unparsed => [Unknown]
  end.

End CsvLogger.

Import CsvLogger.

(** The two functions imported from [werkzeug.security];
    [generate_password_hash] draws a salt.  Both can raise:
    [check_password_hash] does on a stored hash of a method it does not
    know, both do on a password that has no encoding in UTF-8. *)
Class Werkzeug := {
  generate_password_hash : pystr -> pystr -> outcome pystr;
  check_password_hash : pystr -> pystr -> outcome bool
}.

Section Stores.

Context `{UnicodeDB} `{Werkzeug}.

(** [row.get(key, default).lower() == other.lower()] *)
Definition field_matches (row : dict cell) (key other : pystr)
  : outcome bool :=
  match dict_get row key (Some []) with
  | None => Fail AttributeError
  | Some value => Done (PyStr.eqb (lower value) (lower other))
  end.

(** The loop of [register_user]: [True] when it returns [False] from
    inside the loop. *)
Fixpoint email_taken (rows : list (outcome (dict cell))) (email : pystr)
  : outcome bool :=
  match rows with
  | [] => Done false
  | Done row :: rest =>
      match field_matches row EMAIL email with
      | Done true => Done true
      | Done false => email_taken rest email
      | Fail e => Fail e
      | Unknown => Unknown
      end
  | Fail e :: _ => Fail e
  | Unknown :: _ => Unknown
  end.

(** [now] is [datetime.now().strftime("%Y-%m-%d %H:%M:%S")], [salt] the
    salt drawn by [generate_password_hash].  The result is the users file
    afterwards and what the call did. *)
Definition register_user (now salt : pystr) (users : csv_file)
  (email password : pystr) : csv_file * outcome bool :=
  match email_taken (rows_of users) email with
  | Done true => (users, Done false)
  | Done false =>
      match generate_password_hash salt password with
      | Done hashed =>
          match append_row USERS_HEADERS users [now; email; hashed] with
          | (users', Done _) => (users', Done true)
          | (users', Fail e) => (users', Fail e)
          | (users', Unknown) => (users', Unknown)
          end
      | Fail e => (users, Fail e)
      | Unknown => (users, Unknown)
      end
  | Fail e => (users, Fail e)
  | Unknown => (users, Unknown)
  end.

(** [check_password_hash] reads its first argument as a string: [None]
    raises [AttributeError]. *)
Fixpoint validate_rows (rows : list (outcome (dict cell)))
  (email password : pystr) : outcome bool :=
  match rows with
  | [] => Done false
  | Done row :: rest =>
      match field_matches row EMAIL email with
      | Done true =>
          match dict_get row PASSWORD (Some []) with
          | None => Fail AttributeError
          | Some stored_hash =>
              match check_password_hash stored_hash password with
              | Done true => Done true
              | Done false => validate_rows rest email password
              | Fail e => Fail e
              | Unknown => Unknown
              end
          end
      | Done false => validate_rows rest email password
      | Fail e => Fail e
      | Unknown => Unknown
      end
  | Fail e :: _ => Fail e
  | Unknown :: _ => Unknown
  end.

Definition validate_user (users : csv_file) (email password : pystr)
  : outcome bool :=
  validate_rows (rows_of users) email password.

(** The result is the projects file afterwards and what the call did. *)
Definition log_project (now : pystr) (projects : csv_file)
  (project_name user_email : pystr) : csv_file * outcome unit :=
  append_row PROJECT_HEADERS projects [now; project_name; user_email].

End Stores.

(* ===================================================================== *)
(** * The user store *)
(* ===================================================================== *)

(** A string that can be written and read back: it has an encoding in
    UTF-8 and is not longer than the field size limit. *)
Definition plain (s : pystr) : bool :=
  encodable s && (len s <=? FIELD_LIMIT).

(** A record of [n] fields that the reader accepts. *)
Definition record_of (n : nat) (r : record) : Prop :=
  length r = n /\ readable r = true.

(** A users file as [register_user] leaves it: it does not exist, or it
    has the header and records of three fields, none longer than the
    field size limit. *)
Definition users_ok (users : csv_file) : Prop :=
  match users with
  | Missing => True
  | Lines records =>
      exists rows,
        records = USERS_HEADERS :: rows /\ Forall (record_of 3) rows
  | Unparsed => False
  end.

(** The e-mail and the stored hash of a record. *)
Definition account_of (r : record) : pystr * pystr :=
  (nth 1 r [], nth 2 r []).

Definition accounts (users : csv_file) : list (pystr * pystr) :=
  match users with
  | Lines (_ :: rows) => map account_of rows
  | _ => []
  end.

(** Two e-mails are the same up to case. *)
Definition same_email `{UnicodeDB} (a b : pystr) : Prop := lower a = lower b.

Definition registered `{UnicodeDB} (users : csv_file) (email : pystr)
  : Prop :=
  exists a, In a (accounts users) /\ same_email (fst a) email.

(** The e-mails on file are pairwise different up to case. *)
Definition distinct_emails `{UnicodeDB} (users : csv_file) : Prop :=
  List.NoDup (map (fun a => lower (fst a)) (accounts users)).

(** [check_password_hash] answers for the password on every account of
    the e-mail: no stored hash of the e-mail makes it raise. *)
Definition checks `{UnicodeDB} `{Werkzeug} (users : csv_file)
  (email password : pystr) : Prop :=
  forall a, In a (accounts users) -> same_email (fst a) email ->
            exists b, check_password_hash (snd a) password = Done b.

(** What [validate_user] computes on the accounts of a well-formed file:
    the first account of the e-mail whose hash does not answer [False]
    decides. *)
Fixpoint check_accounts `{UnicodeDB} `{Werkzeug}
  (accs : list (pystr * pystr)) (email password : pystr) : outcome bool :=
  match accs with
  | [] => Done false
  | a :: rest =>
      if PyStr.eqb (lower (fst a)) (lower email)
      then match check_password_hash (snd a) password with
           | Done true => Done true
           | Done false => check_accounts rest email password
           | Fail e => Fail e
           | Unknown => Unknown
           end
      else check_accounts rest email password
  end.

Section UserStore.

Context `{UnicodeDB} `{Werkzeug}.

Lemma to_dict_user (t e h : pystr) :
  to_dict USERS_HEADERS [t; e; h]
  = [(lit "Timestamp", Some t); (EMAIL, Some e); (PASSWORD, Some h)].
Proof. reflexivity. Qed.

Lemma record_of_three (r : record) :
  record_of 3 r -> exists t e h, r = [t; e; h].
Proof.
  intros [Hlen _]. destruct r as [|t [|e [|h [|x r]]]]; try discriminate.
  exists t, e, h. reflexivity.
Qed.

Lemma plain_encodable (s : pystr) : plain s = true -> encodable s = true.
Proof. unfold plain. intros E. apply Bool.andb_true_iff in E. tauto. Qed.

Lemma plain_record (a b c : pystr) :
  plain a = true -> plain b = true -> plain c = true ->
  writable [a; b; c] = true /\ record_of 3 [a; b; c].
Proof.
  unfold plain, record_of, writable, readable. cbn [forallb length].
  intros Ha Hb Hc.
  apply Bool.andb_true_iff in Ha as [-> ->].
  apply Bool.andb_true_iff in Hb as [-> ->].
  apply Bool.andb_true_iff in Hc as [-> ->].
  repeat split.
Qed.

(** The rows of records that are not blank and can be read. *)
Lemma read_rows_all (fieldnames : record) (rows : list record) (n : nat) :
  Forall (record_of (S n)) rows ->
  read_rows fieldnames rows = map (fun r => Done (to_dict fieldnames r)) rows.
Proof.
  induction 1 as [|r rows [Hlen Hr] _ IH]; [reflexivity|].
  cbn [read_rows map]. rewrite Hr. cbn [negb].
  destruct r; [discriminate Hlen|]. cbn [is_blank_record].
  rewrite IH. reflexivity.
Qed.

Lemma read_rows_app (fieldnames : record) (good rest : list record)
  (n : nat) :
  Forall (record_of (S n)) good ->
  read_rows fieldnames (good ++ rest)
  = map (fun r => Done (to_dict fieldnames r)) good
    ++ read_rows fieldnames rest.
Proof.
  induction 1 as [|r rows [Hlen Hr] _ IH]; [reflexivity|].
  cbn [read_rows map List.app]. rewrite Hr. cbn [negb].
  destruct r; [discriminate Hlen|]. cbn [is_blank_record].
  rewrite IH. reflexivity.
Qed.

Lemma readable_users_headers : readable USERS_HEADERS = true.
Proof. reflexivity. Qed.

Lemma rows_of_users (rows : list record) :
  Forall (record_of 3) rows ->
  rows_of (Lines (USERS_HEADERS :: rows))
  = map (fun r => Done (to_dict USERS_HEADERS r)) rows.
Proof.
  intros Hrows. cbn [rows_of dict_reader]. rewrite readable_users_headers.
  apply (read_rows_all _ _ 2 Hrows).
Qed.

(** The loop of [register_user] on a well-formed file. *)
Lemma email_taken_ok (rows : list record) (email : pystr) :
  Forall (record_of 3) rows ->
  email_taken (map (fun r => Done (to_dict USERS_HEADERS r)) rows) email
  = Done (existsb (fun a => PyStr.eqb (lower (fst a)) (lower email))
            (map account_of rows)).
Proof.
  induction 1 as [|r rows Hr _ IH]; [reflexivity|].
  destruct (record_of_three r Hr) as (t & e & h & ->).
  cbn [map email_taken existsb]. rewrite to_dict_user.
  unfold field_matches. change (dict_get _ EMAIL (Some [])) with (Some e).
  cbn [account_of nth fst].
  destruct (PyStr.eqb (lower e) (lower email)); [reflexivity|exact IH].
Qed.

(** The loop of [validate_user] on a well-formed file. *)
Lemma validate_rows_ok (rows : list record) (email password : pystr) :
  Forall (record_of 3) rows ->
  validate_rows (map (fun r => Done (to_dict USERS_HEADERS r)) rows)
    email password
  = check_accounts (map account_of rows) email password.
Proof.
  induction 1 as [|r rows Hr _ IH]; [reflexivity|].
  destruct (record_of_three r Hr) as (t & e & h & ->).
  cbn [map validate_rows check_accounts]. rewrite to_dict_user.
  unfold field_matches. change (dict_get _ EMAIL (Some [])) with (Some e).
  change (dict_get _ PASSWORD (Some [])) with (Some h).
  cbn [account_of nth fst snd].
  destruct (PyStr.eqb (lower e) (lower email)); [|exact IH].
  destruct (check_password_hash h password) as [[|]| |];
    try reflexivity; exact IH.
Qed.

Lemma registered_existsb (users : csv_file) (email : pystr) :
  existsb (fun a => PyStr.eqb (lower (fst a)) (lower email)) (accounts users)
  = true <-> registered users email.
Proof.
  unfold registered, same_email. rewrite List.existsb_exists.
  split; intros (a & Ha & E); exists a; (split; [exact Ha|]);
    apply eqb_eq; exact E.
Qed.

(** With hashes that answer, the accounts are checked one after the
    other until one is accepted. *)
Lemma check_accounts_done (accs : list (pystr * pystr))
  (email password : pystr) :
  (forall a, In a accs -> same_email (fst a) email ->
             exists b, check_password_hash (snd a) password = Done b) ->
  exists b,
    check_accounts accs email password = Done b
    /\ (b = true <->
        exists a, In a accs /\ same_email (fst a) email
                  /\ check_password_hash (snd a) password = Done true).
Proof.
  induction accs as [|a accs IH]; intros Hc.
  - exists false. split; [reflexivity|].
    split; [discriminate|intros (a & [] & _)].
  - destruct IH as (b & Eb & Hb).
    { intros a' Ha'. apply Hc. right. exact Ha'. }
    cbn [check_accounts].
    destruct (PyStr.eqb (lower (fst a)) (lower email)) eqn:Ea.
    + apply eqb_eq in Ea.
      destruct (Hc a (or_introl eq_refl) Ea) as (c & Ec). rewrite Ec.
      destruct c.
      * exists true. split; [reflexivity|]. split; [|reflexivity].
        intros _. exists a. split; [left; reflexivity|tauto].
      * exists b. split; [exact Eb|]. rewrite Hb.
        split; intros (a' & Ha' & Hs & Hk).
        -- exists a'. split; [right; exact Ha'|tauto].
        -- destruct Ha' as [<-|Ha']; [congruence|].
           exists a'. tauto.
    + apply eqb_neq in Ea. exists b. split; [exact Eb|]. rewrite Hb.
      split; intros (a' & Ha' & Hs & Hk).
      * exists a'. split; [right; exact Ha'|tauto].
      * destruct Ha' as [<-|Ha']; [contradiction|].
        exists a'. tauto.
Qed.

(** Without an account of the e-mail no hash is checked. *)
Lemma check_accounts_unknown_email (accs : list (pystr * pystr))
  (email password : pystr) :
  existsb (fun a => PyStr.eqb (lower (fst a)) (lower email)) accs = false ->
  check_accounts accs email password = Done false.
Proof.
  induction accs as [|a accs IH]; [reflexivity|].
  cbn [existsb check_accounts]. intros E.
  apply Bool.orb_false_iff in E as [-> E]. exact (IH E).
Qed.

Lemma check_accounts_app (accs more : list (pystr * pystr))
  (email password : pystr) :
  check_accounts (accs ++ more) email password
  = match check_accounts accs email password with
    | Done false => check_accounts more email password
    | other => other
    end.
Proof.
  induction accs as [|a accs IH]; cbn [List.app check_accounts].
  - destruct (check_accounts more email password) as [[|]| |]; reflexivity.
  - destruct (PyStr.eqb (lower (fst a)) (lower email)); [|exact IH].
    destruct (check_password_hash (snd a) password) as [[|]| |];
      try reflexivity; exact IH.
Qed.

Lemma users_ok_append (users : csv_file) (t e h : pystr) :
  users_ok users -> writable [t; e; h] = true -> record_of 3 [t; e; h] ->
  exists users',
    append_row USERS_HEADERS users [t; e; h] = (users', Done tt)
    /\ users_ok users'
    /\ accounts users' = accounts users ++ [(e, h)].
Proof.
  intros Hok Hw Hr. unfold append_row.
  destruct users as [|records|]; cbn [opened]; [| |destruct Hok];
    rewrite Hw; eexists; (split; [reflexivity|]).
  - split; [|reflexivity]. exists [[t; e; h]]. split; [reflexivity|].
    constructor; [exact Hr|constructor].
  - destruct Hok as (rows & -> & Hrows). split.
    + exists (rows ++ [[t; e; h]]). split; [reflexivity|].
      apply List.Forall_app. split; [exact Hrows|].
      constructor; [exact Hr|constructor].
    + cbn [accounts List.app]. rewrite List.map_app. reflexivity.
Qed.

(** A record that cannot be encoded is not written; a file that did not
    exist is left with its header. *)
Lemma users_ok_refused (users : csv_file) (row : record) :
  users_ok users -> writable row = false ->
  append_row USERS_HEADERS users row
  = (opened USERS_HEADERS users, Fail UnicodeEncodeError)
  /\ users_ok (opened USERS_HEADERS users)
  /\ accounts (opened USERS_HEADERS users) = accounts users.
Proof.
  intros Hok Hw. unfold append_row.
  destruct users as [|records|]; cbn [opened]; [| |destruct Hok];
    rewrite Hw; (split; [reflexivity|]).
  - split; [|reflexivity]. exists []. split; [reflexivity|constructor].
  - split; [exact Hok|reflexivity].
Qed.

End UserStore.

(** A concrete instance of werkzeug, to run the stores: the hash is the
    method [demo] and a digest of one character, and a stored hash of
    another method makes the check raise [ValueError]; a password that
    cannot be encoded makes both functions raise. *)
Module DemoHash.

Definition METHOD : pystr := lit "demo$".

Definition digest (password : pystr) : pystr :=
  [(fold_left (fun a c => a * 31 + c) password 7 mod 55296)%N].

#[export] Instance werkzeug : Werkzeug :=
  {| generate_password_hash :=
       fun _ password =>
         if encodable password then Done (METHOD ++ digest password)
         else Fail UnicodeEncodeError;
     check_password_hash :=
       fun stored password =>
         if negb (encodable password) then Fail UnicodeEncodeError
         else if starts_with METHOD stored
         then Done (PyStr.eqb stored (METHOD ++ digest password))
         else Fail (Uncaught ValueError) |}.

(** Ann has registered with the password [secret]. *)
Definition ann_only : csv_file :=
  Lines [USERS_HEADERS; [lit "2024-01-01 10:00:00"; lit "Ann@x.org";
                         METHOD ++ digest (lit "secret")]].

(** A users file with a hash that werkzeug did not make. *)
Definition foreign_hash : csv_file :=
  Lines [USERS_HEADERS; [lit "2024-01-01 10:00:00"; lit "Ann@x.org";
                         lit "x$y$z"]].

(** An e-mail of 131073 characters. *)
Definition long_email : pystr := repeat 97%N (N.to_nat 131073).

(** An e-mail with a surrogate code point. *)
Definition surrogate_email : pystr := lit "ann@x.org" ++ [55296%N].

End DemoHash.

Lemma demo_digest_plain (password : pystr) :
  plain (DemoHash.METHOD ++ DemoHash.digest password) = true.
Proof.
  unfold DemoHash.digest.
  set (d := (fold_left (fun a c => a * 31 + c) password 7 mod 55296)%N).
  assert (d < 55296)%N as Hd by (apply N.mod_lt; discriminate).
  unfold plain, encodable. cbn [DemoHash.METHOD lit].
  apply Bool.andb_true_iff. split; [|reflexivity].
  rewrite List.forallb_app. apply Bool.andb_true_iff.
  split; [reflexivity|]. cbn [forallb]. unfold in_range.
  apply N.leb_gt in Hd. rewrite Hd. reflexivity.
Qed.

Lemma demo_users_ok : users_ok DemoHash.ann_only.
Proof.
  eexists. split; [reflexivity|].
  constructor; [split; reflexivity|constructor].
Qed.

Lemma demo_not_registered (email : pystr) :
  existsb
    (fun a => PyStr.eqb (@lower Demo.unicode (fst a))
                (@lower Demo.unicode email))
    (accounts DemoHash.ann_only) = false ->
  ~ @registered Demo.unicode DemoHash.ann_only email.
Proof.
  intros E Hr. apply registered_existsb in Hr. congruence.
Qed.

Section UserStoreTheorems.

Context `{UnicodeDB} `{Werkzeug}.

Lemma email_taken_cases (users : csv_file) (email : pystr) :
  users_ok users ->
  email_taken (rows_of users) email
  = Done (existsb (fun a => PyStr.eqb (lower (fst a)) (lower email))
            (accounts users)).
Proof.
  intros Hok. destruct users as [|records|]; [reflexivity| |destruct Hok].
  destruct Hok as (rows & -> & Hrows).
  rewrite (rows_of_users rows Hrows). apply email_taken_ok. exact Hrows.
Qed.

Lemma validate_user_cases (users : csv_file) (email password : pystr) :
  users_ok users ->
  validate_user users email password
  = check_accounts (accounts users) email password.
Proof.
  intros Hok. unfold validate_user.
  destruct users as [|records|]; [reflexivity| |destruct Hok].
  destruct Hok as (rows & -> & Hrows).
  rewrite (rows_of_users rows Hrows). apply validate_rows_ok. exact Hrows.
Qed.

(** The two cases of [register_user] on a well-formed file, for a record
    that can be written and read. *)
Lemma register_user_known_or_new (now salt : pystr) (users : csv_file)
  (email password hashed : pystr) :
  users_ok users ->
  generate_password_hash salt password = Done hashed ->
  plain now = true -> plain email = true -> plain hashed = true ->
  (registered users email
   /\ register_user now salt users email password = (users, Done false))
  \/ (~ registered users email
      /\ exists users',
          register_user now salt users email password = (users', Done true)
          /\ users_ok users'
          /\ accounts users' = accounts users ++ [(email, hashed)]).
Proof.
  intros Hok Hgen Hnow Hemail Hhashed. unfold register_user.
  rewrite (email_taken_cases users email Hok).
  destruct (existsb _ _) eqn:E.
  - left. split; [apply registered_existsb; exact E|reflexivity].
  - right. split.
    + intros Hr. apply registered_existsb in Hr. congruence.
    + rewrite Hgen.
      destruct (plain_record now email hashed Hnow Hemail Hhashed)
        as [Hw Hr].
      destruct (users_ok_append users now email hashed Hok Hw Hr)
        as (users' & -> & Hok' & Hacc).
      exists users'. repeat split; assumption.
Qed.

End UserStoreTheorems.

(** On a well-formed users file, with a timestamp, an e-mail and a hash
    that can be written and read back (no surrogate code point, at most
    131072 characters), [register_user] raises nothing.  When the e-mail
    is on file up to case it returns [False] and leaves the file as it is;
    otherwise it returns [True], the file stays well formed and has one
    more account, with the e-mail as given and the hash of the
    password. *)
Theorem register_user_outcome (U : UnicodeDB) (W : Werkzeug)
  (now salt : pystr) (users : csv_file) (email password hashed : pystr) :
  users_ok users ->
  generate_password_hash salt password = Done hashed ->
  plain now = true -> plain email = true -> plain hashed = true ->
  (registered users email
   /\ register_user now salt users email password = (users, Done false))
  \/ (~ registered users email
      /\ exists users',
          register_user now salt users email password = (users', Done true)
          /\ users_ok users'
          /\ accounts users' = accounts users ++ [(email, hashed)]).
Proof.
  intros Hok Hgen Hnow Hemail Hhashed. unfold registered, register_user.
  rewrite (email_taken_cases users email Hok).
  destruct (existsb _ _) eqn:E.
  - left. split; [|reflexivity].
    apply List.existsb_exists in E as (a & Ha & Ea).
    exists a. split; [exact Ha|apply eqb_eq; exact Ea].
  - right. split.
    + intros (a & Ha & Ea).
      assert (existsb (fun a => PyStr.eqb (lower (fst a)) (lower email))
                (accounts users) = true) as Et; [|congruence].
      apply List.existsb_exists. exists a.
      split; [exact Ha|apply eqb_eq; exact Ea].
    + rewrite Hgen.
      destruct (plain_record now email hashed Hnow Hemail Hhashed)
        as [Hw Hr].
      destruct (users_ok_append users now email hashed Hok Hw Hr)
        as (users' & -> & Hok' & Hacc).
      exists users'. repeat split; assumption.
Qed.

Lemma register_user_outcome_witness :
  (@registered Demo.unicode DemoHash.ann_only (lit "bob@x.org")
   /\ @register_user Demo.unicode DemoHash.werkzeug (lit "now") (lit "s2")
        DemoHash.ann_only (lit "bob@x.org") (lit "pw")
      = (DemoHash.ann_only, Done false))
  \/ (~ @registered Demo.unicode DemoHash.ann_only (lit "bob@x.org")
      /\ exists users',
          @register_user Demo.unicode DemoHash.werkzeug (lit "now")
            (lit "s2") DemoHash.ann_only (lit "bob@x.org") (lit "pw")
          = (users', Done true)
          /\ users_ok users'
          /\ accounts users'
             = accounts DemoHash.ann_only
               ++ [(lit "bob@x.org",
                    DemoHash.METHOD ++ DemoHash.digest (lit "pw"))]).
Proof.
  apply (register_user_outcome Demo.unicode DemoHash.werkzeug);
    [exact demo_users_ok|reflexivity..].
Defined.

(** On a well-formed users file, and when [check_password_hash] answers
    for the password on the stored hashes of the e-mail, [validate_user]
    raises nothing, and it returns [True] exactly when some account has
    the e-mail up to case and a hash that checks against the password;
    with no file it returns [False]. *)
Theorem validate_user_iff (U : UnicodeDB) (W : Werkzeug)
  (users : csv_file) (email password : pystr) :
  users_ok users -> checks users email password ->
  exists b,
    validate_user users email password = Done b
    /\ (b = true <->
        exists a,
          In a (accounts users) /\ same_email (fst a) email
          /\ check_password_hash (snd a) password = Done true)
    /\ (users = Missing -> b = false).
Proof.
  intros Hok Hc. rewrite (validate_user_cases users email password Hok).
  destruct (check_accounts_done (accounts users) email password Hc)
    as (b & Eb & Hb).
  exists b. split; [exact Eb|]. split; [exact Hb|].
  intros ->. cbn in Eb. congruence.
Qed.

Lemma validate_user_iff_witness :
  exists b,
    @validate_user Demo.unicode DemoHash.werkzeug DemoHash.ann_only
      (lit "ANN@X.ORG") (lit "secret") = Done b
    /\ (b = true <->
        exists a,
          In a (accounts DemoHash.ann_only)
          /\ @same_email Demo.unicode (fst a) (lit "ANN@X.ORG")
          /\ @check_password_hash DemoHash.werkzeug (snd a) (lit "secret")
             = Done true)
    /\ (DemoHash.ann_only = Missing -> b = false).
Proof.
  apply (validate_user_iff Demo.unicode DemoHash.werkzeug).
  - exact demo_users_ok.
  - intros a [<-|[]] _. eexists. reflexivity.
Defined.

(** Registering and then validating: when the hash of the password checks
    against it, and the timestamp, the e-mail and the hash can be written
    and read back, the credentials that [register_user] has just accepted
    are accepted by [validate_user], also with the e-mail in another
    case. *)
Theorem register_then_validate (U : UnicodeDB) (W : Werkzeug)
  (now salt : pystr) (users : csv_file)
  (email email' password hashed : pystr) :
  users_ok users ->
  generate_password_hash salt password = Done hashed ->
  check_password_hash hashed password = Done true ->
  plain now = true -> plain email = true -> plain hashed = true ->
  ~ registered users email -> same_email email email' ->
  exists users',
    register_user now salt users email password = (users', Done true)
    /\ validate_user users' email' password = Done true.
Proof.
  intros Hok Hgen Hcheck Hnow Hemail Hhashed Hnew Hsame.
  destruct (register_user_known_or_new now salt users email password hashed
              Hok Hgen Hnow Hemail Hhashed)
    as [[Hr _]|(_ & users' & E & Hok' & Hacc)]; [contradiction|].
  exists users'. split; [exact E|].
  rewrite (validate_user_cases users' email' password Hok'), Hacc.
  rewrite check_accounts_app, check_accounts_unknown_email.
  - cbn [check_accounts fst snd]. unfold same_email in Hsame.
    rewrite Hsame, eqb_refl, Hcheck. reflexivity.
  - destruct (existsb _ _) eqn:Ex; [|reflexivity].
    exfalso. apply Hnew. apply registered_existsb.
    unfold same_email in Hsame. rewrite Hsame. exact Ex.
Qed.

Lemma register_then_validate_witness :
  exists users',
    @register_user Demo.unicode DemoHash.werkzeug (lit "now") (lit "s2")
      DemoHash.ann_only (lit "Bob@x.org") (lit "pw") = (users', Done true)
    /\ @validate_user Demo.unicode DemoHash.werkzeug users' (lit "bob@X.org")
         (lit "pw") = Done true.
Proof.
  apply (register_then_validate Demo.unicode DemoHash.werkzeug _ _ _ _ _ _
           (DemoHash.METHOD ++ DemoHash.digest (lit "pw")));
    [exact demo_users_ok|reflexivity..| |reflexivity].
  apply demo_not_registered. reflexivity.
Defined.

(** [register_user] keeps the e-mails on file pairwise different up to
    case: whether it accepts or refuses a registration that can be written
    and read back, a well-formed file without two accounts of the same
    e-mail stays one. *)
Theorem register_user_keeps_emails_distinct (U : UnicodeDB) (W : Werkzeug)
  (now salt : pystr) (users : csv_file) (email password hashed : pystr) :
  users_ok users -> distinct_emails users ->
  generate_password_hash salt password = Done hashed ->
  plain now = true -> plain email = true -> plain hashed = true ->
  exists users' b,
    register_user now salt users email password = (users', Done b)
    /\ (b = true <-> ~ registered users email)
    /\ users_ok users' /\ distinct_emails users'.
Proof.
  intros Hok Hd Hgen Hnow Hemail Hhashed.
  destruct (register_user_known_or_new now salt users email password hashed
              Hok Hgen Hnow Hemail Hhashed)
    as [[Hr E]|(Hnew & users' & E & Hok' & Hacc)].
  - exists users, false. split; [exact E|].
    split; [split; [discriminate|contradiction]|]. tauto.
  - exists users', true. split; [exact E|]. split; [tauto|].
    split; [exact Hok'|].
    unfold distinct_emails in *. rewrite Hacc, List.map_app. simpl.
    apply List.NoDup_app; [exact Hd|repeat constructor; simpl; tauto|].
    intros k Hk [<-|[]].
    apply List.in_map_iff in Hk as (a & Ea & Ha).
    apply Hnew. exists a. split; [exact Ha|exact Ea].
Qed.

Lemma register_user_keeps_emails_distinct_witness :
  exists users' b,
    @register_user Demo.unicode DemoHash.werkzeug (lit "now") (lit "s2")
      DemoHash.ann_only (lit "bob@x.org") (lit "pw") = (users', Done b)
    /\ (b = true
        <-> ~ @registered Demo.unicode DemoHash.ann_only (lit "bob@x.org"))
    /\ users_ok users' /\ @distinct_emails Demo.unicode users'.
Proof.
  apply (register_user_keeps_emails_distinct Demo.unicode DemoHash.werkzeug
           _ _ _ _ _ (DemoHash.METHOD ++ DemoHash.digest (lit "pw")));
    [exact demo_users_ok| |reflexivity..].
  repeat constructor. simpl. tauto.
Defined.

(** Registering one e-mail, with a record that can be written and read
    back, does not change what [validate_user] does for another one. *)
Theorem register_user_frame (U : UnicodeDB) (W : Werkzeug)
  (now salt : pystr) (users : csv_file)
  (email password hashed other other_password : pystr) :
  users_ok users -> ~ same_email email other ->
  generate_password_hash salt password = Done hashed ->
  plain now = true -> plain email = true -> plain hashed = true ->
  exists users' b,
    register_user now salt users email password = (users', Done b)
    /\ validate_user users' other other_password
       = validate_user users other other_password.
Proof.
  intros Hok Hne Hgen Hnow Hemail Hhashed.
  destruct (register_user_known_or_new now salt users email password hashed
              Hok Hgen Hnow Hemail Hhashed)
    as [[_ E]|(_ & users' & E & Hok' & Hacc)].
  - exists users, false. tauto.
  - exists users', true. split; [exact E|].
    rewrite (validate_user_cases users' _ _ Hok'),
      (validate_user_cases users _ _ Hok), Hacc.
    rewrite check_accounts_app. cbn [check_accounts fst].
    apply eqb_neq in Hne. rewrite Hne.
    destruct (check_accounts (accounts users) other other_password)
      as [[|]| |]; reflexivity.
Qed.

Lemma register_user_frame_witness :
  exists users' b,
    @register_user Demo.unicode DemoHash.werkzeug (lit "now") (lit "s2")
      DemoHash.ann_only (lit "bob@x.org") (lit "pw") = (users', Done b)
    /\ @validate_user Demo.unicode DemoHash.werkzeug users' (lit "ann@x.org")
         (lit "secret")
       = @validate_user Demo.unicode DemoHash.werkzeug DemoHash.ann_only
           (lit "ann@x.org") (lit "secret").
Proof.
  apply (register_user_frame Demo.unicode DemoHash.werkzeug
           _ _ _ _ _ (DemoHash.METHOD ++ DemoHash.digest (lit "pw")));
    [exact demo_users_ok|discriminate|reflexivity..].
Defined.

Section ShortRecord.

Context `{UnicodeDB} `{Werkzeug}.

Lemma email_taken_app (rows rest : list (outcome (dict cell)))
  (email : pystr) :
  email_taken rows email = Done false ->
  email_taken (rows ++ rest) email = email_taken rest email.
Proof.
  induction rows as [|[row|e|] rows IH]; try discriminate; [reflexivity|].
  cbn [List.app email_taken].
  destruct (field_matches row EMAIL email) as [[|]| |]; try discriminate.
  exact IH.
Qed.

Lemma validate_rows_app (rows rest : list (outcome (dict cell)))
  (email password : pystr) :
  email_taken rows email = Done false ->
  validate_rows (rows ++ rest) email password
  = validate_rows rest email password.
Proof.
  induction rows as [|[row|e|] rows IH]; try discriminate; [reflexivity|].
  cbn [List.app email_taken validate_rows].
  destruct (field_matches row EMAIL email) as [[|]| |]; try discriminate.
  exact IH.
Qed.

(** The loop of [register_user] passes the records of a well-formed file
    that do not have the e-mail. *)
Lemma email_taken_passes (good : list record) (email : pystr) :
  Forall (record_of 3) good ->
  ~ registered (Lines (USERS_HEADERS :: good)) email ->
  email_taken (map (fun r => Done (to_dict USERS_HEADERS r)) good) email
  = Done false.
Proof.
  intros Hgood Hnew. rewrite (email_taken_ok good email Hgood). f_equal.
  destruct (existsb _ _) eqn:E; [|reflexivity].
  exfalso. apply Hnew.
  apply (registered_existsb (Lines (USERS_HEADERS :: good))). exact E.
Qed.

Lemma rows_of_users_app (good rest : list record) :
  Forall (record_of 3) good ->
  rows_of (Lines (USERS_HEADERS :: good ++ rest))
  = map (fun r => Done (to_dict USERS_HEADERS r)) good
    ++ read_rows USERS_HEADERS rest.
Proof.
  intros Hgood. cbn [rows_of dict_reader]. rewrite readable_users_headers.
  apply (read_rows_app _ _ _ 2 Hgood).
Qed.

End ShortRecord.

(** A record that stops before the Email column, and that the reader
    accepts, makes both functions raise [AttributeError] when they reach
    it, that is when the records before it are well formed and none has
    the e-mail: [csv.DictReader] gives the missing field the value
    [None], which has no [lower].  The file is left as it is. *)
Theorem short_record_raises (U : UnicodeDB) (W : Werkzeug)
  (now salt t email password : pystr) (good rest : list record) :
  Forall (record_of 3) good -> readable [t] = true ->
  ~ registered (Lines (USERS_HEADERS :: good)) email ->
  register_user now salt (Lines (USERS_HEADERS :: good ++ [t] :: rest))
    email password
  = (Lines (USERS_HEADERS :: good ++ [t] :: rest), Fail AttributeError)
  /\ validate_user (Lines (USERS_HEADERS :: good ++ [t] :: rest))
       email password
     = Fail AttributeError.
Proof.
  intros Hgood Ht Hnew.
  pose proof (email_taken_passes good email Hgood Hnew) as Hscan.
  unfold register_user, validate_user.
  rewrite (rows_of_users_app good ([t] :: rest) Hgood).
  rewrite (email_taken_app _ _ _ Hscan), (validate_rows_app _ _ _ _ Hscan).
  cbn [read_rows]. rewrite Ht. split; reflexivity.
Qed.

Lemma short_record_raises_witness :
  @register_user Demo.unicode DemoHash.werkzeug (lit "now") (lit "s2")
    (Lines (USERS_HEADERS
            :: [[lit "t0"; lit "Ann@x.org"; lit "demo$h"]]
            ++ [lit "t1"] :: []))
    (lit "bob@x.org") (lit "pw")
  = (Lines (USERS_HEADERS
            :: [[lit "t0"; lit "Ann@x.org"; lit "demo$h"]]
            ++ [lit "t1"] :: []),
     Fail AttributeError)
  /\ @validate_user Demo.unicode DemoHash.werkzeug
       (Lines (USERS_HEADERS
               :: [[lit "t0"; lit "Ann@x.org"; lit "demo$h"]]
               ++ [lit "t1"] :: []))
       (lit "bob@x.org") (lit "pw")
     = Fail AttributeError.
Proof.
  apply (short_record_raises Demo.unicode DemoHash.werkzeug).
  - constructor; [split; reflexivity|constructor].
  - reflexivity.
  - intros Hr. apply registered_existsb in Hr. discriminate Hr.
Defined.

(** A users file that exists but is empty gets no header: the record of
    the first registration is then read as the field names, so that the
    user who has just registered is not recognised, and the same e-mail
    can be registered again.  The records are such that can be written and
    read back. *)
Theorem empty_users_file_loses_first_user (U : UnicodeDB) (W : Werkzeug)
  (now salt now' salt' email password hashed hashed' : pystr) :
  generate_password_hash salt password = Done hashed ->
  generate_password_hash salt' password = Done hashed' ->
  plain now = true -> plain email = true -> plain hashed = true ->
  writable [now'; email; hashed'] = true ->
  let first := [now; email; hashed] in
  register_user now salt (Lines []) email password
  = (Lines [first], Done true)
  /\ validate_user (Lines [first]) email password = Done false
  /\ register_user now' salt' (Lines [first]) email password
     = (Lines [first; [now'; email; hashed']], Done true).
Proof.
  intros Hgen Hgen' Hnow Hemail Hhashed Hw' first. subst first.
  destruct (plain_record now email hashed Hnow Hemail Hhashed)
    as [Hw [_ Hr]].
  unfold register_user, validate_user, append_row.
  cbn [rows_of dict_reader email_taken opened List.app].
  rewrite Hgen, Hw, Hr. cbn [read_rows email_taken validate_rows].
  rewrite Hgen', Hw'. repeat split.
Qed.

Lemma empty_users_file_loses_first_user_witness :
  @register_user Demo.unicode DemoHash.werkzeug (lit "t1") (lit "s1")
    (Lines []) (lit "ann@x.org") (lit "secret")
  = (Lines [[lit "t1"; lit "ann@x.org";
             DemoHash.METHOD ++ DemoHash.digest (lit "secret")]],
     Done true)
  /\ @validate_user Demo.unicode DemoHash.werkzeug
       (Lines [[lit "t1"; lit "ann@x.org";
                DemoHash.METHOD ++ DemoHash.digest (lit "secret")]])
       (lit "ann@x.org") (lit "secret")
     = Done false
  /\ @register_user Demo.unicode DemoHash.werkzeug (lit "t2") (lit "s2")
       (Lines [[lit "t1"; lit "ann@x.org";
                DemoHash.METHOD ++ DemoHash.digest (lit "secret")]])
       (lit "ann@x.org") (lit "secret")
     = (Lines [[lit "t1"; lit "ann@x.org";
                DemoHash.METHOD ++ DemoHash.digest (lit "secret")];
               [lit "t2"; lit "ann@x.org";
                DemoHash.METHOD ++ DemoHash.digest (lit "secret")]],
        Done true).
Proof.
  apply (empty_users_file_loses_first_user Demo.unicode DemoHash.werkzeug
           (lit "t1") (lit "s1") (lit "t2") (lit "s2") (lit "ann@x.org")
           (lit "secret")); reflexivity.
Defined.

(** An e-mail of more than 131072 characters is accepted, and makes the
    users file unreadable from its record on: after the registration both
    functions raise [_csv.Error] for every e-mail that was not on file
    before, the one just registered included, and nobody else can
    register. *)
Theorem long_email_blocks_the_users_file (U : UnicodeDB) (W : Werkzeug)
  (now salt : pystr) (users : csv_file) (email password hashed : pystr) :
  users_ok users -> ~ registered users email ->
  generate_password_hash salt password = Done hashed ->
  writable [now; email; hashed] = true -> FIELD_LIMIT < len email ->
  exists users',
    register_user now salt users email password = (users', Done true)
    /\ forall now' salt' email' password',
         ~ registered users email' ->
         validate_user users' email' password' = Fail CsvError
         /\ register_user now' salt' users' email' password'
            = (users', Fail CsvError).
Proof.
  intros Hok Hnew Hgen Hw Hlong.
  assert (readable [now; email; hashed] = false) as Hr.
  { unfold readable. cbn [forallb].
    apply Z.leb_gt in Hlong. rewrite Hlong.
    rewrite Bool.andb_false_r. reflexivity. }
  assert (exists rows,
            opened USERS_HEADERS users = Lines (USERS_HEADERS :: rows)
            /\ Forall (record_of 3) rows
            /\ accounts users = map account_of rows)
    as (rows & Hopen & Hrows & Hacc).
  { destruct users as [|records|]; [| |destruct Hok].
    - exists []. repeat split. constructor.
    - destruct Hok as (rows & -> & Hrows). exists rows. repeat split.
      exact Hrows. }
  exists (Lines (USERS_HEADERS :: rows ++ [[now; email; hashed]])).
  split.
  - unfold register_user. rewrite (email_taken_cases users email Hok).
    destruct (existsb _ _) eqn:E.
    { exfalso. apply Hnew. apply registered_existsb. exact E. }
    rewrite Hgen. unfold append_row. rewrite Hopen, Hw. reflexivity.
  - intros now' salt' email' password' Hnew'.
    assert (~ registered (Lines (USERS_HEADERS :: rows)) email') as Hn.
    { intros (a & Ha & Ea). apply Hnew'. exists a.
      rewrite Hacc. split; [exact Ha|exact Ea]. }
    pose proof (email_taken_passes rows email' Hrows Hn) as Hscan.
    unfold register_user, validate_user.
    rewrite (rows_of_users_app rows [[now; email; hashed]] Hrows).
    rewrite (email_taken_app _ _ _ Hscan),
      (validate_rows_app _ _ _ _ Hscan).
    cbn [read_rows]. rewrite Hr. split; reflexivity.
Qed.

Lemma long_email_blocks_the_users_file_witness :
  exists users',
    @register_user Demo.unicode DemoHash.werkzeug (lit "t1") (lit "s1")
      DemoHash.ann_only DemoHash.long_email (lit "pw") = (users', Done true)
    /\ forall now' salt' email' password',
         ~ @registered Demo.unicode DemoHash.ann_only email' ->
         @validate_user Demo.unicode DemoHash.werkzeug users' email'
           password' = Fail CsvError
         /\ @register_user Demo.unicode DemoHash.werkzeug now' salt' users'
              email' password'
            = (users', Fail CsvError).
Proof.
  apply (long_email_blocks_the_users_file Demo.unicode DemoHash.werkzeug
           _ _ _ _ _ (DemoHash.METHOD ++ DemoHash.digest (lit "pw"))).
  - exact demo_users_ok.
  - apply demo_not_registered. vm_compute. reflexivity.
  - reflexivity.
  - vm_compute. reflexivity.
  - vm_compute. reflexivity.
Defined.

(** A registration whose record cannot be encoded in UTF-8 (a surrogate
    code point in the timestamp, the e-mail or the hash) raises
    [UnicodeEncodeError] once the e-mail has been found new and the
    password hashed.  No account is added; a users file that did not exist
    is left with its header alone. *)
Theorem unencodable_registration_is_refused (U : UnicodeDB) (W : Werkzeug)
  (now salt : pystr) (users : csv_file) (email password hashed : pystr) :
  users_ok users -> ~ registered users email ->
  generate_password_hash salt password = Done hashed ->
  writable [now; email; hashed] = false ->
  register_user now salt users email password
  = (opened USERS_HEADERS users, Fail UnicodeEncodeError)
  /\ (users = Missing -> opened USERS_HEADERS users = Lines [USERS_HEADERS])
  /\ (users <> Missing -> opened USERS_HEADERS users = users)
  /\ users_ok (opened USERS_HEADERS users)
  /\ accounts (opened USERS_HEADERS users) = accounts users.
Proof.
  intros Hok Hnew Hgen Hw.
  destruct (users_ok_refused users [now; email; hashed] Hok Hw)
    as (Ea & Hok' & Hacc).
  split; [|split; [|split; [|split]]]; try assumption.
  - unfold register_user. rewrite (email_taken_cases users email Hok).
    destruct (existsb _ _) eqn:E.
    { exfalso. apply Hnew. apply registered_existsb. exact E. }
    rewrite Hgen, Ea. reflexivity.
  - intros ->. reflexivity.
  - destruct users; [congruence|reflexivity..].
Qed.

Lemma unencodable_registration_is_refused_witness :
  @register_user Demo.unicode DemoHash.werkzeug (lit "t1") (lit "s1")
    Missing DemoHash.surrogate_email (lit "pw")
  = (opened USERS_HEADERS Missing, Fail UnicodeEncodeError)
  /\ (Missing = Missing
      -> opened USERS_HEADERS Missing = Lines [USERS_HEADERS])
  /\ (Missing <> Missing -> opened USERS_HEADERS Missing = Missing)
  /\ users_ok (opened USERS_HEADERS Missing)
  /\ accounts (opened USERS_HEADERS Missing) = accounts Missing.
Proof.
  apply (unencodable_registration_is_refused Demo.unicode DemoHash.werkzeug
           _ _ _ _ _ (DemoHash.METHOD ++ DemoHash.digest (lit "pw"))).
  - exact I.
  - intros (a & [] & _).
  - reflexivity.
  - reflexivity.
Defined.

(** A stored hash that [check_password_hash] does not understand makes
    [validate_user] raise what the check raises, when the record is the
    first of the e-mail and no record before it has the e-mail. *)
Theorem foreign_hash_raises (U : UnicodeDB) (W : Werkzeug)
  (t e h email password : pystr) (good rest : list record) (err : error) :
  Forall (record_of 3) good -> record_of 3 [t; e; h] ->
  ~ registered (Lines (USERS_HEADERS :: good)) email ->
  same_email e email ->
  check_password_hash h password = Fail err ->
  validate_user (Lines (USERS_HEADERS :: good ++ [t; e; h] :: rest))
    email password
  = Fail err.
Proof.
  intros Hgood [_ Hr] Hnew Hsame Hcheck.
  pose proof (email_taken_passes good email Hgood Hnew) as Hscan.
  unfold validate_user.
  rewrite (rows_of_users_app good ([t; e; h] :: rest) Hgood).
  rewrite (validate_rows_app _ _ _ _ Hscan).
  cbn [read_rows]. rewrite Hr. cbn [negb is_blank_record validate_rows].
  rewrite to_dict_user. unfold field_matches.
  change (dict_get _ EMAIL (Some [])) with (Some e).
  change (dict_get _ PASSWORD (Some [])) with (Some h).
  cbn beta iota. unfold same_email in Hsame.
  rewrite Hsame, eqb_refl, Hcheck. reflexivity.
Qed.

Lemma foreign_hash_raises_witness :
  @validate_user Demo.unicode DemoHash.werkzeug DemoHash.foreign_hash
    (lit "ann@x.org") (lit "secret")
  = Fail (Uncaught ValueError).
Proof.
  apply (foreign_hash_raises Demo.unicode DemoHash.werkzeug
           (lit "2024-01-01 10:00:00") (lit "Ann@x.org") (lit "x$y$z")
           (lit "ann@x.org") (lit "secret") [] []).
  - constructor.
  - split; reflexivity.
  - intros (a & [] & _).
  - reflexivity.
  - reflexivity.
Defined.

(* ===================================================================== *)
(** * The routes ([app.py]) *)
(* ===================================================================== *)

(** Modelling conventions for the routes.
    - The state is the session of one browser, with the two keys the
      routes use, and the three CSV files.
    - A request carries the fields the route reads, as [request.form]
      gives them to the route, an absent form field being the empty string
      as in [request.form.get(name, '')].
    - A response is the call that builds it.
    - A request that raises has no response and no next state here: the
      files are then as the function of [csv_logger] that raised has left
      them.
    - The route [/modify] is left out: it depends on a remote service. *)

Module App.

Record state := {
  user_email : option pystr;
  project_name : option pystr;
  users_csv : csv_file;
  projects_csv : csv_file;
  log_csv : csv_file
}.

Inductive http_method : Set := GET | POST.

Inductive request : Type :=
| Home
| Analyzer
| Analyze (text : pystr)
| Register (method : http_method) (email password : pystr)
| Login (method : http_method) (email password : pystr)
| Logout
| ProjectsView
| NewProject (name : pystr)
| ProjectDetail (name : pystr)
| About.

Inductive response : Type :=
| RenderTemplate (template : string) (error : option string)
| RenderProjects (projects : list (dict cell))
| RenderProjectDetail (name : pystr) (logs : list (dict cell))
| Redirect (endpoint : string)
| JsonError (message : string) (status : Z)
| JsonMetrics (m : metrics).

Definition set_session (st : state) (email : option pystr)
  (project : option pystr) : state :=
  {| user_email := email; project_name := project;
     users_csv := users_csv st; projects_csv := projects_csv st;
     log_csv := log_csv st |}.

Definition set_users (st : state) (users : csv_file) : state :=
  {| user_email := user_email st; project_name := project_name st;
     users_csv := users; projects_csv := projects_csv st;
     log_csv := log_csv st |}.

Definition set_projects (st : state) (projects : csv_file) : state :=
  {| user_email := user_email st; project_name := project_name st;
     users_csv := users_csv st; projects_csv := projects;
     log_csv := log_csv st |}.

End App.

Import App.

Section Routes.

Context `{UnicodeDB} `{Textstat} `{Werkzeug}.

(** The loop of [projects_view]: the rows whose [User Email] is the
    e-mail of the session up to case. *)
Fixpoint rows_of_user (rows : list (outcome (dict cell))) (email : pystr)
  : outcome (list (dict cell)) :=
  match rows with
  | [] => Done []
  | Done row :: rest =>
      match field_matches row USER_EMAIL email with
      | Done keep =>
          match rows_of_user rest email with
          | Done kept => Done (if keep then row :: kept else kept)
          | other => other
          end
      | Fail e => Fail e
      | Unknown => Unknown
      end
  | Fail e :: _ => Fail e
  | Unknown :: _ => Unknown
  end.

(** [row.get("Project Name", "Default Project") == project_name]; [None]
    is equal to no string. *)
Definition in_project (row : dict cell) (name : pystr) : bool :=
  match dict_get row PROJECT_NAME (Some DEFAULT_PROJECT) with
  | None => false
  | Some value => PyStr.eqb value name
  end.

(** The loop of [project_detail]; the e-mail is only looked at when the
    project name matches. *)
Fixpoint logs_of_project (rows : list (outcome (dict cell)))
  (name email : pystr) : outcome (list (dict cell)) :=
  match rows with
  | [] => Done []
  | Done row :: rest =>
      match (if in_project row name
             then field_matches row USER_EMAIL email else Done false) with
      | Done keep =>
          match logs_of_project rest name email with
          | Done kept => Done (if keep then row :: kept else kept)
          | other => other
          end
      | Fail e => Fail e
      | Unknown => Unknown
      end
  | Fail e :: _ => Fail e
  | Unknown :: _ => Unknown
  end.

Definition home (st : state) : outcome (state * response) :=
  Done (st, RenderTemplate "home.html" None).

Definition about (st : state) : outcome (state * response) :=
  Done (st, RenderTemplate "about.html" None).

Definition analyzer (st : state) : outcome (state * response) :=
  match user_email st with
  | None => Done (st, Redirect "login")
  | Some _ => Done (st, RenderTemplate "index.html" None)
  end.

Definition analyze (st : state) (text : pystr)
  : outcome (state * response) :=
  match user_email st with
  | None => Done (st, JsonError "Unauthorized" 401)
  | Some _ =>
      if negb (truthy (strip text))
      then Done (st, JsonError "Please provide some text to analyze." 400)
      else match calculate_text_metrics text with
           | Ok metrics => Done (st, JsonMetrics metrics)
           | Raise e => Fail (Uncaught e)
           end
  end.

Definition register (now salt : pystr) (st : state) (method : http_method)
  (form_email form_password : pystr) : outcome (state * response) :=
  match method with
  | POST =>
      let email := strip form_email in
      let password := strip form_password in
      if (negb (truthy email) || negb (truthy password))%bool
      then Done (st, RenderTemplate "register.html"
                  (Some "Please fill in both fields."%string))
      else match register_user now salt (users_csv st) email password with
           | (users, Done true) =>
               Done (set_session (set_users st users) (Some email)
                       (project_name st),
                     Redirect "analyzer")
           | (users, Done false) =>
               Done (set_users st users,
                     RenderTemplate "register.html"
                       (Some "User already exists."%string))
           | (_, Fail e) => Fail e
           | (_, Unknown) => Unknown
           end
  | GET => Done (st, RenderTemplate "register.html" None)
  end.

Definition login (st : state) (method : http_method)
  (form_email form_password : pystr) : outcome (state * response) :=
  match method with
  | POST =>
      let email := strip form_email in
      let password := strip form_password in
      match validate_user (users_csv st) email password with
      | Done true =>
          Done (set_session st (Some email) (project_name st),
                Redirect "analyzer")
      | Done false =>
          Done (st, RenderTemplate "login.html"
                      (Some "Invalid credentials."%string))
      | Fail e => Fail e
      | Unknown => Unknown
      end
  | GET => Done (st, RenderTemplate "login.html" None)
  end.

(** [session.clear()] *)
Definition logout (st : state) : outcome (state * response) :=
  Done (set_session st None None, Redirect "home").

Definition projects_view (st : state) : outcome (state * response) :=
  match user_email st with
  | None => Done (st, Redirect "login")
  | Some email =>
      match rows_of_user (rows_of (projects_csv st)) email with
      | Done projects => Done (st, RenderProjects projects)
      | Fail e => Fail e
      | Unknown => Unknown
      end
  end.

Definition new_project (now : pystr) (st : state) (form_name : pystr)
  : outcome (state * response) :=
  match user_email st with
  | None => Done (st, Redirect "login")
  | Some email =>
      let name := strip form_name in
      if negb (truthy name) then Done (st, Redirect "projects_view")
      else
        match log_project now (projects_csv st) name email with
        | (projects, Done _) =>
            Done (set_session (set_projects st projects) (Some email)
                    (Some name),
                  Redirect "analyzer")
        | (_, Fail e) => Fail e
        | (_, Unknown) => Unknown
        end
  end.

Definition project_detail (st : state) (name : pystr)
  : outcome (state * response) :=
  match user_email st with
  | None => Done (st, Redirect "login")
  | Some email =>
      match logs_of_project (rows_of (log_csv st)) name email with
      | Done logs => Done (st, RenderProjectDetail name logs)
      | Fail e => Fail e
      | Unknown => Unknown
      end
  end.

(** One request; [now] and [salt] are the clock and the salt at the time
    of the request. *)
Definition handle (now salt : pystr) (st : state) (req : request)
  : outcome (state * response) :=
  match req with
  | Home => home st
  | Analyzer => analyzer st
  | Analyze text => analyze st text
  | Register method email password =>
      register now salt st method email password
  | Login method email password => login st method email password
  | Logout => logout st
  | ProjectsView => projects_view st
  | NewProject name => new_project now st name
  | ProjectDetail name => project_detail st name
  | About => about st
  end.

(** A sequence of requests, each with its clock and salt; the first
    uncaught exception ends it. *)
Fixpoint serve (st : state) (reqs : list (pystr * pystr * request))
  : outcome (state * list response) :=
  match reqs with
  | [] => Done (st, [])
  | (now, salt, req) :: rest =>
      match handle now salt st req with
      | Done (st1, resp) =>
          match serve st1 rest with
          | Done (st2, resps) => Done (st2, resp :: resps)
          | Fail e => Fail e
          | Unknown => Unknown
          end
      | Fail e => Fail e
      | Unknown => Unknown
      end
  end.

End Routes.

(* ===================================================================== *)
(** * Properties of the routes *)
(* ===================================================================== *)

(** The file can be read to its end, and every record has at least the
    fields of the header, so that [csv.DictReader] fills no field with
    [None]. *)
Definition complete (file : csv_file) : Prop :=
  match file with
  | Missing => True
  | Lines [] => True
  | Lines (fieldnames :: rows) =>
      readable fieldnames = true
      /\ Forall (fun r : record =>
                   readable r = true
                   /\ (length fieldnames <= length r)%nat) rows
  | Unparsed => False
  end.

(** A projects file as [log_project] leaves it, with no field longer than
    the field size limit. *)
Definition projects_ok (projects : csv_file) : Prop :=
  match projects with
  | Missing => True
  | Lines records =>
      exists rows,
        records = PROJECT_HEADERS :: rows /\ Forall (record_of 3) rows
  | Unparsed => False
  end.

(** No value of the row is [None]. *)
Definition all_some (row : dict cell) : Prop :=
  Forall (fun kv : pystr * cell => snd kv <> None) row.

(** [check_password_hash] answers on every stored hash, for every
    password that has an encoding. *)
Definition hashes_ok `{Werkzeug} (users : csv_file) : Prop :=
  forall a, In a (accounts users) ->
  forall password, encodable password = true ->
                   exists b, check_password_hash (snd a) password = Done b.

(** The werkzeug contract, for passwords that have an encoding: the hash
    is made, it can be written and read back, it checks against its
    password, and the check answers on it for every other password. *)
Definition werkzeug_ok `{Werkzeug} : Prop :=
  forall salt password, encodable password = true ->
  exists hashed,
    generate_password_hash salt password = Done hashed
    /\ plain hashed = true
    /\ check_password_hash hashed password = Done true
    /\ forall other, encodable other = true ->
                     exists b, check_password_hash hashed other = Done b.

(** The files are well formed, the stored hashes are ones the check
    answers on, and the user of the session, if any, is registered under
    an e-mail that can be written and read back. *)
Definition state_ok `{UnicodeDB} `{Werkzeug} (st : state) : Prop :=
  users_ok (users_csv st) /\ hashes_ok (users_csv st)
  /\ projects_ok (projects_csv st)
  /\ complete (log_csv st)
  /\ forall email, user_email st = Some email ->
                   registered (users_csv st) email /\ plain email = true.

(** The form fields that get written to a file, trimmed as the routes
    trim them, can be written and read back, and the passwords have an
    encoding. *)
Definition fits (req : request) : bool :=
  match req with
  | Register POST email password | Login POST email password =>
      plain (strip email) && encodable (strip password)
  | NewProject name => plain (strip name)
  | _ => true
  end.

(** The routes that ask for a session, and what they answer without. *)
Definition protected (req : request) : bool :=
  match req with
  | Analyzer | Analyze _ | ProjectsView | NewProject _ | ProjectDetail _ =>
      true
  | _ => false
  end.

Definition refusal (req : request) : response :=
  match req with
  | Analyze _ => JsonError "Unauthorized" 401
  | _ => Redirect "login"
  end.

(** The two requests that can open a session. *)
Definition signs_in (req : request) : bool :=
  match req with
  | Register POST _ _ | Login POST _ _ => true
  | _ => false
  end.

Section RouteFacts.

Context `{UnicodeDB} `{Textstat} `{Werkzeug}.

Lemma dict_set_all_some (d : dict cell) (k v : pystr) :
  all_some d -> all_some (dict_set d k (Some v)).
Proof.
  unfold all_some. induction 1 as [|[k' v'] d Hkv Hd IH]; simpl.
  - constructor; [discriminate|constructor].
  - destruct (PyStr.eqb k' k); constructor;
      try assumption; simpl; try discriminate.
Qed.

Lemma dict_get_all_some (d : dict cell) (k : pystr) (def : cell) :
  all_some d -> def <> None -> dict_get d k def <> None.
Proof.
  unfold all_some. intros Hd Hdef.
  induction Hd as [|[k' v'] d Hkv Hd IH]; simpl; [exact Hdef|].
  destruct (PyStr.eqb k' k); [exact Hkv|exact IH].
Qed.

Lemma zip_all_some (pairs : list (pystr * pystr)) (d : dict cell) :
  all_some d ->
  all_some
    (fold_left (fun d kv => dict_set d (fst kv) (Some (snd kv))) pairs d).
Proof.
  revert d. induction pairs as [|[k v] l IH]; intros d Hd; [exact Hd|].
  cbn [fold_left fst snd]. apply IH, dict_set_all_some. exact Hd.
Qed.

Lemma to_dict_all_some (fieldnames r : record) :
  (length fieldnames <= length r)%nat -> all_some (to_dict fieldnames r).
Proof.
  intros Hlen. unfold to_dict.
  rewrite List.skipn_all2 by exact Hlen. cbn [fold_left].
  apply zip_all_some. constructor.
Qed.

(** Reading a complete file gives rows without [None], and raises
    nothing. *)
Lemma read_rows_complete (fieldnames : record) (rows : list record) :
  Forall (fun r : record =>
            readable r = true /\ (length fieldnames <= length r)%nat) rows ->
  exists ds,
    read_rows fieldnames rows = map Done ds /\ Forall all_some ds.
Proof.
  induction 1 as [|r rows [Hr Hlen] _ (ds & IH & Hds)].
  - exists []. split; [reflexivity|constructor].
  - cbn [read_rows]. rewrite Hr. cbn [negb].
    destruct (is_blank_record r).
    + exists ds. split; [exact IH|exact Hds].
    + exists (to_dict fieldnames r :: ds). rewrite IH.
      split; [reflexivity|].
      constructor; [apply to_dict_all_some; exact Hlen|exact Hds].
Qed.

Lemma rows_of_complete (file : csv_file) :
  complete file ->
  exists ds, rows_of file = map Done ds /\ Forall all_some ds.
Proof.
  destruct file as [|[|fieldnames rows]|]; cbn [complete rows_of dict_reader].
  - intros _. exists []. split; [reflexivity|constructor].
  - intros _. exists []. split; [reflexivity|constructor].
  - intros [-> Hrows]. apply read_rows_complete. exact Hrows.
  - intros [].
Qed.

Lemma record_of_complete (fieldnames : record) (rows : list record) :
  readable fieldnames = true -> length fieldnames = 3%nat ->
  Forall (record_of 3) rows -> complete (Lines (fieldnames :: rows)).
Proof.
  intros Hf Hlen Hrows. split; [exact Hf|].
  eapply List.Forall_impl; [|exact Hrows].
  intros r [Hr1 Hr2]. split; [exact Hr2|]. rewrite Hlen, Hr1. constructor.
Qed.

Lemma projects_ok_complete (projects : csv_file) :
  projects_ok projects -> complete projects.
Proof.
  destruct projects as [|records|]; [constructor| |intros []].
  intros (rows & -> & Hrows). apply record_of_complete; auto.
Qed.

Lemma field_matches_all_some (row : dict cell) (key other : pystr) :
  all_some row -> exists b, field_matches row key other = Done b.
Proof.
  intros Hrow. unfold field_matches.
  destruct (dict_get row key (Some [])) eqn:E; [eexists; reflexivity|].
  assert (Some (@nil char) <> (None : cell)) as Hdef by discriminate.
  exfalso. exact (dict_get_all_some row key _ Hrow Hdef E).
Qed.

(** The two listings raise nothing on complete files. *)
Lemma rows_of_user_done (rows : list (dict cell)) (email : pystr) :
  Forall all_some rows ->
  exists kept, rows_of_user (map Done rows) email = Done kept.
Proof.
  induction 1 as [|row rows Hrow _ (kept & IH)]; [exists []; reflexivity|].
  cbn [map rows_of_user].
  destruct (field_matches_all_some row USER_EMAIL email Hrow) as (b & ->).
  rewrite IH. eexists. reflexivity.
Qed.

Lemma logs_of_project_done (rows : list (dict cell)) (name email : pystr) :
  Forall all_some rows ->
  exists kept, logs_of_project (map Done rows) name email = Done kept.
Proof.
  induction 1 as [|row rows Hrow _ (kept & IH)]; [exists []; reflexivity|].
  cbn [map logs_of_project].
  destruct (field_matches_all_some row USER_EMAIL email Hrow) as (b & Eb).
  destruct (in_project row name); [rewrite Eb|]; rewrite IH;
    eexists; reflexivity.
Qed.

Lemma listing_done (file : csv_file) (email : pystr) :
  complete file ->
  exists kept, rows_of_user (rows_of file) email = Done kept.
Proof.
  intros Hc. destruct (rows_of_complete file Hc) as (ds & -> & Hds).
  apply rows_of_user_done. exact Hds.
Qed.

Lemma detail_done (file : csv_file) (name email : pystr) :
  complete file ->
  exists kept, logs_of_project (rows_of file) name email = Done kept.
Proof.
  intros Hc. destruct (rows_of_complete file Hc) as (ds & -> & Hds).
  apply logs_of_project_done. exact Hds.
Qed.

(** [log_project] with a record that can be written and read back. *)
Lemma projects_ok_log (now : pystr) (projects : csv_file)
  (name email : pystr) :
  projects_ok projects ->
  plain now = true -> plain name = true -> plain email = true ->
  exists projects',
    log_project now projects name email = (projects', Done tt)
    /\ projects_ok projects'
    /\ rows_of projects'
       = rows_of projects
         ++ [Done (to_dict PROJECT_HEADERS [now; name; email])].
Proof.
  intros Hok Hnow Hname Hemail.
  destruct (plain_record now name email Hnow Hname Hemail) as [Hw Hr].
  unfold log_project, append_row.
  destruct projects as [|records|]; cbn [opened]; [| |destruct Hok];
    rewrite Hw; eexists; (split; [reflexivity|]).
  - split.
    + exists [[now; name; email]]. split; [reflexivity|].
      constructor; [exact Hr|constructor].
    + cbn [rows_of dict_reader List.app].
      change (readable PROJECT_HEADERS) with true. cbn iota.
      rewrite (read_rows_all _ [[now; name; email]] 2); [reflexivity|].
      constructor; [exact Hr|constructor].
  - destruct Hok as (rows & -> & Hrows). split.
    + exists (rows ++ [[now; name; email]]). split; [reflexivity|].
      apply List.Forall_app. split; [exact Hrows|].
      constructor; [exact Hr|constructor].
    + cbn [rows_of dict_reader List.app].
      change (readable PROJECT_HEADERS) with true. cbn iota.
      rewrite (read_rows_app _ rows [[now; name; email]] 2 Hrows).
      rewrite (read_rows_all _ rows 2 Hrows).
      rewrite (read_rows_all _ [[now; name; email]] 2); [reflexivity|].
      constructor; [exact Hr|constructor].
Qed.

End RouteFacts.

Section RouteInvariant.

Context `{UnicodeDB} `{Textstat} `{Werkzeug}.

Lemma registered_append (users users' : csv_file) (a : pystr * pystr)
  (email : pystr) :
  accounts users' = accounts users ++ [a] ->
  registered users email -> registered users' email.
Proof.
  intros Hacc (b & Hb & E). exists b. rewrite Hacc.
  split; [apply List.in_or_app; left; exact Hb|exact E].
Qed.

Lemma registered_last (users users' : csv_file) (email hash : pystr) :
  accounts users' = accounts users ++ [(email, hash)] ->
  registered users' email.
Proof.
  intros Hacc. exists (email, hash). rewrite Hacc.
  split; [apply List.in_or_app; right; left; reflexivity|reflexivity].
Qed.

Lemma hashes_ok_checks (users : csv_file) (email password : pystr) :
  hashes_ok users -> encodable password = true ->
  checks users email password.
Proof. intros Hh Hp a Ha _. exact (Hh a Ha password Hp). Qed.

(** One request on a sound state, with fields that fit: no exception
    escapes and the state stays sound. *)
Lemma handle_sound (now salt : pystr) (st : state) (req : request) :
  werkzeug_ok -> state_ok st -> plain now = true -> fits req = true ->
  exists st' resp, handle now salt st req = Done (st', resp) /\ state_ok st'.
Proof.
  intros Hwz Hst Hnow Hfits.
  pose proof Hst as (Husers & Hhashes & Hprojects & Hlog & Hsession).
  destruct req as [| |text|method email password|method email password
                  | | |name|name|]; cbn [handle].
  - eexists _, _. split; [reflexivity|exact Hst].
  - unfold analyzer. destruct (user_email st);
      eexists _, _; (split; [reflexivity|exact Hst]).
  - unfold analyze. destruct (user_email st);
      [|eexists _, _; split; [reflexivity|exact Hst]].
    destruct (negb (truthy (strip text)));
      [eexists _, _; split; [reflexivity|exact Hst]|].
    destruct (calculate_text_metrics_run text) as (m & -> & _).
    eexists _, _. split; [reflexivity|exact Hst].
  - unfold register. destruct method;
      [eexists _, _; split; [reflexivity|exact Hst]|].
    destruct (negb (truthy (strip email))
              || negb (truthy (strip password)))%bool;
      [eexists _, _; split; [reflexivity|exact Hst]|].
    cbn [fits] in Hfits. apply Bool.andb_true_iff in Hfits as [He Hp].
    destruct (Hwz salt (strip password) Hp)
      as (hashed & Hgen & Hhashed & _ & Hcheck).
    destruct (register_user_known_or_new now salt (users_csv st)
                (strip email) (strip password) hashed Husers Hgen Hnow He
                Hhashed)
      as [[_ ->]|(_ & users' & -> & Hok' & Hacc)].
    + eexists _, _. split; [reflexivity|].
      split; [exact Husers|]. split; [exact Hhashes|].
      split; [exact Hprojects|]. split; [exact Hlog|exact Hsession].
    + eexists _, _. split; [reflexivity|].
      split; [exact Hok'|]. split; [|split; [exact Hprojects|]].
      * cbn. intros a Ha. rewrite Hacc in Ha.
        apply List.in_app_or in Ha as [Ha|[<-|[]]];
          [apply Hhashes; exact Ha|exact Hcheck].
      * split; [exact Hlog|]. cbn. intros e [= <-].
        split; [eapply registered_last; exact Hacc|exact He].
  - unfold login. destruct method;
      [eexists _, _; split; [reflexivity|exact Hst]|].
    cbn [fits] in Hfits. apply Bool.andb_true_iff in Hfits as [He Hp].
    rewrite (validate_user_cases (users_csv st) _ _ Husers).
    destruct (check_accounts_done (accounts (users_csv st)) (strip email)
                (strip password)
                (hashes_ok_checks _ (strip email) _ Hhashes Hp))
      as (b & -> & Hb).
    destruct b; [|eexists _, _; split; [reflexivity|exact Hst]].
    eexists _, _. split; [reflexivity|].
    split; [exact Husers|]. split; [exact Hhashes|].
    split; [exact Hprojects|]. split; [exact Hlog|].
    cbn. intros e [= <-]. split; [|exact He].
    destruct (proj1 Hb eq_refl) as (a & Ha & Ea & _).
    exists a. split; [exact Ha|exact Ea].
  - eexists _, _. split; [reflexivity|].
    split; [exact Husers|]. split; [exact Hhashes|].
    split; [exact Hprojects|]. split; [exact Hlog|].
    cbn. discriminate.
  - unfold projects_view. destruct (user_email st) as [email|];
      [|eexists _, _; split; [reflexivity|exact Hst]].
    destruct (listing_done (projects_csv st) email) as (kept & ->).
    { apply projects_ok_complete. exact Hprojects. }
    eexists _, _. split; [reflexivity|exact Hst].
  - unfold new_project. destruct (user_email st) as [email|] eqn:Eu;
      [|eexists _, _; split; [reflexivity|exact Hst]].
    destruct (negb (truthy (strip name)));
      [eexists _, _; split; [reflexivity|exact Hst]|].
    cbn [fits] in Hfits.
    destruct (projects_ok_log now (projects_csv st) (strip name) email
                Hprojects Hnow Hfits (proj2 (Hsession email eq_refl)))
      as (projects' & -> & Hok' & _).
    eexists _, _. split; [reflexivity|].
    split; [exact Husers|]. split; [exact Hhashes|].
    split; [exact Hok'|]. split; [exact Hlog|].
    cbn. intros e [= <-]. apply Hsession. reflexivity.
  - unfold project_detail. destruct (user_email st) as [email|];
      [|eexists _, _; split; [reflexivity|exact Hst]].
    destruct (detail_done (log_csv st) name email Hlog) as (kept & ->).
    eexists _, _. split; [reflexivity|exact Hst].
  - eexists _, _. split; [reflexivity|exact Hst].
Qed.

End RouteInvariant.

(** Two concrete states: nothing on disk and no session, and Ann signed
    in with her account on file. *)
Module DemoApp.

Definition fresh : state :=
  {| user_email := None; project_name := None; users_csv := Missing;
     projects_csv := Missing; log_csv := Missing |}.

Definition ann_signed_in : state :=
  {| user_email := Some (lit "Ann@x.org"); project_name := None;
     users_csv := DemoHash.ann_only; projects_csv := Missing;
     log_csv := Missing |}.

(** The state of Ann once she has created the project Essay at [t1]. *)
Definition ann_with_essay : state :=
  set_session
    (set_projects ann_signed_in
       (Lines [PROJECT_HEADERS;
               [lit "t1"; strip (lit " Essay "); lit "Ann@x.org"]]))
    (Some (lit "Ann@x.org")) (Some (strip (lit " Essay "))).

End DemoApp.

Lemma demo_werkzeug_ok : @werkzeug_ok DemoHash.werkzeug.
Proof.
  intros salt password Hp.
  exists (DemoHash.METHOD ++ DemoHash.digest password).
  cbn [generate_password_hash check_password_hash DemoHash.werkzeug].
  rewrite Hp. split; [reflexivity|].
  split; [apply demo_digest_plain|].
  cbn [negb]. change (starts_with DemoHash.METHOD
                        (DemoHash.METHOD ++ DemoHash.digest password))
    with true. cbn iota.
  rewrite eqb_refl. split; [reflexivity|].
  intros other ->. cbn [negb]. eexists. reflexivity.
Qed.

Lemma demo_fresh_ok :
  @state_ok Demo.unicode DemoHash.werkzeug DemoApp.fresh.
Proof.
  repeat split; try discriminate. intros a [].
Qed.

Lemma demo_ann_hashes_ok : @hashes_ok DemoHash.werkzeug DemoHash.ann_only.
Proof.
  intros a [<-|[]] password Hp.
  cbn [snd check_password_hash DemoHash.werkzeug]. rewrite Hp.
  eexists. reflexivity.
Qed.

Lemma demo_ann_ok :
  @state_ok Demo.unicode DemoHash.werkzeug DemoApp.ann_signed_in.
Proof.
  split; [exact demo_users_ok|]. split; [exact demo_ann_hashes_ok|].
  repeat split; try injection H as <-; try reflexivity.
  eexists. split; [left; reflexivity|reflexivity].
Qed.

(** Served from a sound state (well-formed files, stored hashes that the
    check answers on, the user of the session registered), with werkzeug
    keeping its contract and every request fitting (timestamps and the
    trimmed form fields that get written have no surrogate code point and
    at most 131072 characters, passwords have no surrogate code point), no
    sequence of requests lets an exception escape, and the state it ends
    in is sound again: in particular a session never names an e-mail that
    is not registered. *)
Theorem serve_sound (U : UnicodeDB) (T : Textstat) (W : Werkzeug)
  (st : state) (reqs : list (pystr * pystr * request)) :
  werkzeug_ok -> state_ok st ->
  Forall (fun r => plain (fst (fst r)) = true /\ fits (snd r) = true) reqs ->
  exists st' resps,
    serve st reqs = Done (st', resps)
    /\ length resps = length reqs /\ state_ok st'.
Proof.
  intros Hwz Hst Hreqs. revert st Hst.
  induction Hreqs as [|[[now salt] req] reqs [Hnow Hfits] _ IH];
    intros st Hst.
  - exists st, []. split; [reflexivity|]. split; [reflexivity|exact Hst].
  - cbn [serve]. cbn [fst snd] in Hnow, Hfits.
    destruct (handle_sound now salt st req Hwz Hst Hnow Hfits)
      as (st1 & resp & -> & Hst1).
    destruct (IH st1 Hst1) as (st2 & resps & -> & Hlen & Hst2).
    exists st2, (resp :: resps). split; [reflexivity|].
    split; [simpl; congruence|exact Hst2].
Qed.

Lemma serve_sound_witness :
  exists st' resps,
    @serve Demo.unicode Demo.textstat DemoHash.werkzeug DemoApp.fresh
      [(lit "t1", lit "s1", Register POST (lit " bob@x.org ") (lit "pw"));
       (lit "t2", lit "s2", NewProject (lit "Essay"));
       (lit "t3", lit "s3", Analyze (lit "So it goes."));
       (lit "t4", lit "s4", ProjectsView)]
    = Done (st', resps)
    /\ length resps = 4%nat
    /\ @state_ok Demo.unicode DemoHash.werkzeug st'.
Proof.
  apply (serve_sound Demo.unicode Demo.textstat DemoHash.werkzeug).
  - exact demo_werkzeug_ok.
  - exact demo_fresh_ok.
  - repeat constructor.
Defined.

Section Anonymous.

Context `{UnicodeDB} `{Textstat} `{Werkzeug}.

(** The files and the absence of a user are the same in two states. *)
Definition same_files (st st' : state) : Prop :=
  users_csv st' = users_csv st /\ projects_csv st' = projects_csv st
  /\ log_csv st' = log_csv st.

Lemma handle_anonymous (now salt : pystr) (st : state) (req : request) :
  user_email st = None -> signs_in req = false ->
  exists st' resp,
    handle now salt st req = Done (st', resp)
    /\ user_email st' = None /\ same_files st st'
    /\ (protected req = true -> resp = refusal req).
Proof.
  intros Hu Hs. unfold same_files.
  destruct req as [| |text|[|] email password|[|] email password
                  | | |name|name|]; try discriminate Hs;
    cbn [handle]; unfold home, analyzer, analyze, register, login, logout,
      projects_view, new_project, project_detail, about;
    try rewrite Hu;
    eexists _, _; (split; [reflexivity|]);
    repeat split; try assumption; try reflexivity; try discriminate.
Qed.

End Anonymous.

(** Without a session, and as long as nobody registers or logs in, every
    request is answered, no file changes, and each route that asks for a
    session answers with its refusal: [401] for [/analyze], the redirect
    to the login page for the others. *)
Theorem anonymous_requests_are_refused (U : UnicodeDB) (T : Textstat)
  (W : Werkzeug) (st : state) (reqs : list (pystr * pystr * request)) :
  user_email st = None ->
  Forall (fun r => signs_in (snd r) = false) reqs ->
  exists st' resps,
    serve st reqs = Done (st', resps)
    /\ user_email st' = None /\ same_files st st'
    /\ Forall2 (fun r resp => protected (snd r) = true ->
                              resp = refusal (snd r)) reqs resps.
Proof.
  intros Hu Hreqs. revert st Hu.
  induction Hreqs as [|[[now salt] req] reqs Hreq _ IH]; intros st Hu.
  - exists st, []. split; [reflexivity|]. split; [exact Hu|].
    split; [repeat split|constructor].
  - cbn [serve]. simpl in Hreq.
    destruct (handle_anonymous now salt st req Hu Hreq)
      as (st1 & resp & -> & Hu1 & (F1 & F2 & F3) & Hresp).
    destruct (IH st1 Hu1) as (st2 & resps & -> & Hu2 & (G1 & G2 & G3) & Hall).
    exists st2, (resp :: resps). split; [reflexivity|].
    split; [exact Hu2|]. split; [repeat split; congruence|].
    constructor; [exact Hresp|exact Hall].
Qed.

Lemma anonymous_requests_are_refused_witness :
  exists st' resps,
    @serve Demo.unicode Demo.textstat DemoHash.werkzeug
      (set_session DemoApp.ann_signed_in None None)
      [(lit "t1", lit "s1", Analyze (lit "So it goes."));
       (lit "t2", lit "s2", NewProject (lit "Essay"));
       (lit "t3", lit "s3", Login GET (lit "") (lit ""));
       (lit "t4", lit "s4", ProjectDetail (lit "Essay"))]
    = Done (st', resps)
    /\ user_email st' = None
    /\ same_files (set_session DemoApp.ann_signed_in None None) st'
    /\ Forall2 (fun r resp => protected (snd r) = true ->
                              resp = refusal (snd r))
         [(lit "t1", lit "s1", Analyze (lit "So it goes."));
          (lit "t2", lit "s2", NewProject (lit "Essay"));
          (lit "t3", lit "s3", Login GET (lit "") (lit ""));
          (lit "t4", lit "s4", ProjectDetail (lit "Essay"))] resps.
Proof.
  apply (anonymous_requests_are_refused
           Demo.unicode Demo.textstat DemoHash.werkzeug).
  - reflexivity.
  - repeat constructor.
Defined.

(** With a session, [/analyze] answers [400] to a blank text and leaves
    it at that; to any other text it answers with the metrics, which then
    have at least one word, one distinct word and one entry in
    [topWords].  The state does not change. *)
Theorem analyze_answers (U : UnicodeDB) (T : Textstat) (st : state)
  (email text : pystr) :
  user_email st = Some email ->
  (whitespace_only text
   /\ analyze st text
      = Done (st, JsonError "Please provide some text to analyze." 400))
  \/ (~ whitespace_only text
      /\ exists m,
          analyze st text = Done (st, JsonMetrics m)
          /\ calculate_text_metrics text = Ok m
          /\ 1 <= wordCount m /\ 1 <= uniqueWordCount m
          /\ topWords m <> []).
Proof.
  intros Hu. unfold analyze. rewrite Hu.
  destruct (truthy (strip text)) eqn:Et; cbn [negb].
  - right.
    assert (~ whitespace_only text) as Hnb.
    { intros Hw. apply truthy_strip_false_iff in Hw. congruence. }
    split; [exact Hnb|].
    destruct (calculate_text_metrics_run text) as (m & E & R).
    exists m. rewrite E. split; [reflexivity|]. split; [reflexivity|].
    rewrite (run_wordCount _ _ R), (unique_word_count_table text m R),
      (top_words_of_table text m R).
    rewrite <- words_of_nil_iff in Hnb.
    destruct (words_of text) as [|w ws] eqn:Ew; [contradiction|].
    unfold frequency_table. cbn [map first_occurrences].
    unfold len. cbn [length]. repeat split; try lia.
    pose proof (Permutation_length
                  (sorted_reverse_perm snd
                     (frequency_table (w :: ws)))) as Hlen.
    unfold frequency_table in Hlen. cbn [map first_occurrences] in Hlen.
    intros Enil.
    match type of Enil with
    | firstn 5 ?l = [] => destruct l; [discriminate Hlen|discriminate Enil]
    end.
  - left. split; [apply truthy_strip_false_iff; exact Et|reflexivity].
Qed.

Lemma analyze_answers_witness :
  (whitespace_only (lit "So it goes.")
   /\ @analyze Demo.unicode Demo.textstat DemoApp.ann_signed_in
        (lit "So it goes.")
      = Done (DemoApp.ann_signed_in,
              JsonError "Please provide some text to analyze." 400))
  \/ (~ whitespace_only (lit "So it goes.")
      /\ exists m,
          @analyze Demo.unicode Demo.textstat DemoApp.ann_signed_in
            (lit "So it goes.")
          = Done (DemoApp.ann_signed_in, JsonMetrics m)
          /\ @calculate_text_metrics Demo.unicode Demo.textstat
               (lit "So it goes.") = Ok m
          /\ 1 <= wordCount m /\ 1 <= uniqueWordCount m
          /\ topWords m <> []).
Proof.
  apply (analyze_answers Demo.unicode Demo.textstat DemoApp.ann_signed_in
           (lit "Ann@x.org")).
  reflexivity.
Defined.

(** Registering, logging out and logging in again: on a well-formed users
    file, with non-blank credentials, an e-mail that is not yet on file, a
    hash that checks against its password, and a timestamp, trimmed
    e-mail and hash that can be written and read back, the three requests
    are answered by the redirects to the analyzer, to the home page and to
    the analyzer, and the session ends with the trimmed e-mail. *)
Theorem register_logout_login (U : UnicodeDB) (T : Textstat) (W : Werkzeug)
  (st : state) (t1 s1 t2 s2 t3 s3 email password hashed : pystr) :
  users_ok (users_csv st) ->
  generate_password_hash s1 (strip password) = Done hashed ->
  check_password_hash hashed (strip password) = Done true ->
  plain t1 = true -> plain (strip email) = true -> plain hashed = true ->
  strip email <> [] -> strip password <> [] ->
  ~ registered (users_csv st) (strip email) ->
  exists st',
    serve st [(t1, s1, Register POST email password); (t2, s2, Logout);
              (t3, s3, Login POST email password)]
    = Done (st', [Redirect "analyzer"; Redirect "home"; Redirect "analyzer"])
    /\ user_email st' = Some (strip email).
Proof.
  intros Husers Hgen Hcheck Ht1 Hemail Hhashed He Hp Hnew.
  cbn [serve handle]. unfold register.
  destruct (register_user_known_or_new t1 s1 (users_csv st)
              (strip email) (strip password) hashed Husers Hgen Ht1 Hemail
              Hhashed)
    as [[Hr _]|(_ & users' & Ereg & Hok' & Hacc)]; [contradiction|].
  destruct (strip email) as [|c e] eqn:Ee; [congruence|].
  destruct (strip password) as [|d p] eqn:Ep; [congruence|].
  cbn [truthy negb orb]. rewrite Ereg.
  unfold logout, login. rewrite Ee, Ep. cbn [users_csv set_session set_users].
  rewrite (validate_user_cases users' _ _ Hok'), Hacc.
  rewrite check_accounts_app, check_accounts_unknown_email.
  - cbn [check_accounts fst snd]. rewrite eqb_refl, Hcheck.
    eexists. split; reflexivity.
  - destruct (existsb _ _) eqn:Ex; [|reflexivity].
    exfalso. apply Hnew. apply registered_existsb. exact Ex.
Qed.

Lemma register_logout_login_witness :
  exists st',
    @serve Demo.unicode Demo.textstat DemoHash.werkzeug DemoApp.fresh
      [(lit "t1", lit "s1", Register POST (lit " bob@x.org ") (lit "pw"));
       (lit "t2", lit "s2", Logout);
       (lit "t3", lit "s3", Login POST (lit " bob@x.org ") (lit "pw"))]
    = Done (st', [Redirect "analyzer"; Redirect "home"; Redirect "analyzer"])
    /\ user_email st' = Some (strip (lit " bob@x.org ")).
Proof.
  apply (register_logout_login Demo.unicode Demo.textstat DemoHash.werkzeug
           _ _ _ _ _ _ _ _ _
           (DemoHash.METHOD ++ DemoHash.digest (lit "pw")));
    [exact I|reflexivity|reflexivity|reflexivity|reflexivity|reflexivity
    |discriminate|discriminate|].
  intros (a & [] & _).
Defined.

Section Projects.

Context `{UnicodeDB}.

(** The row of [csv.DictReader] for a record of [log_project]. *)
Definition project_row (now name email : pystr) : dict cell :=
  to_dict PROJECT_HEADERS [now; name; email].

(** The row belongs to the user: its [User Email] is the e-mail up to
    case. *)
Definition owned_by (email : pystr) (row : dict cell) : Prop :=
  exists e, dict_get row USER_EMAIL (Some []) = Some e /\ same_email e email.

Lemma rows_of_user_snoc (rows : list (outcome (dict cell)))
  (row : dict cell) (email : pystr) (kept : list (dict cell))
  (keep : bool) :
  rows_of_user rows email = Done kept ->
  field_matches row USER_EMAIL email = Done keep ->
  rows_of_user (rows ++ [Done row]) email
  = Done (kept ++ if keep then [row] else []).
Proof.
  intros Hrows Hrow. revert kept Hrows.
  induction rows as [|[r|e|] rows IH]; intros kept Hrows;
    try discriminate Hrows.
  - injection Hrows as <-. cbn [List.app rows_of_user]. rewrite Hrow.
    destruct keep; reflexivity.
  - cbn [List.app rows_of_user] in *.
    destruct (field_matches r USER_EMAIL email) as [b| |];
      try discriminate.
    destruct (rows_of_user rows email) as [kept0| |]; try discriminate.
    injection Hrows as <-. rewrite (IH kept0 eq_refl).
    destruct b; reflexivity.
Qed.

Lemma project_row_matches (now name email other : pystr) :
  field_matches (project_row now name email) USER_EMAIL other
  = Done (PyStr.eqb (lower email) (lower other)).
Proof. reflexivity. Qed.

Lemma rows_of_user_owned (rows : list (outcome (dict cell)))
  (email : pystr) (kept : list (dict cell)) :
  rows_of_user rows email = Done kept -> Forall (owned_by email) kept.
Proof.
  revert kept. induction rows as [|[r|e|] rows IH]; intros kept;
    try discriminate.
  - intros [= <-]. constructor.
  - cbn [rows_of_user]. unfold field_matches at 1.
    destruct (dict_get r USER_EMAIL (Some [])) as [e|] eqn:Ee;
      [|discriminate].
    destruct (rows_of_user rows email) as [kept0| |]; try discriminate.
    intros [= <-]. specialize (IH kept0 eq_refl).
    destruct (PyStr.eqb (lower e) (lower email)) eqn:E; [|exact IH].
    constructor; [|exact IH]. exists e. split; [exact Ee|].
    apply eqb_eq. exact E.
Qed.

End Projects.

(** A project that a user has just created is listed for that user: on a
    well-formed projects file, with a session, a name that is not blank,
    and a timestamp, trimmed name and e-mail that can be written and read
    back, [/new_project] followed by [/projects] answers with the
    redirect to the analyzer and then with the former listing of the user
    and, last, the new project under its trimmed name; the session
    remembers the project. *)
Theorem new_project_is_listed (U : UnicodeDB) (T : Textstat) (W : Werkzeug)
  (st : state) (t1 s1 t2 s2 email name : pystr) :
  projects_ok (projects_csv st) -> user_email st = Some email ->
  strip name <> [] ->
  plain t1 = true -> plain (strip name) = true -> plain email = true ->
  exists st' former,
    rows_of_user (rows_of (projects_csv st)) email = Done former
    /\ serve st [(t1, s1, NewProject name); (t2, s2, ProjectsView)]
       = Done (st', [Redirect "analyzer";
                     RenderProjects
                       (former ++ [project_row t1 (strip name) email])])
    /\ project_name st' = Some (strip name).
Proof.
  intros Hprojects Hu Hname Ht1 Hn He.
  destruct (listing_done (projects_csv st) email) as (former & Hformer).
  { apply projects_ok_complete. exact Hprojects. }
  destruct (projects_ok_log t1 (projects_csv st) (strip name) email
              Hprojects Ht1 Hn He) as (projects' & Elog & _ & Erows).
  cbn [serve handle]. unfold new_project. rewrite Hu.
  destruct (strip name) as [|c n] eqn:En; [congruence|].
  cbn [truthy negb]. rewrite Elog. unfold projects_view.
  cbn [user_email projects_csv set_session set_projects].
  rewrite Erows.
  rewrite (rows_of_user_snoc _ _ _ former true Hformer).
  - eexists _, former. split; [exact Hformer|]. split; reflexivity.
  - fold (project_row t1 (c :: n) email).
    rewrite project_row_matches, eqb_refl. reflexivity.
Qed.

Lemma new_project_is_listed_witness :
  exists st' former,
    @rows_of_user Demo.unicode (rows_of (projects_csv DemoApp.ann_signed_in))
      (lit "Ann@x.org") = Done former
    /\ @serve Demo.unicode Demo.textstat DemoHash.werkzeug
         DemoApp.ann_signed_in
         [(lit "t1", lit "s1", NewProject (lit " Essay "));
          (lit "t2", lit "s2", ProjectsView)]
       = Done (st', [Redirect "analyzer";
                     RenderProjects
                       (former
                        ++ [project_row (lit "t1") (strip (lit " Essay "))
                              (lit "Ann@x.org")])])
    /\ project_name st' = Some (strip (lit " Essay ")).
Proof.
  apply (new_project_is_listed Demo.unicode Demo.textstat DemoHash.werkzeug);
    [exact I|reflexivity|discriminate|reflexivity..].
Defined.

(** The listing of a user has only rows of that user, and a project that
    somebody else logs, with a record that can be written and read back,
    does not change it. *)
Theorem projects_are_private (U : UnicodeDB) (now : pystr)
  (projects : csv_file) (name email other : pystr) :
  projects_ok projects -> ~ same_email email other ->
  plain now = true -> plain name = true -> plain email = true ->
  exists projects' kept,
    log_project now projects name email = (projects', Done tt)
    /\ rows_of_user (rows_of projects) other = Done kept
    /\ rows_of_user (rows_of projects') other = Done kept
    /\ Forall (owned_by other) kept.
Proof.
  intros Hok Hne Hnow Hname Hemail.
  destruct (@listing_done U projects other) as (kept & Hkept).
  { apply projects_ok_complete. exact Hok. }
  destruct (projects_ok_log now projects name email Hok Hnow Hname Hemail)
    as (projects' & Elog & _ & Erows).
  exists projects', kept. split; [exact Elog|]. split; [exact Hkept|]. split.
  - rewrite Erows.
    rewrite (rows_of_user_snoc _ _ _ kept false Hkept).
    + rewrite List.app_nil_r. reflexivity.
    + fold (project_row now name email).
      rewrite project_row_matches. apply eqb_neq in Hne. rewrite Hne.
      reflexivity.
  - apply (rows_of_user_owned _ _ _ Hkept).
Qed.

Lemma projects_are_private_witness :
  exists projects' kept,
    log_project (lit "t1")
      (Lines [PROJECT_HEADERS; [lit "t0"; lit "Novel"; lit "bob@x.org"]])
      (lit "Essay") (lit "Ann@x.org")
    = (projects', Done tt)
    /\ @rows_of_user Demo.unicode
         (rows_of (Lines [PROJECT_HEADERS;
                          [lit "t0"; lit "Novel"; lit "bob@x.org"]]))
         (lit "Bob@x.org") = Done kept
    /\ @rows_of_user Demo.unicode (rows_of projects') (lit "Bob@x.org")
       = Done kept
    /\ Forall (@owned_by Demo.unicode (lit "Bob@x.org")) kept.
Proof.
  apply (projects_are_private Demo.unicode).
  - eexists. split; [reflexivity|].
    constructor; [split; reflexivity|constructor].
  - discriminate.
  - reflexivity.
  - reflexivity.
  - reflexivity.
Defined.

(* ===================================================================== *)
(** * The metrics log ([log_to_csv]) *)
(* ===================================================================== *)

(** The values a response dict can hold. *)
#[warnings="-register-all"]
Inductive pyval : Type :=
| VNone
| VStr (s : pystr)
| VInt (z : Z)
| VFloat (q : Q)
| VList (l : list pyval)
| VDict (d : list (pystr * pyval)).

(** [str(v)] for a value that is neither a string nor [None]: numbers,
    lists and dicts; external to the repository.  It can raise, as [str]
    does on an [int] of more digits than the interpreter converts. *)
Class PyRepr := { py_str : pyval -> outcome pystr }.

(** What [csv.writer] writes for a value: a string as it is, nothing for
    [None], [str(v)] otherwise. *)
Definition to_field `{PyRepr} (v : pyval) : outcome pystr :=
  match v with
  | VStr s => Done s
  | VNone => Done []
  | _ => py_str v
  end.

(** [writerow] turns the values into fields from left to right, before
    it writes anything: the first value that [str] fails on decides. *)
Fixpoint to_fields `{PyRepr} (values : list pyval) : outcome record :=
  match values with
  | [] => Done []
  | v :: rest =>
      match to_field v with
      | Done field =>
          match to_fields rest with
          | Done fields => Done (field :: fields)
          | other => other
          end
      | Fail e => Fail e
      | Unknown => Unknown
      end
  end.

Definition HEADERS : record :=
  map lit
    ["Timestamp"; "Project Name"; "User Email"; "Original Text";
     "Modified Text"; "Keywords";
     "Target Score"; "Target Read Time";
     "Chosen Platform"; "Chosen Region"; "Chosen Education"; "Chosen Age";
     "Letter Count"; "Sentence Count"; "Word Count"; "Unique Word Count";
     "Total Syllables";
     "Avg Syllables per Word"; "Words Three Syllables";
     "% Words Three Syllables";
     "Longest Sentence"; "Paragraph Count"; "Avg Speaking Time";
     "Avg Reading Time";
     "Avg Writing Time"; "Avg Words per Sentence"; "Avg Words per Paragraph";
     "Avg Sentences per Paragraph"; "Avg Characters per Word";
     "Words >4 Syllables";
     "% Words >4 Syllables"; "Words >12 Letters"; "% Words >12 Letters";
     "Flesch-Kincaid"; "Reading Ease"; "Average Word Length"]%string.

(** The keys of the response read into the first columns after the
    timestamp and the keywords, and the keys of the metrics read into the
    last columns. *)
Definition METRIC_KEYS : list pystr :=
  map lit
    ["letterCount"; "sentenceCount"; "wordCount"; "uniqueWordCount";
     "totalSyllables"; "avgSyllablesPerWord"; "wordsThreeSyllables";
     "percWordsThreeSyllables"; "longestSentence"; "paragraphCount";
     "avgSpeakingTime"; "avgReadingTime"; "avgWritingTime";
     "avgWordsPerSentence"; "avgWordsPerParagraph";
     "avgSentencesPerParagraph"; "avgCharactersPerWord";
     "wordsMoreThan4Syllables"; "percWordsMoreThan4Syllables";
     "wordsMoreThan12Letters"; "percWordsMoreThan12Letters";
     "fleschKincaid"; "readingEase"; "averageWordLength"]%string.

(** The strings of a list of values, or [None] when one of them is not a
    string: [", ".join] then raises [TypeError]. *)
Fixpoint strings_of (l : list pyval) : option (list pystr) :=
  match l with
  | [] => Some []
  | VStr s :: rest =>
      match strings_of rest with
      | Some strs => Some (s :: strs)
      | None => None
      end
  | _ :: _ => None
  end.

(** [", ".join(data.get("keywords", []))
     if isinstance(data.get("keywords"), list)
     else data.get("keywords", "")] *)
Definition keywords_cell (data : dict pyval) : outcome pyval :=
  match dict_get data (lit "keywords") VNone with
  | VList l =>
      match strings_of l with
      | Some strs => Done (VStr (join (lit ", ") strs))
      | None => Fail TypeError
      end
  | _ => Done (dict_get data (lit "keywords") (VStr []))
  end.

(** The list [row] that [log_to_csv] builds; only a dict has [get]. *)
Definition log_values (now : pystr) (data : dict pyval)
  : outcome (list pyval) :=
  match keywords_cell data with
  | Done keywords =>
      let head :=
        [VStr now;
         dict_get data (lit "projectName") (VStr DEFAULT_PROJECT);
         dict_get data (lit "userEmail") (VStr []);
         dict_get data (lit "originalText") (VStr []);
         dict_get data (lit "modifiedText") (VStr []);
         keywords;
         dict_get data (lit "targetScore") (VStr []);
         dict_get data (lit "targetReadTime") (VStr []);
         dict_get data (lit "chosenPlatform") (VStr []);
         dict_get data (lit "chosenRegion") (VStr []);
         dict_get data (lit "chosenEducation") (VStr []);
         dict_get data (lit "chosenAge") (VStr [])] in
      match dict_get data (lit "modifiedMetrics") (VDict []) with
      | VDict metrics =>
          let tail :=
            map (fun key => dict_get metrics key (VStr [])) METRIC_KEYS in
          Done (head ++ tail)
      | _ => Fail AttributeError
      end
  | Fail e => Fail e
  | Unknown => Unknown
  end.

(** The record that [writerow(row)] makes of the list. *)
Definition log_row `{PyRepr} (now : pystr) (data : dict pyval)
  : outcome record :=
  match log_values now data with
  | Done values => to_fields values
  | Fail e => Fail e
  | Unknown => Unknown
  end.

(** The list is built before the file is opened; the fields are made
    once it is open and has its header.  The result is the log afterwards
    and what the call did. *)
Definition log_to_csv `{PyRepr} (now : pystr) (log : csv_file)
  (data : dict pyval) : csv_file * outcome unit :=
  match log_values now data with
  | Done values =>
      match to_fields values with
      | Done row => append_row HEADERS log row
      | Fail e => (opened HEADERS log, Fail e)
      | Unknown => (opened HEADERS log, Unknown)
      end
  | Fail e => (log, Fail e)
  | Unknown => (log, Unknown)
  end.

(** A log file as [log_to_csv] leaves it, with no field longer than the
    field size limit. *)
Definition log_ok (log : csv_file) : Prop :=
  match log with
  | Missing => True
  | Lines records =>
      exists rows,
        records = HEADERS :: rows
        /\ Forall (record_of (length HEADERS)) rows
  | Unparsed => False
  end.



(** The project and the user a response is logged under. *)
Definition logged_project `{PyRepr} (data : dict pyval) : outcome pystr :=
  to_field (dict_get data (lit "projectName") (VStr DEFAULT_PROJECT)).

Definition logged_user `{PyRepr} (data : dict pyval) : outcome pystr :=
  to_field (dict_get data (lit "userEmail") (VStr [])).

Section MetricsLog.

Context `{UnicodeDB} `{PyRepr}.

Lemma to_fields_cons (v : pyval) (values : list pyval) (row : record) :
  to_fields (v :: values) = Done row ->
  exists field fields,
    row = field :: fields /\ to_field v = Done field
    /\ to_fields values = Done fields.
Proof.
  cbn [to_fields]. destruct (to_field v) as [field| |]; try discriminate.
  destruct (to_fields values) as [fields| |]; try discriminate.
  intros [= <-]. exists field, fields. repeat split.
Qed.

Lemma to_fields_length (values : list pyval) (row : record) :
  to_fields values = Done row -> length row = length values.
Proof.
  revert row. induction values as [|v values IH]; intros row.
  - intros [= <-]. reflexivity.
  - intros E. apply to_fields_cons in E as (f & fs & -> & _ & E).
    cbn [length]. rewrite (IH fs E). reflexivity.
Qed.

Lemma log_values_length (now : pystr) (data : dict pyval)
  (values : list pyval) :
  log_values now data = Done values -> length values = length HEADERS.
Proof.
  unfold log_values. destruct (keywords_cell data) as [kw| |];
    try discriminate.
  destruct (dict_get data (lit "modifiedMetrics") (VDict []));
    try discriminate.
  intros [= <-]. reflexivity.
Qed.

Lemma log_row_fields (now : pystr) (data : dict pyval) (row : record) :
  log_row now data = Done row ->
  length row = length HEADERS
  /\ nth 0 row [] = now
  /\ logged_project data = Done (nth 1 row [])
  /\ logged_user data = Done (nth 2 row []).
Proof.
  unfold log_row. destruct (log_values now data) as [values| |] eqn:Ev;
    try discriminate.
  intros Er. split.
  { rewrite (to_fields_length values row Er).
    exact (log_values_length now data values Ev). }
  unfold log_values in Ev.
  destruct (keywords_cell data) as [kw| |]; try discriminate.
  destruct (dict_get data (lit "modifiedMetrics") (VDict []));
    try discriminate.
  injection Ev as <-. cbn [List.app] in Er.
  apply to_fields_cons in Er as (f0 & r0 & -> & E0 & Er).
  apply to_fields_cons in Er as (f1 & r1 & -> & E1 & Er).
  apply to_fields_cons in Er as (f2 & r2 & -> & E2 & Er).
  cbn [to_field] in E0. injection E0 as <-.
  cbn [nth]. repeat split; assumption.
Qed.



Lemma readable_headers : readable HEADERS = true.
Proof. reflexivity. Qed.

(** [append_row] on a well-formed log, with a record that can be
    written. *)
Lemma log_append (log : csv_file) (row : record) :
  log_ok log -> writable row = true ->
  exists log',
    append_row HEADERS log row = (log', Done tt)
    /\ (record_of (length HEADERS) row ->
        log_ok log'
        /\ rows_of log' = rows_of log ++ [Done (to_dict HEADERS row)]).
Proof.
  intros Hok Hw. unfold append_row.
  destruct log as [|records|]; cbn [opened]; [| |destruct Hok];
    rewrite Hw; eexists; (split; [reflexivity|]); intros Hr.
  - split.
    + exists [row]. split; [reflexivity|].
      constructor; [exact Hr|constructor].
    + cbn [rows_of dict_reader List.app]. rewrite readable_headers.
      rewrite (read_rows_all _ [row] 35); [reflexivity|].
      constructor; [exact Hr|constructor].
  - destruct Hok as (rows & -> & Hrows). split.
    + exists (rows ++ [row]). split; [reflexivity|].
      apply List.Forall_app. split; [exact Hrows|].
      constructor; [exact Hr|constructor].
    + cbn [rows_of dict_reader List.app]. rewrite readable_headers.
      rewrite (read_rows_app _ rows [row] 35 Hrows).
      rewrite (read_rows_all _ rows 35 Hrows).
      rewrite (read_rows_all _ [row] 35); [reflexivity|].
      constructor; [exact Hr|constructor].
Qed.

Lemma log_ok_complete (log : csv_file) : log_ok log -> complete log.
Proof.
  destruct log as [|records|]; [constructor| |intros []].
  intros (rows & -> & Hrows). split; [reflexivity|].
  eapply List.Forall_impl; [|exact Hrows].
  intros r [Hr1 Hr2]. split; [exact Hr2|]. rewrite Hr1. constructor.
Qed.

(** The project and the user of a row read back from the log. *)
Lemma to_dict_log_row (r : record) :
  length r = length HEADERS ->
  dict_get (to_dict HEADERS r) PROJECT_NAME (Some DEFAULT_PROJECT)
  = Some (nth 1 r [])
  /\ dict_get (to_dict HEADERS r) USER_EMAIL (Some []) = Some (nth 2 r []).
Proof.
  intros Hlen. change (length HEADERS) with 36%nat in Hlen.
  do 36 (destruct r as [|? r]; [discriminate Hlen|]).
  destruct r; [|discriminate Hlen].
  split; vm_compute; reflexivity.
Qed.

Lemma logs_of_project_snoc (rows : list (outcome (dict cell)))
  (row : dict cell) (name email : pystr) (former : list (dict cell))
  (keep : bool) :
  logs_of_project rows name email = Done former ->
  (if in_project row name then field_matches row USER_EMAIL email
   else Done false) = Done keep ->
  logs_of_project (rows ++ [Done row]) name email
  = Done (former ++ if keep then [row] else []).
Proof.
  intros Hrows Hrow. revert former Hrows.
  induction rows as [|[r|e|] rows IH]; intros former Hrows;
    try discriminate Hrows.
  - injection Hrows as <-. cbn [List.app logs_of_project]. rewrite Hrow.
    destruct keep; reflexivity.
  - cbn [List.app logs_of_project] in *.
    destruct (if in_project r name then field_matches r USER_EMAIL email
              else Done false) as [b| |]; try discriminate.
    destruct (logs_of_project rows name email) as [kept0| |];
      try discriminate.
    injection Hrows as <-. rewrite (IH kept0 eq_refl).
    destruct b; reflexivity.
Qed.

End MetricsLog.


(** A concrete instance of [str]: digits for a small natural number, and
    [ValueError] for any other value. *)
Module DemoRepr.

#[export] Instance repr : PyRepr :=
  {| py_str := fun v =>
       match v with
       | VInt z =>
           if (0 <=? z) && (z <? 10) then Done [(48 + Z.to_N z)%N]
           else Fail (Uncaught ValueError)
       | _ => Fail (Uncaught ValueError)
       end |}.

Definition response : dict pyval :=
  [(lit "projectName", VStr (lit "Essay"));
   (lit "userEmail", VStr (lit "Ann@x.org"));
   (lit "keywords", VList [VStr (lit "cats"); VStr (lit "dogs")]);
   (lit "modifiedMetrics", VDict [(lit "wordCount", VInt 6)])].

(** The record of the response logged at [t1]. *)
Definition row : record :=
  Eval vm_compute in
    match log_row (lit "t1") response with
    | Done r => r
    | _ => []
    end.

End DemoRepr.


(** What [log_to_csv] has logged, [project_detail] finds.  When the
    record of a response can be written and read back (no surrogate code
    point, no field longer than the field size limit), [log_to_csv]
    appends it to a well-formed log, which stays well formed; read for the
    project and the user the response was logged under, the log then gives
    its former rows of that project and user and, last, the new row. *)
Theorem logged_row_is_found (U : UnicodeDB) (R : PyRepr) (now : pystr)
  (log : csv_file) (data : dict pyval) (row : record) :
  log_ok log -> log_row now data = Done row ->
  writable row = true -> readable row = true ->
  exists log' project user former,
    log_to_csv now log data = (log', Done tt) /\ log_ok log'
    /\ logged_project data = Done project /\ logged_user data = Done user
    /\ logs_of_project (rows_of log) project user = Done former
    /\ logs_of_project (rows_of log') project user
       = Done (former ++ [to_dict HEADERS row])
    /\ dict_get (to_dict HEADERS row) PROJECT_NAME (Some DEFAULT_PROJECT)
       = Some project
    /\ dict_get (to_dict HEADERS row) USER_EMAIL (Some []) = Some user.
Proof.
  intros Hok Er Hw Hr.
  destruct (log_row_fields now data row Er) as (Hlen & _ & Hp & Hu).
  destruct (to_dict_log_row row Hlen) as (Dp & Du).
  destruct (log_append log row Hok Hw) as (log' & Ea & Hlog').
  destruct (Hlog' (conj Hlen Hr)) as (Hok' & Erows).
  destruct (@detail_done U log (nth 1 row []) (nth 2 row [])
              (log_ok_complete log Hok)) as (former & Hformer).
  exists log', (nth 1 row []), (nth 2 row []), former.
  split.
  { unfold log_to_csv. unfold log_row in Er.
    destruct (log_values now data) as [values| |]; try discriminate.
    rewrite Er. exact Ea. }
  split; [exact Hok'|]. split; [exact Hp|]. split; [exact Hu|].
  split; [exact Hformer|]. split; [|split; assumption].
  rewrite Erows.
  rewrite (logs_of_project_snoc _ _ _ _ former true Hformer); [reflexivity|].
  unfold in_project, field_matches. rewrite Dp, Du, !eqb_refl.
  reflexivity.
Qed.

Lemma logged_row_is_found_witness :
  exists log' project user former,
    @log_to_csv DemoRepr.repr (lit "t1") Missing DemoRepr.response
    = (log', Done tt)
    /\ log_ok log'
    /\ @logged_project DemoRepr.repr DemoRepr.response = Done project
    /\ @logged_user DemoRepr.repr DemoRepr.response = Done user
    /\ @logs_of_project Demo.unicode (rows_of Missing) project user
       = Done former
    /\ @logs_of_project Demo.unicode (rows_of log') project user
       = Done (former ++ [to_dict HEADERS DemoRepr.row])
    /\ dict_get (to_dict HEADERS DemoRepr.row) PROJECT_NAME
         (Some DEFAULT_PROJECT)
       = Some project
    /\ dict_get (to_dict HEADERS DemoRepr.row) USER_EMAIL (Some [])
       = Some user.
Proof.
  apply (logged_row_is_found Demo.unicode DemoRepr.repr (lit "t1") Missing
           DemoRepr.response DemoRepr.row).
  - exact I.
  - vm_compute. reflexivity.
  - vm_compute. reflexivity.
  - vm_compute. reflexivity.
Defined.

(* ===================================================================== *)
(** * More on sentences and on the most frequent words *)
(* ===================================================================== *)

Section MoreEngine.

Lemma split_go_without_separator (d : char) (cur s : pystr) :
  ~ In d s -> split_go [d] O cur s = [rev cur ++ s].
Proof.
  revert cur. induction s as [|c s IH]; intros cur Hd.
  - simpl. rewrite List.app_nil_r. reflexivity.
  - cbn [split_go starts_with]. rewrite Bool.andb_true_r.
    destruct (char_eqb d c) eqn:E.
    + apply char_eqb_eq in E. subst. exfalso. apply Hd. left. reflexivity.
    + rewrite IH by (intros Hin; apply Hd; right; exact Hin).
      simpl. rewrite <- List.app_assoc. reflexivity.
Qed.

Lemma strongly_sorted_app_cross {A} (R : A -> A -> Prop) (l1 l2 : list A) :
  StronglySorted R (l1 ++ l2) ->
  forall x y, In x l1 -> In y l2 -> R x y.
Proof.
  induction l1 as [|a l1 IH]; intros Hs x y Hx Hy; [destruct Hx|].
  simpl in Hs. apply StronglySorted_inv in Hs as [Hs Ha].
  destruct Hx as [->|Hx]; [|exact (IH Hs x y Hx Hy)].
  rewrite List.Forall_forall in Ha. apply Ha.
  apply List.in_or_app. right. exact Hy.
Qed.

Lemma frequency_table_keys `{UnicodeDB} (words : list pystr) :
  map fst (frequency_table words) = first_occurrences (map lower words).
Proof.
  unfold frequency_table. rewrite List.map_map. simpl.
  apply List.map_id.
Qed.

Lemma frequency_table_counts `{UnicodeDB} (words : list pystr) :
  Forall (fun e => snd e = occurrences (fst e) (map lower words))
    (frequency_table words).
Proof.
  unfold frequency_table. apply List.Forall_map, List.Forall_forall.
  intros w _. reflexivity.
Qed.

End MoreEngine.

(** A text that has no period and is not blank is one sentence, the
    trimmed text: [sentenceCount] is 1 and [longestSentence] is the
    trimmed text. *)
Theorem text_without_period_is_one_sentence (U : UnicodeDB) (T : Textstat)
  (text : pystr) :
  ~ In PERIOD text -> ~ whitespace_only text ->
  exists m,
    calculate_text_metrics text = Ok m
    /\ sentences_of text = [strip text]
    /\ sentenceCount m = 1 /\ longestSentence m = strip text.
Proof.
  intros Hper Hnb.
  destruct (calculate_text_metrics_run text) as (m & E & R).
  exists m. split; [exact E|].
  rewrite (run_sentenceCount _ _ R), (run_longestSentence _ _ R).
  assert (sentences_of text = [strip text]) as ->.
  { unfold sentences_of, split. change DOT with [PERIOD].
    rewrite split_go_without_separator by exact Hper.
    cbn [rev List.app List.filter].
    destruct (truthy (strip text)) eqn:Et; [reflexivity|].
    apply truthy_strip_false_iff in Et. contradiction. }
  repeat split.
Qed.

Lemma text_without_period_is_one_sentence_witness :
  exists m,
    @calculate_text_metrics Demo.unicode Demo.textstat (lit " no stop ")
    = Ok m
    /\ sentences_of (lit " no stop ") = [strip (lit " no stop ")]
    /\ sentenceCount m = 1 /\ longestSentence m = strip (lit " no stop ").
Proof.
  apply (text_without_period_is_one_sentence Demo.unicode Demo.textstat).
  - vm_compute. intuition discriminate.
  - intros Hw. apply strip_empty_iff in Hw. discriminate Hw.
Defined.

(** [topWords] holds the most frequent words: together with the entries
    it leaves out it makes up the frequency table, no entry left out has a
    larger count than a listed one, no word is listed twice, and the count
    of a listed word is the number of its occurrences among the
    case-folded words of the text. *)
Theorem top_words_are_the_most_frequent (U : UnicodeDB) (T : Textstat)
  (text : pystr) :
  exists m rest,
    calculate_text_metrics text = Ok m
    /\ Permutation (topWords m ++ rest) (frequency_table (words_of text))
    /\ (forall e e', In e (topWords m) -> In e' rest -> snd e' <= snd e)
    /\ List.NoDup (map fst (topWords m))
    /\ Forall (fun e => snd e
                        = occurrences (fst e) (map lower (words_of text)))
         (topWords m).
Proof.
  destruct (calculate_text_metrics_run text) as (m & E & R).
  set (table := frequency_table (words_of text)).
  set (ranking := sorted table snd true).
  exists m, (skipn 5 ranking). split; [exact E|].
  rewrite (top_words_of_table text m R). fold table. fold ranking.
  pose proof (sorted_reverse_perm snd table) as Hperm. fold ranking in Hperm.
  split; [rewrite List.firstn_skipn; exact Hperm|]. split; [|split].
  - intros e e' He He'.
    assert (StronglySorted (key_ge snd) ranking) as Hs.
    { apply Sorted_StronglySorted; [intros a b c; unfold key_ge; lia|].
      apply (sorted_reverse_sorted snd). }
    rewrite <- (List.firstn_skipn 5 ranking) in Hs.
    exact (strongly_sorted_app_cross _ _ _ Hs e e' He He').
  - assert (List.NoDup (map fst ranking)) as Hnd.
    { apply (Permutation_NoDup (l := map fst table)).
      - symmetry. apply Permutation_map. exact Hperm.
      - unfold table. rewrite frequency_table_keys.
        apply first_occurrences_NoDup. }
    rewrite <- (List.firstn_skipn 5 ranking), List.map_app in Hnd.
    apply List.NoDup_app_remove_r in Hnd. exact Hnd.
  - apply Forall_firstn.
    eapply Permutation_Forall; [symmetry; exact Hperm|].
    apply frequency_table_counts.
Qed.


Section Writers.

Context `{UnicodeDB} `{Textstat} `{Werkzeug}.

Lemma register_user_refusal (now salt : pystr) (users users' : csv_file)
  (email password : pystr) :
  register_user now salt users email password = (users', Done false) ->
  users' = users.
Proof.
  unfold register_user.
  destruct (email_taken (rows_of users) email) as [[|]| |];
    try discriminate.
  - intros [= <-]. reflexivity.
  - destruct (generate_password_hash salt password) as [hashed| |];
      try discriminate.
    destruct (append_row USERS_HEADERS users [now; email; hashed])
      as [u [[]| |]]; discriminate.
Qed.

End Writers.

(** Who writes what, when a request is answered.  No route touches the
    metrics log.  The users file changes only on a [POST] to [/register]
    that is answered by the redirect to the analyzer, which also opens the
    session for the trimmed e-mail.  The projects file changes only on
    [/new_project] with a session, and then by the record [log_project]
    appends for the trimmed name and the e-mail of the session. *)
Theorem only_two_routes_write (U : UnicodeDB) (T : Textstat) (W : Werkzeug)
  (now salt : pystr) (st st' : state) (req : request) (resp : response) :
  handle now salt st req = Done (st', resp) ->
  log_csv st' = log_csv st
  /\ (users_csv st' = users_csv st
      \/ exists email password,
          req = Register POST email password
          /\ resp = Redirect "analyzer"
          /\ user_email st' = Some (strip email))
  /\ (projects_csv st' = projects_csv st
      \/ exists name email,
          req = NewProject name /\ user_email st = Some email
          /\ log_project now (projects_csv st) (strip name) email
             = (projects_csv st', Done tt)).
Proof.
  destruct req as [| |text|[|] email password|[|] email password
                  | | |name|name|]; cbn [handle];
    unfold home, analyzer, analyze, register, login, logout,
      projects_view, new_project, project_detail, about.
  1, 12: intros [= <- <-]; repeat split; left; reflexivity.
  - destruct (user_email st); intros [= <- <-];
      repeat split; left; reflexivity.
  - destruct (user_email st); [|intros [= <- <-];
                                 repeat split; left; reflexivity].
    destruct (negb (truthy (strip text)));
      [intros [= <- <-]; repeat split; left; reflexivity|].
    destruct (calculate_text_metrics text); [|discriminate].
    intros [= <- <-]; repeat split; left; reflexivity.
  - intros [= <- <-]; repeat split; left; reflexivity.
  - destruct (negb (truthy (strip email))
              || negb (truthy (strip password)))%bool;
      [intros [= <- <-]; repeat split; left; reflexivity|].
    destruct (register_user now salt (users_csv st) (strip email)
                (strip password)) as [users [[|]| |]] eqn:Er;
      try discriminate.
    + intros [= <- <-]. split; [reflexivity|]. split; [|left; reflexivity].
      right. exists email, password. repeat split.
    + apply register_user_refusal in Er. subst users.
      intros [= <- <-]; repeat split; left; reflexivity.
  - intros [= <- <-]; repeat split; left; reflexivity.
  - destruct (validate_user (users_csv st) (strip email) (strip password))
      as [[|]| |]; try discriminate;
      intros [= <- <-]; repeat split; left; reflexivity.
  - intros [= <- <-]; repeat split; left; reflexivity.
  - destruct (user_email st) as [u|];
      [|intros [= <- <-]; repeat split; left; reflexivity].
    destruct (rows_of_user (rows_of (projects_csv st)) u);
      try discriminate.
    intros [= <- <-]; repeat split; left; reflexivity.
  - destruct (user_email st) as [u|] eqn:Eu;
      [|intros [= <- <-]; repeat split; left; reflexivity].
    destruct (negb (truthy (strip name)));
      [intros [= <- <-]; repeat split; left; reflexivity|].
    destruct (log_project now (projects_csv st) (strip name) u)
      as [projects [[]| |]] eqn:El; try discriminate.
    intros [= <- <-]. split; [reflexivity|]. split; [left; reflexivity|].
    right. exists name, u. split; [reflexivity|]. split; [reflexivity|].
    exact El.
  - destruct (user_email st) as [u|];
      [|intros [= <- <-]; repeat split; left; reflexivity].
    destruct (logs_of_project (rows_of (log_csv st)) name u);
      try discriminate.
    intros [= <- <-]; repeat split; left; reflexivity.
Qed.

Lemma only_two_routes_write_witness :
  log_csv DemoApp.ann_with_essay = log_csv DemoApp.ann_signed_in
  /\ (users_csv DemoApp.ann_with_essay = users_csv DemoApp.ann_signed_in
      \/ exists email password,
          NewProject (lit " Essay ") = Register POST email password
          /\ Redirect "analyzer" = Redirect "analyzer"
          /\ user_email DemoApp.ann_with_essay = Some (strip email))
  /\ (projects_csv DemoApp.ann_with_essay = projects_csv DemoApp.ann_signed_in
      \/ exists name email,
          NewProject (lit " Essay ") = NewProject name
          /\ user_email DemoApp.ann_signed_in = Some email
          /\ log_project (lit "t1") (projects_csv DemoApp.ann_signed_in)
               (strip name) email
             = (projects_csv DemoApp.ann_with_essay, Done tt)).
Proof.
  apply (only_two_routes_write Demo.unicode Demo.textstat DemoHash.werkzeug
           (lit "t1") (lit "s1") DemoApp.ann_signed_in DemoApp.ann_with_essay
           (NewProject (lit " Essay "))).
  reflexivity.
Defined.
